(** * n8n-nodes-xdc: address codec, unit conversion, epochs, validator set
      and reward estimation

    Shallow embedding of
      - utils/addressUtils.ts   ([toXdcAddress], [toEthAddress], [addressesEqual]),
      - utils/unitConverter.ts  ([UNIT_DECIMALS], [toWei]),
      - transport/explorerApi.ts, class XdcMasternodeClient
        ([getCandidates], [getMasternodeInfo], [getEpochInfo],
         [getCurrentEpoch], [calculateEstimatedRewards]),
    and, for the further properties at the end, of the other pure functions
    of the address utilities ([normalizeAddress], [isValidXdcAddress],
    [parseAddress], [isZeroAddress], [truncateAddress]), of the unit
    converter ([fromWei], [compareBigInt], [calculatePercentage]), of the
    two clients ([getVoterInfo], [getMasternodesList], [getWithdrawals],
    [formatTransactions], [formatTokenTransfers]) and of the trade finance
    utilities ([isValidStatusTransition], [parseISO20022MessageType],
    [verifyDocumentHash], [generateLCReference]).

    JavaScript strings are modelled as character strings over ASCII,
    [bigint] as [Z], [number] as IEEE-754 binary64 ([spec_float] with
    precision 53 and maximal exponent 1024), and a [throw] as the [Throw]
    constructor of [result]. *)

From Stdlib Require Import Bool Ascii String List ZArith Zpower Lia.
From Stdlib Require Import Decimal DecimalString DecimalPos DecimalN.
From Stdlib Require Import Floats.SpecFloat.
From Stdlib Require Import Sorting.Sorted Sorting.Permutation.
Import ListNotations.

Local Open Scope string_scope.

(** ** Exceptions *)

Inductive JsError : Type :=
| Error (message : string)
| RangeError (message : string).

Inductive result (A : Type) : Type :=
| Ok (value : A)
| Throw (e : JsError).

Arguments Ok {A} value.
Arguments Throw {A} e.

Definition bind {A B : Type} (r : result A) (k : A -> result B) : result B :=
  match r with
  | Ok a => k a
  | Throw e => Throw e
  end.

Notation "x <- r ;; k" := (bind r (fun x => k))
  (at level 61, r at next level, right associativity).

Definition returns {A : Type} (r : result A) : bool :=
  match r with Ok _ => true | Throw _ => false end.

Fixpoint mapM {A B : Type} (f : A -> result B) (l : list A) : result (list B) :=
  match l with
  | [] => Ok []
  | a :: l' => b <- f a ;; bs <- mapM f l' ;; Ok (b :: bs)
  end.

(** ** String primitives of the host language *)

Module JsString.

Definition isUpper (c : ascii) : bool :=
  (65 <=? nat_of_ascii c)%nat && (nat_of_ascii c <=? 90)%nat.

Definition lowerChar (c : ascii) : ascii :=
  if isUpper c then ascii_of_nat (nat_of_ascii c + 32) else c.

(** [s.toLowerCase()] *)
Fixpoint toLowerCase (s : string) : string :=
  match s with
  | EmptyString => EmptyString
  | String c s' => String (lowerChar c) (toLowerCase s')
  end.

(** [s.startsWith(p)] *)
Fixpoint startsWith (p s : string) : bool :=
  match p, s with
  | EmptyString, _ => true
  | String a p', String b s' => Ascii.eqb a b && startsWith p' s'
  | String _ _, EmptyString => false
  end.

(** [s.slice(n)] for a non-negative [n] *)
Fixpoint slice (n : nat) (s : string) : string :=
  match n, s with
  | O, _ => s
  | S n', String _ s' => slice n' s'
  | S _, EmptyString => EmptyString
  end.

(** [!s]: the empty string is the only falsy string *)
Definition isFalsy (s : string) : bool :=
  match s with EmptyString => true | _ => false end.

Definition isDigit (c : ascii) : bool :=
  (48 <=? nat_of_ascii c)%nat && (nat_of_ascii c <=? 57)%nat.

Definition isHexChar (c : ascii) : bool :=
  isDigit c
  || ((97 <=? nat_of_ascii c)%nat && (nat_of_ascii c <=? 102)%nat)
  || ((65 <=? nat_of_ascii c)%nat && (nat_of_ascii c <=? 70)%nat).

Fixpoint allHex (s : string) : bool :=
  match s with
  | EmptyString => true
  | String c s' => isHexChar c && allHex s'
  end.

End JsString.
Import JsString.

(** ** utils/addressUtils.ts *)

Definition toXdcAddress (address : string) : result string :=
  if isFalsy address then Throw (Error "Address is required")
  else
    let normalized := toLowerCase address in
    if startsWith "xdc" normalized then Ok normalized
    else if startsWith "0x" normalized then Ok ("xdc" ++ slice 2 normalized)
    else if (String.length normalized =? 40)%nat then Ok ("xdc" ++ normalized)
    else Throw (Error ("Invalid address format: " ++ address)).

Definition toEthAddress (address : string) : result string :=
  if isFalsy address then Throw (Error "Address is required")
  else
    let normalized := toLowerCase address in
    if startsWith "0x" normalized then Ok normalized
    else if startsWith "xdc" normalized then Ok ("0x" ++ slice 3 normalized)
    else if (String.length normalized =? 40)%nat then Ok ("0x" ++ normalized)
    else Throw (Error ("Invalid address format: " ++ address)).

(** The [try { ... } catch { return false; }] block turns every [Throw]
    of the two translations into [false]. *)
Definition addressesEqual (address1 address2 : string) : bool :=
  if isFalsy address1 || isFalsy address2 then false
  else
    match toEthAddress address1 with
    | Throw _ => false
    | Ok e1 =>
        match toEthAddress address2 with
        | Throw _ => false
        | Ok e2 => String.eqb (toLowerCase e1) (toLowerCase e2)
        end
    end.

(** *** The address forms named by the specification *)

(** A payload: exactly 40 hexadecimal characters. *)
Definition isPayload (p : string) : bool :=
  (String.length p =? 40)%nat && allHex p.

(** Format A: the 3-character tag [xdc] followed by a payload. *)
Definition isFormatA (s : string) : bool :=
  startsWith "xdc" (toLowerCase s) && isPayload (slice 3 s).

(** Format B: the 2-character tag [0x] followed by a payload. *)
Definition isFormatB (s : string) : bool :=
  startsWith "0x" (toLowerCase s) && isPayload (slice 2 s).

Definition isKnownForm (s : string) : bool :=
  isFormatA s || isFormatB s || isPayload s.

(** The lowercased payload carried by a string in one of the known forms. *)
Definition payloadOf (s : string) : string :=
  let n := toLowerCase s in
  if startsWith "xdc" n then slice 3 n
  else if startsWith "0x" n then slice 2 n
  else n.

(** What the two translations accept, read off their branches. *)
Definition accepted (s : string) : bool :=
  negb (isFalsy s)
  && (startsWith "xdc" (toLowerCase s)
      || startsWith "0x" (toLowerCase s)
      || (String.length (toLowerCase s) =? 40)%nat).

(** ** The host runtime and the ethers library

    [formatEther], [parseUnits] (with [parseEther v = parseUnits v 18]) are
    functions of the ethers library and [toFixed] is
    [Number.prototype.toFixed]; none of them belongs to the repository.
    The embedding takes them as a parameter. *)

Record Runtime : Type := {
  formatEther : Z -> string;
  parseUnits : string -> Z -> result Z;
  toFixed : spec_float -> nat -> string
}.

Definition parseEther (rt : Runtime) (value : string) : result Z :=
  parseUnits rt value 18.

(** ** IEEE-754 binary64: the [number] type *)

Module JsNumber.

Definition number : Type := spec_float.

Definition prec : Z := 53.
Definition emax : Z := 1024.

(** [Number(z)] for a bigint [z], and the value of an integer literal:
    the nearest binary64, ties to even, infinite on overflow. *)
Definition ofZ (z : Z) : number := binary_normalize prec emax z 0 false.

Definition add : number -> number -> number := SFadd prec emax.
Definition sub : number -> number -> number := SFsub prec emax.
Definition mul : number -> number -> number := SFmul prec emax.
Definition div : number -> number -> number := SFdiv prec emax.

(** [Math.floor] *)
Definition floor (x : number) : number :=
  match x with
  | S754_finite s m e =>
      if (0 <=? e)%Z then x
      else binary_normalize prec emax
             (Z.div (cond_Zopp s (Zpos m)) (2 ^ (- e))) 0 s
  | _ => x
  end.

(** [Math.min] of two arguments *)
Definition min (x y : number) : number :=
  match SFcompare x y with
  | None => S754_nan
  | Some Lt => x
  | Some Gt => y
  | Some Eq => match x with S754_zero true => x | _ => y end
  end.

(** [BigInt(x)]: a RangeError unless [x] is an integer *)
Definition toBigInt (x : number) : result Z :=
  match x with
  | S754_zero _ => Ok 0%Z
  | S754_finite s m e =>
      if (0 <=? e)%Z then Ok (cond_Zopp s (Zpos m) * 2 ^ e)%Z
      else if (Zpos m mod 2 ^ (- e) =? 0)%Z
           then Ok (cond_Zopp s (Zpos m) / 2 ^ (- e))%Z
           else Throw (RangeError "The number cannot be converted to a BigInt because it is not an integer")
  | _ => Throw (RangeError "The number cannot be converted to a BigInt because it is not an integer")
  end.

(** Sign test: neither NaN nor carrying a minus sign. *)
Definition isNonNegative (x : number) : bool :=
  match x with
  | S754_zero s | S754_infinity s | S754_finite s _ _ => negb s
  | S754_nan => false
  end.

Definition MAX_SAFE_INTEGER : Z := 2 ^ 53 - 1.

(** The 53-bit mantissa and the exponent of the binary64 that holds a
    non-zero integer of magnitude below [2 ^ 53]. *)
Definition mantissa (z : Z) : positive :=
  Z.to_pos (Z.abs z * 2 ^ (52 - Z.log2 (Z.abs z))).

Definition exponent (z : Z) : Z := Z.log2 (Z.abs z) - 52.

End JsNumber.
Import JsNumber.

(** ** Arrays *)

(** [a.slice(start, end)] for non-negative indices *)
Definition Array_slice {A : Type} (start end_ : nat) (a : list A) : list A :=
  firstn (end_ - start) (skipn start a).

(** [a.includes(x)] on an array of strings *)
Definition Array_includes (x : string) (a : list string) : bool :=
  existsb (String.eqb x) a.

(** ** utils/unitConverter.ts *)

Local Open Scope Z_scope.

Definition UNIT_DECIMALS : list (string * Z) :=
  [ ("wei", 0); ("kwei", 3); ("mwei", 6); ("gwei", 9);
    ("szabo", 12); ("finney", 15); ("xdc", 18); ("ether", 18) ].

Fixpoint lookup (k : string) (tbl : list (string * Z)) : option Z :=
  match tbl with
  | [] => None
  | (k', v) :: tbl' => if String.eqb k k' then Some v else lookup k tbl'
  end.

(** The names every plain object inherits from [Object.prototype]; their
    values are functions or objects. *)
Definition Object_prototype_names : list string :=
  [ "constructor"; "__defineGetter__"; "__defineSetter__"; "hasOwnProperty";
    "__lookupGetter__"; "__lookupSetter__"; "isPrototypeOf";
    "propertyIsEnumerable"; "toString"; "valueOf"; "__proto__";
    "toLocaleString" ].

(** [UNIT_DECIMALS[unitLower]]: the exponent of an own entry, a function or
    object found on the prototype, or [undefined]. *)
Inductive UnitEntry : Type :=
| own_decimals (d : Z)
| inherited_object
| no_entry.

Definition unitEntry (unitLower : string) : UnitEntry :=
  match lookup unitLower UNIT_DECIMALS with
  | Some d => own_decimals d
  | None =>
      if existsb (String.eqb unitLower) Object_prototype_names
      then inherited_object
      else no_entry
  end.

(** [UNIT_DECIMALS[unitLower] || 18]: [undefined] and [0] are both falsy;
    an inherited function or object is truthy and is passed on as it is.
    It is not a number: [None]. *)
Definition decimalsOrDefault (unitLower : string) : option Z :=
  match unitEntry unitLower with
  | own_decimals d => Some (if d =? 0 then 18 else d)
  | inherited_object => None
  | no_entry => Some 18
  end.

(** What the library throws, whatever the value, when the unit it is given
    is neither a number nor a string. *)
Definition invalidUnit : JsError := Error "invalid numeric value".

(** [value] is the result of [value.toString()]. *)
Definition toWei (rt : Runtime) (value : string) (unit : string) : result Z :=
  let unitLower := toLowerCase unit in
  if String.eqb unitLower "xdc" then parseEther rt value
  else
    match decimalsOrDefault unitLower with
    | Some d => parseUnits rt value d
    | None => Throw invalidUnit
    end.

Definition weiToXdc (rt : Runtime) (weiValue : Z) : string :=
  formatEther rt weiValue.

(** ** transport/explorerApi.ts: XdcMasternodeClient *)

Inductive MasternodeStatus : Type :=
| active | inactive | proposed | resigned.

(** [stake] holds the bigint whose decimal rendering the source stores. *)
Record MasternodeInfo : Type := {
  mi_address : string;
  mi_owner : string;
  mi_stake : Z;
  mi_stakeXdc : string;
  mi_voterCount : nat;
  mi_isValidator : bool;
  mi_status : MasternodeStatus
}.

Record EpochInfo : Type := {
  ei_number : number;
  ei_startBlock : number;
  ei_endBlock : number;
  ei_validatorSet : list string;
  ei_rewards : Z;
  ei_rewardsXdc : string
}.

Record RewardEstimate : Type := {
  daily : string;
  monthly : string;
  yearly : string;
  apy : string
}.

(** A snapshot of what the validator contract and the provider answer. *)
Record Chain : Type := {
  contract_getCandidates : list string;
  contract_getCandidateCap : string -> Z;
  contract_getCandidateOwner : string -> string;
  contract_isCandidate : string -> bool;
  contract_getVoters : string -> list string;
  provider_getBlockNumber : number
}.

Definition getCandidates (c : Chain) : result (list string) :=
  mapM toXdcAddress (contract_getCandidates c).

Definition getVotersForCandidate (c : Chain) (candidateAddress : string)
  : result (list string) :=
  a <- toEthAddress candidateAddress ;;
  mapM toXdcAddress (contract_getVoters c a).

Definition getMasternodeInfo (rt : Runtime) (c : Chain) (candidateAddress : string)
  : result MasternodeInfo :=
  ethAddress <- toEthAddress candidateAddress ;;
  let stake := contract_getCandidateCap c ethAddress in
  let owner := contract_getCandidateOwner c ethAddress in
  let isCandidate := contract_isCandidate c ethAddress in
  let candidates := contract_getCandidates c in
  voters <- getVotersForCandidate c candidateAddress ;;
  let isValidator :=
    Array_includes (toLowerCase ethAddress)
      (Array_slice 0 108 (map toLowerCase candidates)) in
  address' <- toXdcAddress candidateAddress ;;
  owner' <- toXdcAddress owner ;;
  Ok {| mi_address := address';
        mi_owner := owner';
        mi_stake := stake;
        mi_stakeXdc := weiToXdc rt stake;
        mi_voterCount := List.length voters;
        mi_isValidator := isValidator;
        mi_status := if negb isCandidate then resigned
                     else if isValidator then active else proposed |}.

(** [ethers.parseEther('0.25')] *)
Definition rewardPerBlock : Z := 250000000000000000.

Definition epochBlocks : number := ofZ 900.

Definition getEpochInfo (rt : Runtime) (c : Chain) (epochNumber : option number)
  : result EpochInfo :=
  let currentBlock := provider_getBlockNumber c in
  let epoch :=
    match epochNumber with
    | Some e => e
    | None => floor (div currentBlock epochBlocks)
    end in
  let startBlock := mul epoch epochBlocks in
  let endBlock := sub (add startBlock epochBlocks) (ofZ 1) in
  candidates <- getCandidates c ;;
  let validatorSet := Array_slice 0 108 candidates in
  let blocksInEpoch :=
    add (sub (min endBlock currentBlock) startBlock) (ofZ 1) in
  n <- toBigInt blocksInEpoch ;;
  let rewardsWei := n * rewardPerBlock in
  Ok {| ei_number := epoch;
        ei_startBlock := startBlock;
        ei_endBlock := endBlock;
        ei_validatorSet := validatorSet;
        ei_rewards := rewardsWei;
        ei_rewardsXdc := weiToXdc rt rewardsWei |}.

Definition getCurrentEpoch (c : Chain) : number :=
  let currentBlock := provider_getBlockNumber c in
  floor (div currentBlock (ofZ 900)).

Definition defaultBlocksPerYear : number := ofZ 15768000.

(** [stake] and [totalStake] are the bigints [BigInt(stakeAmount)] and
    [BigInt(totalNetworkStake)].  Division of bigints truncates towards
    zero, which is [Z.quot]. *)
Definition calculateEstimatedRewards (rt : Runtime)
    (stake totalStake : Z) (blocksPerYear : number) : result RewardEstimate :=
  if totalStake =? 0 then
    Ok {| daily := "0"; monthly := "0"; yearly := "0"; apy := "0" |}
  else
    let shareRatio := div (ofZ stake) (ofZ totalStake) in
    bpy <- toBigInt blocksPerYear ;;
    let yearlyRewards := bpy * rewardPerBlock in
    userYearlyRewards <- toBigInt (floor (mul (ofZ yearlyRewards) shareRatio)) ;;
    let dailyRewards := Z.quot userYearlyRewards 365 in
    let monthlyRewards := Z.quot userYearlyRewards 12 in
    let apy_ := mul (div (ofZ userYearlyRewards) (ofZ stake)) (ofZ 100) in
    Ok {| daily := weiToXdc rt dailyRewards;
          monthly := weiToXdc rt monthlyRewards;
          yearly := weiToXdc rt userYearlyRewards;
          apy := toFixed rt apy_ 2 |}.

(** ** A model of the library functions

    ethers (version 6) is a dependency of the repository, not part of it.
    The model below follows its [FixedNumber.fromString] and
    [FixedNumber.toString] with the format [{decimals, width: 512}], which
    is what [parseUnits] and [formatUnits] call.  It serves to run the
    embedding on concrete inputs. *)

Module EthersModel.

Local Open Scope string_scope.

Fixpoint allDigits (s : string) : bool :=
  match s with
  | EmptyString => true
  | String c s' => isDigit c && allDigits s'
  end.

(** The text before the first dot, and the text after it if any. *)
Fixpoint splitDot (s : string) : string * option string :=
  match s with
  | EmptyString => (EmptyString, None)
  | String c s' =>
      if Ascii.eqb c "." then (EmptyString, Some s')
      else let '(w, f) := splitDot s' in (String c w, f)
  end.

Definition natOfDigits (s : string) : Z :=
  match NilEmpty.uint_of_string s with
  | Some u => Z.of_uint u
  | None => 0
  end.

Fixpoint zeros (n : nat) : string :=
  match n with
  | O => EmptyString
  | S n' => String "0" (zeros n')
  end.

Definition stripMinus (s : string) : bool * string :=
  match s with
  | String "-" rest => (true, rest)
  | _ => (false, s)
  end.

(** An optional minus sign, decimal digits, an optional dot and decimal
    digits, with at least one digit in all. *)
Definition isDecimalNumeral (value : string) : bool :=
  let '(whole, frac) := splitDot (snd (stripMinus value)) in
  let decimal := match frac with Some f => f | None => EmptyString end in
  allDigits whole && allDigits decimal
  && negb (String.length whole + String.length decimal =? 0)%nat.

(** [value] must be a decimal numeral; surplus fraction digits must be
    zeros; the result must fit 512 bits, signed. *)
Definition parseUnits (value : string) (decimals : Z) : result Z :=
  let '(negative, body) := stripMinus value in
  let '(whole, frac) := splitDot body in
  let decimal := match frac with Some f => f | None => EmptyString end in
  if negb (isDecimalNumeral value)
  then Throw (Error "invalid FixedNumber string value")
  else
    let d := Z.to_nat decimals in
    let padded := decimal ++ zeros (d - String.length decimal) in
    if negb (natOfDigits (slice d padded) =? 0)%Z
    then Throw (Error "too many decimals for format")
    else
      let magnitude :=
        (natOfDigits whole * 10 ^ decimals
         + natOfDigits (String.substring 0 d padded))%Z in
      let v := if negative then (- magnitude)%Z else magnitude in
      if (v <? - 2 ^ 511)%Z || (2 ^ 511 <=? v)%Z
      then Throw (Error "overflow")
      else Ok v.

Fixpoint trimTrailingZeros (s : string) : string :=
  match s with
  | EmptyString => EmptyString
  | String c s' =>
      match trimTrailingZeros s' with
      | EmptyString => if Ascii.eqb c "0" then EmptyString else String c EmptyString
      | t => String c t
      end
  end.

Fixpoint trimLeadingZeros (s : string) : string :=
  match s with
  | String "0" (String _ _ as s') => trimLeadingZeros s'
  | _ => s
  end.

Definition formatUnits (value : Z) (decimals : nat) : string :=
  let str := NilZero.string_of_uint (N.to_uint (Z.to_N (Z.abs value))) in
  let sign := if (value <? 0)%Z then "-" else "" in
  match decimals with
  | O => sign ++ str
  | _ =>
      let padded := zeros (decimals + 1 - String.length str) ++ str in
      let index := (String.length padded - decimals)%nat in
      let whole := trimLeadingZeros (String.substring 0 index padded) in
      let frac := trimTrailingZeros (slice index padded) in
      sign ++ whole ++ "."
           ++ (match frac with EmptyString => "0" | _ => frac end)
  end.

Definition formatEther (value : Z) : string := formatUnits value 18.

End EthersModel.

(** [x.toFixed(f)] for a binary64 of magnitude below [10 ^ 21]: the decimal
    rendering of the integer nearest to [x * 10 ^ f], ties upwards, with
    [f] fraction digits.  From [10 ^ 21] on JavaScript switches to the
    exponent notation, which is not modelled (the empty string). *)
Definition fixedDigits (n : Z) (f : nat) : string :=
  let body := NilZero.string_of_uint (N.to_uint (Z.to_N n)) in
  let padded := EthersModel.zeros (f + 1 - String.length body) ++ body in
  let index := (String.length padded - f)%nat in
  String.substring 0 index padded
    ++ (match f with O => "" | _ => "." ++ slice index padded end).

Definition toFixedModel (x : number) (f : nat) : string :=
  match x with
  | S754_nan => "NaN"
  | S754_infinity s => if s then "-Infinity" else "Infinity"
  | S754_zero _ => fixedDigits 0 f
  | S754_finite s m e =>
      let num := Zpos m * 2 ^ Z.max e 0 * 10 ^ Z.of_nat f in
      let den := 2 ^ Z.max (- e) 0 in
      if 10 ^ 21 * den <=? Zpos m * 2 ^ Z.max e 0 then ""
      else (if s then "-" else "")
             ++ fixedDigits ((2 * num + den) / (2 * den)) f
  end.

Definition modelRuntime : Runtime :=
  {| formatEther := EthersModel.formatEther;
     parseUnits := EthersModel.parseUnits;
     toFixed := toFixedModel |}.

(** A chain snapshot with the given raw candidate list and block height;
    the other contract reads answer with fixed values. *)
Definition snapshot (candidates : list string) (blockNumber : number) : Chain :=
  {| contract_getCandidates := candidates;
     contract_getCandidateCap := fun _ => 10000000000000000000000000;
     contract_getCandidateOwner :=
       fun _ => "0x00000000000000000000000000000000000000aa";
     contract_isCandidate := fun a => Array_includes a (map toLowerCase candidates);
     contract_getVoters := fun _ => [];
     provider_getBlockNumber := blockNumber |}.

(** The [i]-th of a family of pairwise distinct raw addresses, in the
    checksum-free [0x] form the contract interface returns. *)
Definition sampleAddress (i : nat) : string :=
  let digits := NilZero.string_of_uint (Nat.to_uint i) in
  "0x" ++ EthersModel.zeros (40 - String.length digits) ++ digits.

Definition sampleCandidates (n : nat) : list string :=
  map sampleAddress (seq 0 n).

(** ** Predicates on binary64 values used in the proofs *)

(** A positive finite value with mantissa below [2 ^ 53] and exponent in
    [[lo, hi]]. *)
Definition posFinite (lo hi : Z) (x : number) : Prop :=
  exists m e, x = S754_finite false m e /\ Zpos m < 2 ^ 53 /\ lo <= e <= hi.

Definition isPosFinite (x : number) : bool :=
  match x with S754_finite false _ _ => true | _ => false end.

(** Not carrying a minus sign (NaN allowed). *)
Definition notNegative (x : number) : bool :=
  match x with
  | S754_nan => true
  | S754_zero s | S754_infinity s | S754_finite s _ _ => negb s
  end.

(** Plus zero, or such a positive finite value with exponent at most [hi]. *)
Definition nonNegFinite (hi : Z) (x : number) : Prop :=
  x = S754_zero false
  \/ exists m e, x = S754_finite false m e /\ Zpos m < 2 ^ 53 /\ e <= hi.

(** The all-zero payload, the sentinel for no address. *)
Definition zeroPayload : string := "0000000000000000000000000000000000000000".

(** The bigint the source names [userYearlyRewards], before rendering. *)
Definition userYearlyRewards (stake totalStake : Z) (blocksPerYear : number)
  : result Z :=
  bpy <- toBigInt blocksPerYear ;;
  toBigInt (floor (mul (ofZ (bpy * rewardPerBlock))
                       (div (ofZ stake) (ofZ totalStake)))).

(** What the specification asks of the yearly figure: the exact integer
    floor of [blocksPerYear * rewardPerBlock * stake / totalNetworkStake]. *)
Definition exactYearly (stake totalStake bpy : Z) : Z :=
  bpy * rewardPerBlock * stake / totalStake.

(** [a] and [b] are within [k] roundings of each other: each is at most
    the other times [(1 + 2 ^ -52) ^ k]. *)
Definition approxRel (k : Z) (a b : Z) : Prop :=
  a * (2 ^ 52) ^ k <= b * (2 ^ 52 + 1) ^ k
  /\ b * (2 ^ 52) ^ k <= a * (2 ^ 52 + 1) ^ k.

(** The value of a positive finite binary64, scaled by [2 ^ 1100] so that
    it is an integer. *)
Definition scaledValue (x : number) : Z :=
  match x with
  | S754_finite false m e => Zpos m * 2 ^ (e + 1100)
  | _ => 0
  end.

(** A positive normal binary64: 53-bit mantissa, exponent in [[lo, hi]]. *)
Definition normalFinite (lo hi : Z) (x : number) : Prop :=
  exists m e, x = S754_finite false m e
              /\ 2 ^ 52 <= Zpos m < 2 ^ 53 /\ lo <= e <= hi.

(** ** Reference tables of the specification *)

(** The status table: [(false, _) -> resigned], [(true, true) -> active],
    [(true, false) -> proposed]. *)
Definition statusTable (isRegisteredCandidate isValidator : bool)
  : MasternodeStatus :=
  match isRegisteredCandidate, isValidator with
  | false, _ => resigned
  | true, true => active
  | true, false => proposed
  end.

(** Every entry of a list of raw addresses is accepted by the codec. *)
Definition allAccepted (l : list string) : bool := forallb accepted l.

(** ** utils/addressUtils.ts: the functions built on the two translations *)

(** The two values of the [format] argument, ['xdc'] and ['0x']. *)
Inductive AddressFormat : Type := format_xdc | format_0x.

Definition normalizeAddress (address : string) (format : AddressFormat)
  : result string :=
  match format with
  | format_xdc => toXdcAddress address
  | format_0x => toEthAddress address
  end.

(** [ethers.isAddress] is a library function; it is a parameter here.  It
    never throws.  The [catch] turns a [Throw] of [toEthAddress] into
    [false]. *)
Definition isValidXdcAddress (isAddress : string -> bool) (address : string)
  : bool :=
  if isFalsy address then false
  else
    match toEthAddress address with
    | Ok ethAddress => isAddress ethAddress
    | Throw _ => false
    end.

(** The white space of [String.prototype.trim] among the ASCII characters:
    tab, line feed, vertical tab, form feed, carriage return and space. *)
Definition isWhiteSpace (c : ascii) : bool :=
  ((9 <=? nat_of_ascii c)%nat && (nat_of_ascii c <=? 13)%nat)
  || (nat_of_ascii c =? 32)%nat.

Fixpoint trimStart (s : string) : string :=
  match s with
  | EmptyString => EmptyString
  | String c s' => if isWhiteSpace c then trimStart s' else s
  end.

Fixpoint trimEnd (s : string) : string :=
  match s with
  | EmptyString => EmptyString
  | String c s' =>
      match trimEnd s' with
      | EmptyString => if isWhiteSpace c then EmptyString else String c EmptyString
      | t => String c t
      end
  end.

(** [s.trim()] *)
Definition trim (s : string) : string := trimEnd (trimStart s).

(** [null] is [None]. *)
Definition parseAddress (isAddress : string -> bool) (input : string)
  : result (option string) :=
  if isFalsy input then Ok None
  else
    let trimmed := trim input in
    if isValidXdcAddress isAddress trimmed
    then a <- toXdcAddress trimmed ;; Ok (Some a)
    else Ok None.

(** [ethers.ZeroAddress] *)
Definition ZeroAddress : string := "0x0000000000000000000000000000000000000000".

Definition isZeroAddress (address : string) : bool :=
  match toEthAddress address with
  | Ok ethAddress => String.eqb ethAddress ZeroAddress
  | Throw _ => false
  end.

Definition getZeroAddress (format : AddressFormat) : result string :=
  normalizeAddress ZeroAddress format.

(** An index of [slice] resolved against the length: a negative index
    counts from the end, and the result is clamped to [[0, len]]. *)
Definition sliceIndex (len i : Z) : Z :=
  if (i <? 0)%Z then Z.max (len + i) 0 else Z.min i len.

(** [s.slice(start, end)] for integer arguments of either sign. *)
Definition String_slice (s : string) (start end_ : Z) : string :=
  let len := Z.of_nat (String.length s) in
  let from := sliceIndex len start in
  let to := sliceIndex len end_ in
  String.substring (Z.to_nat from) (Z.to_nat (to - from)) s.

(** [startChars] and [endChars] are integers (6 and 4 when omitted).  The
    second [slice] has one argument, so its end is the length. *)
Definition truncateAddress (address : string) (startChars endChars : Z)
  : result string :=
  xdcAddress <- toXdcAddress address ;;
  let len := Z.of_nat (String.length xdcAddress) in
  if (len <=? startChars + endChars)%Z then Ok xdcAddress
  else Ok (String_slice xdcAddress 0 startChars ++ "..."
           ++ String_slice xdcAddress (- endChars) len).

(** ** transport/explorerApi.ts: further methods of XdcMasternodeClient *)

(** The further reads of the validator contract.  A call that rejects is a
    [Throw]; [getVoterInfo] is the only method that catches one. *)
Record ValidatorReads : Type := {
  contract_getVoterCap : string -> string -> result Z;
  contract_getWithdrawBlockNumbers : list Z;
  contract_getWithdrawCap : number -> Z;
  contract_candidateWithdrawDelay : Z
}.

(** [totalVoted] holds the bigint whose decimal rendering the source
    stores. *)
Record VoterInfo : Type := {
  vi_address : string;
  vi_votedFor : list string;
  vi_totalVoted : Z;
  vi_totalVotedXdc : string;
  vi_rewards : string;
  vi_rewardsXdc : string
}.

(** One turn of the loop over the candidates: the [try] block, with its
    empty [catch]. *)
Definition voteStep (v : ValidatorReads) (ethAddress : string)
    (acc : list string * Z) (candidate : string) : list string * Z :=
  match (ce <- toEthAddress candidate ;; contract_getVoterCap v ce ethAddress) with
  | Ok stake =>
      if 0 <? stake then ((fst acc ++ [candidate])%list, snd acc + stake)
      else acc
  | Throw _ => acc
  end.

Definition getVoterInfo (rt : Runtime) (c : Chain) (v : ValidatorReads)
    (voterAddress : string) : result VoterInfo :=
  ethAddress <- toEthAddress voterAddress ;;
  candidates <- getCandidates c ;;
  let '(votedFor, totalVoted) :=
    fold_left (voteStep v ethAddress) candidates ([], 0) in
  address' <- toXdcAddress voterAddress ;;
  Ok {| vi_address := address';
        vi_votedFor := votedFor;
        vi_totalVoted := totalVoted;
        vi_totalVotedXdc := weiToXdc rt totalVoted;
        vi_rewards := "0";
        vi_rewardsXdc := "0" |}.

Record WithdrawalInfo : Type := {
  wi_blockNumber : number;
  wi_amount : Z;
  wi_amountXdc : string;
  wi_available : bool
}.

(** [x >= y] on numbers: false as soon as an operand is NaN. *)
Definition geq (x y : number) : bool :=
  match SFcompare x y with
  | Some Gt | Some Eq => true
  | _ => false
  end.

(** The loop of [getWithdrawals] over the block numbers that are left. *)
Fixpoint withdrawalsFrom (rt : Runtime) (v : ValidatorReads)
    (currentBlock withdrawDelay : number) (blockNumbers : list Z)
  : list WithdrawalInfo :=
  match blockNumbers with
  | [] => []
  | b :: rest =>
      let blockNum := ofZ b in
      let amount := contract_getWithdrawCap v blockNum in
      let later := withdrawalsFrom rt v currentBlock withdrawDelay rest in
      if 0 <? amount
      then {| wi_blockNumber := blockNum;
              wi_amount := amount;
              wi_amountXdc := weiToXdc rt amount;
              wi_available := geq currentBlock (add blockNum withdrawDelay) |}
           :: later
      else later
  end.

(** The address argument is not used by the source. *)
Definition getWithdrawals (rt : Runtime) (c : Chain) (v : ValidatorReads)
    (_address : string) : list WithdrawalInfo :=
  let currentBlock := provider_getBlockNumber c in
  let withdrawDelay := ofZ (contract_candidateWithdrawDelay v) in
  withdrawalsFrom rt v currentBlock withdrawDelay
    (contract_getWithdrawBlockNumbers v).

(** [a.slice(0, end)] for an integer [end] of either sign. *)
Definition Array_slice_to {A : Type} (end_ : Z) (a : list A) : list A :=
  firstn (Z.to_nat (sliceIndex (Z.of_nat (List.length a)) end_)) a.

(** [a.sort(compareFn)].  The sort of the language is stable, so for a
    comparator that orders consistently its result is determined; it is
    computed here by insertion, each element going before the first
    element it does not follow. *)
Fixpoint insertBy {A : Type} (compareFn : A -> A -> Z) (x : A) (l : list A)
  : list A :=
  match l with
  | [] => [x]
  | y :: l' =>
      if compareFn x y <=? 0 then x :: l else y :: insertBy compareFn x l'
  end.

Definition Array_sort {A : Type} (compareFn : A -> A -> Z) (l : list A)
  : list A :=
  fold_right (insertBy compareFn) [] l.

(** The comparator of [getMasternodesList]: larger stake first. *)
Definition byStakeDescending (a b : MasternodeInfo) : Z :=
  if mi_stake b <? mi_stake a then -1
  else if mi_stake a <? mi_stake b then 1
  else 0.

(** [limit] is an integer (108 when omitted). *)
Definition getMasternodesList (rt : Runtime) (c : Chain) (limit : Z)
  : result (list MasternodeInfo) :=
  candidates <- getCandidates c ;;
  let limitedCandidates := Array_slice_to limit candidates in
  masternodes <- mapM (getMasternodeInfo rt c) limitedCandidates ;;
  Ok (Array_sort byStakeDescending masternodes).

(** The stake [getVoterInfo] counts for a candidate: the answer of the
    contract when it is positive, nothing otherwise. *)
Definition countedStake (v : ValidatorReads) (ethAddress candidate : string)
  : Z :=
  match (ce <- toEthAddress candidate ;; contract_getVoterCap v ce ethAddress) with
  | Ok stake => if 0 <? stake then stake else 0
  | Throw _ => 0
  end.

Definition isCandidate (c : Chain) (address : string) : result bool :=
  ethAddress <- toEthAddress address ;;
  Ok (contract_isCandidate c ethAddress).

(** ** actions/masternode/masternode.operations.ts: the getEpochInfo case *)

Record EpochInfoJson : Type := {
  json_currentEpoch : number;
  json_startBlock : number;
  json_endBlock : number;
  json_blocksPerEpoch : number;
  json_currentBlock : number;
  json_blocksRemaining : number;
  json_validatorCount : nat;
  json_rewards : string
}.

(** The operation reads the block height twice: once inside
    [masternodeClient.getEpochInfo()], answered by [c], and once more
    afterwards, answered by [currentBlock]; the chain may have grown in
    between. *)
Definition getEpochInfoOperation (rt : Runtime) (c : Chain)
    (currentBlock : number) : result EpochInfoJson :=
  epochInfo <- getEpochInfo rt c None ;;
  Ok {| json_currentEpoch := ei_number epochInfo;
        json_startBlock := ei_startBlock epochInfo;
        json_endBlock := ei_endBlock epochInfo;
        json_blocksPerEpoch := ofZ 900;
        json_currentBlock := currentBlock;
        json_blocksRemaining := sub (ei_endBlock epochInfo) currentBlock;
        json_validatorCount := List.length (ei_validatorSet epochInfo);
        json_rewards := ei_rewardsXdc epochInfo |}.

(** ** transport/explorerApi.ts: the formatting methods of XdcExplorerApi *)

(** [contractAddress] is optional: [None] when the explorer leaves it
    out. *)
Record ExplorerTransaction : Type := {
  tx_hash : string;
  tx_blockNumber : string;
  tx_timeStamp : string;
  tx_from : string;
  tx_to : string;
  tx_value : string;
  tx_gas : string;
  tx_gasPrice : string;
  tx_gasUsed : string;
  tx_input : string;
  tx_isError : string;
  tx_txreceipt_status : string;
  tx_contractAddress : option string;
  tx_confirmations : string;
  tx_nonce : string
}.

Record ExplorerTokenTransfer : Type := {
  tt_hash : string;
  tt_blockNumber : string;
  tt_timeStamp : string;
  tt_from : string;
  tt_to : string;
  tt_value : string;
  tt_tokenName : string;
  tt_tokenSymbol : string;
  tt_tokenDecimal : string;
  tt_contractAddress : string;
  tt_gas : string;
  tt_gasPrice : string;
  tt_gasUsed : string
}.

(** [x ? toXdcAddress(x) : x] *)
Definition toXdcIfTruthy (x : string) : result string :=
  if isFalsy x then Ok x else toXdcAddress x.

(** The arrow function mapped by [formatTransactions]: the spread copies
    every field, then the three address fields are overwritten, in the
    order of the literal. *)
Definition formatTransaction (tx : ExplorerTransaction)
  : result ExplorerTransaction :=
  from' <- toXdcAddress (tx_from tx) ;;
  to' <- toXdcIfTruthy (tx_to tx) ;;
  contractAddress' <-
    match tx_contractAddress tx with
    | Some a => a' <- toXdcIfTruthy a ;; Ok (Some a')
    | None => Ok None
    end ;;
  Ok {| tx_hash := tx_hash tx;
        tx_blockNumber := tx_blockNumber tx;
        tx_timeStamp := tx_timeStamp tx;
        tx_from := from';
        tx_to := to';
        tx_value := tx_value tx;
        tx_gas := tx_gas tx;
        tx_gasPrice := tx_gasPrice tx;
        tx_gasUsed := tx_gasUsed tx;
        tx_input := tx_input tx;
        tx_isError := tx_isError tx;
        tx_txreceipt_status := tx_txreceipt_status tx;
        tx_contractAddress := contractAddress';
        tx_confirmations := tx_confirmations tx;
        tx_nonce := tx_nonce tx |}.

Definition formatTransactions (transactions : list ExplorerTransaction)
  : result (list ExplorerTransaction) :=
  mapM formatTransaction transactions.

Definition formatTokenTransfer (tx : ExplorerTokenTransfer)
  : result ExplorerTokenTransfer :=
  from' <- toXdcAddress (tt_from tx) ;;
  to' <- toXdcAddress (tt_to tx) ;;
  contractAddress' <- toXdcAddress (tt_contractAddress tx) ;;
  Ok {| tt_hash := tt_hash tx;
        tt_blockNumber := tt_blockNumber tx;
        tt_timeStamp := tt_timeStamp tx;
        tt_from := from';
        tt_to := to';
        tt_value := tt_value tx;
        tt_tokenName := tt_tokenName tx;
        tt_tokenSymbol := tt_tokenSymbol tx;
        tt_tokenDecimal := tt_tokenDecimal tx;
        tt_contractAddress := contractAddress';
        tt_gas := tt_gas tx;
        tt_gasPrice := tt_gasPrice tx;
        tt_gasUsed := tt_gasUsed tx |}.

Definition formatTokenTransfers (transfers : list ExplorerTokenTransfer)
  : result (list ExplorerTokenTransfer) :=
  mapM formatTokenTransfer transfers.

(** A transaction with its three address fields replaced. *)
Definition withAddresses (tx : ExplorerTransaction)
    (from' to' : string) (contractAddress' : option string)
  : ExplorerTransaction :=
  {| tx_hash := tx_hash tx;
     tx_blockNumber := tx_blockNumber tx;
     tx_timeStamp := tx_timeStamp tx;
     tx_from := from';
     tx_to := to';
     tx_value := tx_value tx;
     tx_gas := tx_gas tx;
     tx_gasPrice := tx_gasPrice tx;
     tx_gasUsed := tx_gasUsed tx;
     tx_input := tx_input tx;
     tx_isError := tx_isError tx;
     tx_txreceipt_status := tx_txreceipt_status tx;
     tx_contractAddress := contractAddress';
     tx_confirmations := tx_confirmations tx;
     tx_nonce := tx_nonce tx |}.

(** The format-A spelling of an address field that may be empty. *)
Definition xdcOrEmpty (x : string) : string :=
  if isFalsy x then x else ("xdc" ++ payloadOf x)%string.

(** What [formatTransaction] needs of a transaction to return. *)
Definition formattable (tx : ExplorerTransaction) : bool :=
  accepted (tx_from tx)
  && (isFalsy (tx_to tx) || accepted (tx_to tx))
  && match tx_contractAddress tx with
     | Some a => isFalsy a || accepted a
     | None => true
     end.

(** ** utils/unitConverter.ts: further functions *)

(** [ethers.formatUnits] is a parameter, like the other library
    functions; it throws like [parseUnits] when the unit is not a
    number. *)
Definition fromWei (rt : Runtime) (formatUnits : Z -> Z -> string)
    (weiValue : Z) (unit : string) : result string :=
  let unitLower := toLowerCase unit in
  if String.eqb unitLower "xdc" then Ok (formatEther rt weiValue)
  else
    match decimalsOrDefault unitLower with
    | Some d => Ok (formatUnits weiValue d)
    | None => Throw invalidUnit
    end.

Definition compareBigInt (a b : Z) : Z :=
  if a <? b then -1
  else if b <? a then 1
  else 0.

(** The quotient of two bigints truncates; [Number(percentage) / 100] is a
    binary64 division. *)
Definition calculatePercentage (rt : Runtime) (value total : Z) : string :=
  if total =? 0 then "0"
  else
    let percentage := Z.quot (value * 10000) total in
    toFixed rt (div (ofZ percentage) (ofZ 100)) 2.

(** ** XDC Trade Finance Utilities *)

Inductive SupplyChainEvent : Type :=
| ORDER_PLACED
| PRODUCTION_STARTED
| PRODUCTION_COMPLETED
| QUALITY_INSPECTION
| PACKED
| SHIPPED
| IN_TRANSIT
| CUSTOMS_CLEARANCE
| ARRIVED_AT_PORT
| DELIVERED
| RECEIVED.

(** [===] on the members of the enumeration. *)
Definition SupplyChainEvent_eqb (a b : SupplyChainEvent) : bool :=
  match a, b with
  | ORDER_PLACED, ORDER_PLACED
  | PRODUCTION_STARTED, PRODUCTION_STARTED
  | PRODUCTION_COMPLETED, PRODUCTION_COMPLETED
  | QUALITY_INSPECTION, QUALITY_INSPECTION
  | PACKED, PACKED
  | SHIPPED, SHIPPED
  | IN_TRANSIT, IN_TRANSIT
  | CUSTOMS_CLEARANCE, CUSTOMS_CLEARANCE
  | ARRIVED_AT_PORT, ARRIVED_AT_PORT
  | DELIVERED, DELIVERED
  | RECEIVED, RECEIVED => true
  | _, _ => false
  end.

Definition validTransitions (currentStatus : SupplyChainEvent)
  : list SupplyChainEvent :=
  match currentStatus with
  | ORDER_PLACED => [PRODUCTION_STARTED]
  | PRODUCTION_STARTED => [PRODUCTION_COMPLETED]
  | PRODUCTION_COMPLETED => [QUALITY_INSPECTION; PACKED]
  | QUALITY_INSPECTION => [PACKED; PRODUCTION_STARTED]
  | PACKED => [SHIPPED]
  | SHIPPED => [IN_TRANSIT]
  | IN_TRANSIT => [CUSTOMS_CLEARANCE; ARRIVED_AT_PORT]
  | CUSTOMS_CLEARANCE => [ARRIVED_AT_PORT; IN_TRANSIT]
  | ARRIVED_AT_PORT => [DELIVERED]
  | DELIVERED => [RECEIVED]
  | RECEIVED => []
  end.

Definition isValidStatusTransition (currentStatus newStatus : SupplyChainEvent)
  : bool :=
  existsb (SupplyChainEvent_eqb newStatus) (validTransitions currentStatus).

(** The position of an event in the declaration of the enumeration. *)
Definition eventRank (e : SupplyChainEvent) : Z :=
  match e with
  | ORDER_PLACED => 0
  | PRODUCTION_STARTED => 1
  | PRODUCTION_COMPLETED => 2
  | QUALITY_INSPECTION => 3
  | PACKED => 4
  | SHIPPED => 5
  | IN_TRANSIT => 6
  | CUSTOMS_CLEARANCE => 7
  | ARRIVED_AT_PORT => 8
  | DELIVERED => 9
  | RECEIVED => 10
  end.

(** A chain of valid transitions from one event to another. *)
Inductive reaches : SupplyChainEvent -> SupplyChainEvent -> Prop :=
| reaches_here (e : SupplyChainEvent) : reaches e e
| reaches_step (a b d : SupplyChainEvent) :
    isValidStatusTransition a b = true -> reaches b d -> reaches a d.

(** The fields [parseISO20022MessageType] returns. *)
Record MessageInfo : Type := {
  msg_domain : string;
  msg_messageId : string;
  msg_description : string
}.

(** The table [messageInfo]: domain and description by message type. *)
Definition messageInfo : list (string * (string * string)) :=
  [ ("tsmt.001", ("Trade Services", "Baseline Report"));
    ("tsmt.002", ("Trade Services", "Forward Data Set Submission"));
    ("tsmt.003", ("Trade Services", "Data Set Match Report"));
    ("tsmt.012", ("Trade Services", "Status Report"));
    ("trea.001", ("Treasury", "LC Issuance"));
    ("trea.002", ("Treasury", "LC Amendment"));
    ("pain.001", ("Payments Initiation", "Customer Credit Transfer"));
    ("pacs.008", ("Payments Clearing", "FI Credit Transfer"));
    ("camt.053", ("Cash Management", "Bank Statement")) ].

Fixpoint lookupInfo (k : string) (tbl : list (string * (string * string)))
  : option (string * string) :=
  match tbl with
  | [] => None
  | (k', v) :: tbl' => if String.eqb k k' then Some v else lookupInfo k tbl'
  end.

(** [info?.domain || 'Unknown']: no entry of the table has an empty
    field, so only a missing entry falls back. *)
Definition parseISO20022MessageType (messageType : string) : MessageInfo :=
  let info := lookupInfo (toLowerCase messageType) messageInfo in
  {| msg_domain := match info with Some (d, _) => d | None => "Unknown" end;
     msg_messageId := messageType;
     msg_description :=
       match info with Some (_, d) => d | None => "Unknown message type" end |}.

(** The values of the enumeration [ISO20022MessageType]. *)
Definition ISO20022MessageType : list string :=
  [ "tsmt.001"; "tsmt.002"; "tsmt.003"; "tsmt.012";
    "trea.001"; "trea.002"; "trea.003";
    "bgrt.001"; "bgrt.002";
    "pain.001"; "pain.002"; "pacs.008"; "camt.053" ].

(** *** Document hashes and reference numbers *)

Inductive HashAlgorithm : Type := SHA256 | KECCAK256.

(** [ethers.keccak256] and [ethers.sha256], each applied to the UTF-8
    bytes of the text, are parameters.  [content] is the text, or the text
    a buffer converts to. *)
Definition generateDocumentHash (keccak256 sha256 : string -> string)
    (content : string) (algorithm : HashAlgorithm) : string :=
  match algorithm with
  | KECCAK256 => keccak256 content
  | SHA256 => sha256 content
  end.

Definition verifyDocumentHash (keccak256 sha256 : string -> string)
    (content hash : string) (algorithm : HashAlgorithm) : bool :=
  let computedHash := generateDocumentHash keccak256 sha256 content algorithm in
  String.eqb (toLowerCase computedHash) (toLowerCase hash).

Definition isLower (c : ascii) : bool :=
  (97 <=? nat_of_ascii c)%nat && (nat_of_ascii c <=? 122)%nat.

Definition upperChar (c : ascii) : ascii :=
  if isLower c then ascii_of_nat (nat_of_ascii c - 32) else c.

(** [s.toUpperCase()] *)
Fixpoint toUpperCase (s : string) : string :=
  match s with
  | EmptyString => EmptyString
  | String c s' => String (upperChar c) (toUpperCase s')
  end.

(** [n.toString()] for a safe integer [n], one of magnitude below [2 ^ 53]:
    there the number is the integer itself and its rendering is the plain
    decimal one.  Larger integers are not all numbers, and the rendering of
    those that are is the shortest one that reads back, not the exact
    one: the definition is used for safe integers only. *)
Definition numberToString (z : Z) : string :=
  ((if (z <? 0)%Z then "-" else "")
   ++ NilZero.string_of_uint (N.to_uint (Z.to_N (Z.abs z))))%string.

(** [s.padStart(n, '0')] *)
Definition padStart0 (n : nat) (s : string) : string :=
  (EthersModel.zeros (n - String.length s) ++ s)%string.

(** [year] and [sequence] are safe integers. *)
Definition generateLCReference (bankCode : string) (year sequence : Z)
  : string :=
  let paddedSequence := padStart0 6 (numberToString sequence) in
  (toUpperCase bankCode ++ "-LC-" ++ numberToString year ++ "-"
   ++ paddedSequence)%string.

(** ** Chains used to state the properties of the validator set *)

(** The contract interface decodes every address of an [address[]] answer
    to the tag [0x] followed by 40 hexadecimal digits; this is the part of
    that form the membership test depends on. *)
Definition tagged0x (s : string) : bool := startsWith "0x" (toLowerCase s).

(** The same chain with other stakes. *)
Definition withCandidateCap (c : Chain) (cap : string -> Z) : Chain :=
  {| contract_getCandidates := contract_getCandidates c;
     contract_getCandidateCap := cap;
     contract_getCandidateOwner := contract_getCandidateOwner c;
     contract_isCandidate := contract_isCandidate c;
     contract_getVoters := contract_getVoters c;
     provider_getBlockNumber := provider_getBlockNumber c |}.

(** The same chain after every candidate has resigned while the candidate
    list still holds the old entries. *)
Definition allResigned (c : Chain) : Chain :=
  {| contract_getCandidates := contract_getCandidates c;
     contract_getCandidateCap := contract_getCandidateCap c;
     contract_getCandidateOwner := contract_getCandidateOwner c;
     contract_isCandidate := fun _ => false;
     contract_getVoters := contract_getVoters c;
     provider_getBlockNumber := provider_getBlockNumber c |}.

(** ** Proof automation *)

(** Names the two constants of [approxRel] and records their signs. *)
Ltac approx_start :=
  unfold approxRel in *;
  set (D := (2 ^ 52)%Z) in *;
  assert (HD : (0 < D)%Z) by reflexivity;
  set (N := (D + 1)%Z) in *;
  assert (HN : (0 < N)%Z) by reflexivity.

(** * Properties *)

Example toXdcAddress_test1 :
  toXdcAddress "0x1234567890123456789012345678901234567890"
  = Ok "xdc1234567890123456789012345678901234567890".
Proof. reflexivity. Qed.

Example toEthAddress_test1 :
  toEthAddress "xdc1234567890123456789012345678901234567890"
  = Ok "0x1234567890123456789012345678901234567890".
Proof. reflexivity. Qed.

Example normalizeAddress_test_upper :
  toXdcAddress "XDC1234567890ABCDEF1234567890ABCDEF12345678"
  = Ok "xdc1234567890abcdef1234567890abcdef12345678".
Proof. reflexivity. Qed.

(** ** Strings *)

Arguments Ascii.eqb : simpl never.

Section StringFacts.

Local Open Scope string_scope.

Lemma lowerChar_idempotent (c : ascii) : lowerChar (lowerChar c) = lowerChar c.
Proof.
  destruct c as [[] [] [] [] [] [] [] []]; reflexivity.
Qed.

Lemma toLowerCase_idempotent (s : string) :
  toLowerCase (toLowerCase s) = toLowerCase s.
Proof.
  induction s as [|c s IH]; simpl; [reflexivity|].
  now rewrite lowerChar_idempotent, IH.
Qed.

Lemma toLowerCase_length (s : string) :
  String.length (toLowerCase s) = String.length s.
Proof.
  induction s as [|c s IH]; simpl; congruence.
Qed.

Lemma toLowerCase_app (s t : string) :
  toLowerCase (s ++ t) = toLowerCase s ++ toLowerCase t.
Proof.
  induction s as [|c s IH]; simpl; congruence.
Qed.

Lemma toLowerCase_slice (n : nat) (s : string) :
  toLowerCase (slice n s) = slice n (toLowerCase s).
Proof.
  revert s; induction n as [|n IH]; intros [|c s]; simpl; auto.
Qed.

Lemma slice_length (n : nat) (s : string) :
  String.length (slice n s) = (String.length s - n)%nat.
Proof.
  revert s; induction n as [|n IH]; intros [|c s]; simpl; auto; lia.
Qed.

Lemma isFalsy_toLowerCase (s : string) :
  isFalsy (toLowerCase s) = isFalsy s.
Proof. destruct s; reflexivity. Qed.

(** No hexadecimal character lowercases to the letter x. *)
Lemma isHexChar_not_x (c : ascii) :
  isHexChar c = true -> lowerChar c <> "x"%char.
Proof.
  destruct c as [[] [] [] [] [] [] [] []]; simpl; discriminate.
Qed.

Lemma isHexChar_lowerChar (c : ascii) :
  isHexChar (lowerChar c) = isHexChar c.
Proof.
  destruct c as [[] [] [] [] [] [] [] []]; reflexivity.
Qed.

Lemma allHex_toLowerCase (s : string) :
  allHex (toLowerCase s) = allHex s.
Proof.
  induction s as [|c s IH]; simpl; [reflexivity|].
  now rewrite isHexChar_lowerChar, IH.
Qed.

Lemma startsWith_app_inv (p s : string) :
  startsWith p s = true -> s = p ++ slice (String.length p) s.
Proof.
  revert s; induction p as [|a p IH]; intros [|b s]; simpl;
    try discriminate; try reflexivity.
  intros H. apply andb_true_iff in H as [Hab Hps].
  apply Ascii.eqb_eq in Hab as ->. f_equal. now apply IH.
Qed.

Lemma startsWith_xdc_inv (s : string) :
  startsWith "xdc" s = true -> s = "xdc" ++ slice 3 s.
Proof. apply (startsWith_app_inv "xdc"). Qed.

Lemma startsWith_0x_inv (s : string) :
  startsWith "0x" s = true -> s = "0x" ++ slice 2 s.
Proof. apply (startsWith_app_inv "0x"). Qed.

Lemma startsWith_xdc_app (s : string) : startsWith "xdc" ("xdc" ++ s) = true.
Proof. reflexivity. Qed.

Lemma startsWith_0x_app (s : string) : startsWith "0x" ("0x" ++ s) = true.
Proof. reflexivity. Qed.

Lemma startsWith_0x_xdc (s : string) : startsWith "0x" ("xdc" ++ s) = false.
Proof. reflexivity. Qed.

Lemma startsWith_xdc_0x (s : string) : startsWith "xdc" ("0x" ++ s) = false.
Proof. reflexivity. Qed.

(** A payload carries neither tag: its first two characters are
    hexadecimal and x is not. *)
Lemma payload_no_tag (p : string) :
  isPayload p = true ->
  startsWith "xdc" (toLowerCase p) = false
  /\ startsWith "0x" (toLowerCase p) = false
  /\ isFalsy p = false
  /\ String.length (toLowerCase p) = 40%nat.
Proof.
  unfold isPayload. intros H.
  apply andb_true_iff in H as [Hlen Hhex].
  apply Nat.eqb_eq in Hlen.
  rewrite toLowerCase_length.
  destruct p as [|a [|b p]]; simpl in *; try discriminate.
  apply andb_true_iff in Hhex as [Ha Hhex].
  apply andb_true_iff in Hhex as [Hb _].
  apply isHexChar_not_x in Ha, Hb.
  apply Ascii.eqb_neq in Ha. rewrite Ascii.eqb_sym in Ha.
  apply Ascii.eqb_neq in Hb. rewrite Ascii.eqb_sym in Hb.
  rewrite Ha, Hb. now rewrite andb_false_r.
Qed.

End StringFacts.

(** ** The address codec on its accepted inputs *)

Lemma toXdcAddress_accepted (s : string) :
  accepted s = true -> toXdcAddress s = Ok ("xdc" ++ payloadOf s).
Proof.
  unfold accepted, toXdcAddress, payloadOf.
  destruct (isFalsy s); cbn [negb andb]; [discriminate|].
  destruct (startsWith "xdc" (toLowerCase s)) eqn:Hx.
  - intros _. f_equal. now apply startsWith_xdc_inv.
  - destruct (startsWith "0x" (toLowerCase s)) eqn:H0; [reflexivity|].
    cbn [orb]. now intros ->.
Qed.

Lemma toEthAddress_accepted (s : string) :
  accepted s = true -> toEthAddress s = Ok ("0x" ++ payloadOf s).
Proof.
  unfold accepted, toEthAddress, payloadOf.
  destruct (isFalsy s); cbn [negb andb]; [discriminate|].
  destruct (startsWith "0x" (toLowerCase s)) eqn:H0.
  - intros _. apply startsWith_0x_inv in H0 as E.
    destruct (startsWith "xdc" (toLowerCase s)) eqn:Hx.
    + rewrite E in Hx. discriminate.
    + f_equal. exact E.
  - destruct (startsWith "xdc" (toLowerCase s)) eqn:Hx; [reflexivity|].
    cbn [orb]. now intros ->.
Qed.

Lemma toXdcAddress_rejected (s : string) :
  accepted s = false ->
  toXdcAddress s = Throw (Error (if isFalsy s then "Address is required"
                                 else "Invalid address format: " ++ s)).
Proof.
  unfold accepted, toXdcAddress.
  destruct (isFalsy s); cbn [negb andb]; [reflexivity|].
  destruct (startsWith "xdc" _); [discriminate|].
  destruct (startsWith "0x" _); [discriminate|].
  cbn [orb]. now intros ->.
Qed.

Lemma toEthAddress_rejected (s : string) :
  accepted s = false ->
  toEthAddress s = Throw (Error (if isFalsy s then "Address is required"
                                 else "Invalid address format: " ++ s)).
Proof.
  unfold accepted, toEthAddress.
  destruct (isFalsy s); cbn [negb andb]; [reflexivity|].
  destruct (startsWith "xdc" _); destruct (startsWith "0x" _);
    try discriminate.
  cbn [orb]. now intros ->.
Qed.

Lemma isKnownForm_accepted (s : string) :
  isKnownForm s = true -> accepted s = true.
Proof.
  unfold isKnownForm, accepted, isFormatA, isFormatB.
  intros H.
  apply orb_true_iff in H as [H|H]; [apply orb_true_iff in H as [H|H]|].
  - apply andb_true_iff in H as [H _]. rewrite H.
    destruct s; [discriminate|reflexivity].
  - apply andb_true_iff in H as [H _]. rewrite H.
    destruct s; [discriminate|]. simpl. now rewrite orb_true_r.
  - apply payload_no_tag in H as (_ & _ & -> & ->). simpl.
    now rewrite !orb_true_r.
Qed.

(** The payload of a string in a known form is 40 lowercase hex characters. *)
Lemma payloadOf_known (s : string) :
  isKnownForm s = true -> isPayload (payloadOf s) = true.
Proof.
  unfold isKnownForm, isFormatA, isFormatB, payloadOf.
  intros H.
  apply orb_true_iff in H as [H|H]; [apply orb_true_iff in H as [H|H]|].
  - apply andb_true_iff in H as [Hx Hp]. rewrite Hx.
    unfold isPayload in *.
    now rewrite <- toLowerCase_slice, toLowerCase_length, allHex_toLowerCase.
  - apply andb_true_iff in H as [H0 Hp]. rewrite H0.
    apply startsWith_0x_inv in H0 as E.
    destruct (startsWith "xdc" (toLowerCase s)) eqn:Hx;
      [rewrite E in Hx; discriminate|].
    unfold isPayload in *.
    now rewrite <- toLowerCase_slice, toLowerCase_length, allHex_toLowerCase.
  - destruct (payload_no_tag s H) as (-> & -> & _ & _).
    unfold isPayload in *.
    now rewrite toLowerCase_length, allHex_toLowerCase.
Qed.

Lemma toLowerCase_payloadOf (s : string) :
  toLowerCase (payloadOf s) = payloadOf s.
Proof.
  unfold payloadOf.
  destruct (startsWith "xdc" _); [|destruct (startsWith "0x" _)];
    now rewrite ?toLowerCase_slice, toLowerCase_idempotent.
Qed.

Lemma payloadOf_tagged (p : string) :
  payloadOf ("xdc" ++ p) = toLowerCase p /\ payloadOf ("0x" ++ p) = toLowerCase p.
Proof. split; reflexivity. Qed.

Lemma returns_toEthAddress (s : string) :
  returns (toEthAddress s) = accepted s.
Proof.
  destruct (accepted s) eqn:H.
  - now rewrite toEthAddress_accepted.
  - now rewrite toEthAddress_rejected.
Qed.

Lemma returns_toXdcAddress (s : string) :
  returns (toXdcAddress s) = accepted s.
Proof.
  destruct (accepted s) eqn:H.
  - now rewrite toXdcAddress_accepted.
  - now rewrite toXdcAddress_rejected.
Qed.

(** [addressesEqual] in closed form: both operands are accepted by the
    translation and carry the same lowercased remainder. *)
Lemma addressesEqual_closed_form (a b : string) :
  addressesEqual a b
  = accepted a && accepted b && String.eqb (payloadOf a) (payloadOf b).
Proof.
  unfold addressesEqual.
  destruct (isFalsy a) eqn:Fa.
  { unfold accepted. now rewrite Fa. }
  destruct (isFalsy b) eqn:Fb.
  { unfold accepted at 2. rewrite Fb. cbn [orb negb andb].
    now rewrite andb_false_r. }
  cbn [orb].
  destruct (accepted a) eqn:Ha.
  2:{ now rewrite toEthAddress_rejected. }
  rewrite (toEthAddress_accepted a Ha).
  destruct (accepted b) eqn:Hb.
  2:{ now rewrite toEthAddress_rejected. }
  rewrite (toEthAddress_accepted b Hb).
  rewrite !toLowerCase_app, !toLowerCase_payloadOf. reflexivity.
Qed.

(** *** The claims on the address codec *)

(** The results of the two translations are two spellings of one address:
    as strings they differ in the tag. *)
Example translations_differ_in_tag :
  toXdcAddress zeroPayload = Ok ("xdc" ++ zeroPayload)
  /\ (a <- toXdcAddress zeroPayload ;; toEthAddress a)
     = Ok ("0x" ++ zeroPayload).
Proof. split; reflexivity. Qed.

Lemma isPayload_lowercased (p : string) :
  isPayload p = true -> isPayload (toLowerCase p) = true.
Proof.
  intros Hp.
  assert (K : isKnownForm p = true)
    by (unfold isKnownForm; rewrite Hp; apply orb_true_r).
  pose proof (payloadOf_known p K) as H. revert H. unfold payloadOf.
  now destruct (payload_no_tag p Hp) as (-> & -> & _ & _).
Qed.

(** C4: for every 40-hex payload [p], both translations return: [a], the
    format-A string of [p], and [b], the translation of [a] to format B.
    The two are the same address: [addressesEqual], the equality of the
    codec, identifies [b] with [a], and translating [b] to format A gives
    the string [a] back.  [a] is in format A and [b] in format B, and the
    40-character payload cut out of [a] is the one cut out of [b], namely
    the lowercased [p]. *)
Theorem roundtrip_payload (p : string) :
  isPayload p = true ->
  exists a b,
    toXdcAddress p = Ok a
    /\ toEthAddress a = Ok b
    /\ addressesEqual b a = true
    /\ toXdcAddress b = Ok a
    /\ isFormatA a = true /\ isFormatB b = true
    /\ a = "xdc" ++ toLowerCase p /\ b = "0x" ++ toLowerCase p
    /\ slice 3 a = slice 2 b
    /\ payloadOf a = payloadOf b
    /\ payloadOf a = toLowerCase p
    /\ isPayload (payloadOf a) = true.
Proof.
  intros Hp.
  assert (HA : toXdcAddress p = Ok ("xdc" ++ toLowerCase p)).
  { rewrite toXdcAddress_accepted
      by (apply isKnownForm_accepted; unfold isKnownForm;
          rewrite Hp; apply orb_true_r).
    unfold payloadOf.
    now destruct (payload_no_tag p Hp) as (-> & -> & _ & _). }
  assert (HB : toEthAddress ("xdc" ++ toLowerCase p) = Ok ("0x" ++ toLowerCase p)).
  { rewrite toEthAddress_accepted by reflexivity.
    destruct (payloadOf_tagged (toLowerCase p)) as [-> _].
    now rewrite toLowerCase_idempotent. }
  assert (HC : toXdcAddress ("0x" ++ toLowerCase p) = Ok ("xdc" ++ toLowerCase p)).
  { rewrite toXdcAddress_accepted by reflexivity.
    destruct (payloadOf_tagged (toLowerCase p)) as [_ ->].
    now rewrite toLowerCase_idempotent. }
  pose proof (isPayload_lowercased p Hp) as Hl.
  exists ("xdc" ++ toLowerCase p), ("0x" ++ toLowerCase p).
  destruct (payloadOf_tagged (toLowerCase p)) as [EA EB].
  rewrite toLowerCase_idempotent in EA, EB.
  split; [exact HA|]. split; [exact HB|]. split.
  { rewrite addressesEqual_closed_form, EA, EB.
    now rewrite String.eqb_refl. }
  split; [exact HC|]. split.
  { unfold isFormatA. rewrite toLowerCase_app.
    change (slice 3 ("xdc" ++ toLowerCase p)) with (toLowerCase p).
    now rewrite Hl. }
  split.
  { unfold isFormatB. rewrite toLowerCase_app.
    change (slice 2 ("0x" ++ toLowerCase p)) with (toLowerCase p).
    now rewrite Hl. }
  rewrite EA, EB. repeat split. exact Hl.
Qed.

Lemma roundtrip_payload_witness :
  exists a b,
    toXdcAddress "ABCDEF0123456789abcdef0123456789ABCDEF01" = Ok a
    /\ toEthAddress a = Ok b
    /\ addressesEqual b a = true
    /\ payloadOf a = payloadOf b.
Proof.
  destruct (roundtrip_payload "ABCDEF0123456789abcdef0123456789ABCDEF01"
              eq_refl)
    as (a & b & H1 & H2 & H3 & _ & _ & _ & _ & _ & _ & H4 & _).
  exists a, b. repeat split; assumption.
Defined.

(** C7, as stated, fails: a tagged string whose remainder is not 40
    hexadecimal characters is translated, not rejected, and so is any
    untagged string of 40 characters. *)
Lemma tagged_garbage_is_accepted :
  isKnownForm "0xzz" = false
  /\ toXdcAddress "0xzz" = Ok "xdczz"
  /\ toEthAddress "xdc" = Ok "0x"
  /\ isKnownForm "this string has forty characters in it!!" = false
  /\ toEthAddress "this string has forty characters in it!!"
     = Ok "0xthis string has forty characters in it!!".
Proof. repeat split. Qed.

(** C7 (amended): both translations accept exactly the non-empty inputs
    whose lowercased form starts with the tag [xdc] or [0x] (whatever
    follows) or is 40 characters long (whatever the characters); these
    include every format-A string, format-B string and bare payload.  Every
    other input is rejected by an [Error] thrown to the caller, with message
    "Address is required" for the empty string and
    "Invalid address format: <input>" otherwise. *)
Theorem codec_acceptance (s : string) :
  implb (isKnownForm s) (accepted s) = true
  /\ toXdcAddress s
     = (if accepted s then Ok ("xdc" ++ payloadOf s)
        else Throw (Error (if isFalsy s then "Address is required"
                           else "Invalid address format: " ++ s)))
  /\ toEthAddress s
     = (if accepted s then Ok ("0x" ++ payloadOf s)
        else Throw (Error (if isFalsy s then "Address is required"
                           else "Invalid address format: " ++ s))).
Proof.
  split; [|split].
  - destruct (isKnownForm s) eqn:K; [|reflexivity].
    now rewrite (isKnownForm_accepted s K).
  - destruct (accepted s) eqn:H.
    + now apply toXdcAddress_accepted.
    + now apply toXdcAddress_rejected.
  - destruct (accepted s) eqn:H.
    + now apply toEthAddress_accepted.
    + now apply toEthAddress_rejected.
Qed.

(** C10, as stated, fails: two strings that are not in a known address
    form, and whose translations are not either, are compared and found
    equal. *)
Lemma tagged_garbage_compares_equal :
  isKnownForm "0xzz" = false
  /\ isKnownForm "XDCZZ" = false
  /\ toEthAddress "0xzz" = Ok "0xzz"
  /\ toEthAddress "XDCZZ" = Ok "0xzz"
  /\ addressesEqual "0xzz" "XDCZZ" = true.
Proof. repeat split. Qed.

(** C10 (amended): [addressesEqual] is a total boolean function, [true]
    exactly when [toEthAddress] returns for both operands and the lowercased
    remainders after the tag are the same, whatever these remainders are.
    So it is [false] as soon as an operand is empty or is rejected by
    [toEthAddress]; on two operands the translation accepts it is [true]
    exactly when the translations are the same string; and on two operands
    in a known form (format A, format B or bare payload) it is [true]
    exactly when the lowercased 40-hex payloads are the same. *)
Theorem addressesEqual_total_and_sound (a b : string) :
  addressesEqual a b
  = returns (toEthAddress a) && returns (toEthAddress b)
    && String.eqb (payloadOf a) (payloadOf b)
  /\ (isFalsy a = true \/ isFalsy b = true
      \/ returns (toEthAddress a) = false \/ returns (toEthAddress b) = false ->
      addressesEqual a b = false)
  /\ (forall ea eb, toEthAddress a = Ok ea -> toEthAddress b = Ok eb ->
        ea = "0x" ++ payloadOf a /\ eb = "0x" ++ payloadOf b
        /\ (addressesEqual a b = true <-> ea = eb)
        /\ (addressesEqual a b = true <-> payloadOf a = payloadOf b))
  /\ (isKnownForm a = true -> isKnownForm b = true ->
      isPayload (payloadOf a) = true /\ isPayload (payloadOf b) = true
      /\ (addressesEqual a b = true <-> payloadOf a = payloadOf b)).
Proof.
  rewrite addressesEqual_closed_form, !returns_toEthAddress.
  split; [reflexivity|]. split; [|split].
  - intros [H|[H|[H|H]]].
    + unfold accepted. now rewrite H.
    + unfold accepted at 2. rewrite H. cbn [negb andb].
      now rewrite andb_false_r.
    + now rewrite H.
    + rewrite H. now rewrite andb_false_r.
  - intros ea eb Ha Hb.
    destruct (accepted a) eqn:Aa;
      [|rewrite (toEthAddress_rejected a Aa) in Ha; discriminate].
    destruct (accepted b) eqn:Ab;
      [|rewrite (toEthAddress_rejected b Ab) in Hb; discriminate].
    rewrite (toEthAddress_accepted a Aa) in Ha.
    rewrite (toEthAddress_accepted b Ab) in Hb.
    assert (Ea : ea = "0x" ++ payloadOf a) by congruence.
    assert (Eb : eb = "0x" ++ payloadOf b) by congruence.
    cbn [andb]. rewrite String.eqb_eq. rewrite Ea, Eb.
    repeat split; try tauto.
    + now intros ->.
    + intros E. now injection E.
  - intros Ka Kb.
    rewrite (isKnownForm_accepted a Ka), (isKnownForm_accepted b Kb).
    cbn [andb]. repeat split; try now apply payloadOf_known.
    + apply String.eqb_eq.
    + apply String.eqb_eq.
Qed.

Lemma addressesEqual_total_and_sound_witness :
  addressesEqual "" "0x1234567890123456789012345678901234567890" = false
  /\ (addressesEqual "XDC1234567890ABCDEF1234567890abcdef12345678"
                     "0x1234567890abcdef1234567890ABCDEF12345678" = true
      <-> "1234567890abcdef1234567890abcdef12345678"
          = "1234567890abcdef1234567890abcdef12345678")
  /\ (addressesEqual "0xzz" "XDCZZ" = true <-> "0xzz" = "0xzz").
Proof.
  split; [|split].
  - apply (proj1 (proj2 (addressesEqual_total_and_sound
                           "" "0x1234567890123456789012345678901234567890"))).
    left. reflexivity.
  - apply (proj2 (proj2 (proj2 (addressesEqual_total_and_sound
                    "XDC1234567890ABCDEF1234567890abcdef12345678"
                    "0x1234567890abcdef1234567890ABCDEF12345678"))));
      reflexivity.
  - apply (proj1 (proj2 (proj2 (addressesEqual_total_and_sound
                                  "0xzz" "XDCZZ"))) "0xzz" "0xzz");
      reflexivity.
Defined.

(** ** Binary64 arithmetic on integers that fit the 53-bit mantissa *)

Section Binary64.

Local Open Scope Z_scope.

Lemma digits2_pos_size (p : positive) : digits2_pos p = Pos.size p.
Proof. induction p; simpl; congruence. Qed.

Lemma Zdigits2_log2 (z : Z) : 0 < z -> Zdigits2 z = Z.log2 z + 1.
Proof.
  destruct z as [|p|p]; try lia. intros _.
  simpl. rewrite digits2_pos_size.
  destruct p; simpl; lia.
Qed.

Lemma digits2_pos_log2 (p : positive) :
  Zpos (digits2_pos p) = Z.log2 (Zpos p) + 1.
Proof. apply (Zdigits2_log2 (Zpos p)). lia. Qed.

Lemma iter_pos_iter {A : Type} (f : A -> A) (n : positive) (x : A) :
  iter_pos f n x = Pos.iter f x n.
Proof.
  revert x; induction n as [n IH|n IH|]; intros x; simpl.
  - now rewrite !IH, !Pos.iter_swap.
  - now rewrite !IH.
  - reflexivity.
Qed.

(** Shifting right an exact multiple of a power of two loses nothing. *)
Lemma shr_exact (m : Z) (n : positive) :
  0 <= m ->
  iter_pos shr_1 n (Build_shr_record (m * 2 ^ Zpos n) false false)
  = Build_shr_record m false false.
Proof.
  intros Hm. rewrite iter_pos_iter. revert m Hm.
  induction n as [|n IH] using Pos.peano_ind; intros m Hm.
  - simpl Pos.iter. change (2 ^ 1) with 2. rewrite Z.mul_comm.
    destruct m as [|p|p]; try lia; reflexivity.
  - rewrite Pos.iter_succ, Pos2Z.inj_succ, Z.pow_succ_r by lia.
    replace (m * (2 * 2 ^ Zpos n)) with ((2 * m) * 2 ^ Zpos n) by lia.
    rewrite IH by lia.
    destruct m as [|p|p]; try lia; reflexivity.
Qed.

Lemma fexp_normal (e : Z) : -1021 <= e -> fexp prec emax e = e - 53.
Proof. unfold fexp, SpecFloat.emin, prec, emax. lia. Qed.

(** Rounding a mantissa that is a 53-bit number times a power of two
    returns that number unchanged. *)
Lemma binary_round_aux_exact (s : bool) (M : positive) (E n : Z) :
  0 <= n -> Z.log2 (Zpos M) = 52 -> -1074 <= E <= 971 ->
  binary_round_aux prec emax s (Zpos M * 2 ^ n) (E - n) loc_Exact
  = S754_finite s M E.
Proof.
  intros Hn HM HE.
  assert (Hpos : 0 < Zpos M * 2 ^ n) by (apply Z.mul_pos_pos; [lia|apply Z.pow_pos_nonneg; lia]).
  unfold binary_round_aux, shr_fexp.
  rewrite (Zdigits2_log2 _ Hpos), Z.log2_mul_pow2, HM by lia.
  rewrite fexp_normal by lia.
  replace (n + 52 + 1 + (E - n) - 53 - (E - n)) with n by lia.
  assert (Hshr : shr (shr_record_of_loc (Zpos M * 2 ^ n) loc_Exact) (E - n) n
                 = (Build_shr_record (Zpos M) false false, E)).
  { unfold shr, shr_record_of_loc. destruct n as [|p|p]; try lia.
    - rewrite Z.mul_1_r. f_equal. lia.
    - rewrite shr_exact by lia. f_equal. lia. }
  rewrite Hshr. cbn [shr_m loc_of_shr_record round_nearest_even].
  rewrite (Zdigits2_log2 (Zpos M)), HM by lia.
  rewrite fexp_normal by lia.
  replace (52 + 1 + E - 53 - E) with 0 by lia.
  cbn [shr shr_record_of_loc shr_m].
  replace (E <=? emax - prec) with true; [reflexivity|].
  symmetry. apply Z.leb_le. unfold emax, prec. lia.
Qed.

Lemma iter_xO_pow2 (m d : positive) :
  Zpos (Pos.iter xO m d) = Zpos m * 2 ^ Zpos d.
Proof.
  change (Pos.iter xO m d) with (shift_pos d m).
  rewrite shift_pos_correct. change (Z.pow_pos 2 d) with (2 ^ Zpos d). lia.
Qed.

Lemma binary_round_aux_exact' (s : bool) (mx M : positive) (ex E : Z) :
  ex <= E -> Z.log2 (Zpos M) = 52 -> -1074 <= E <= 971 ->
  Zpos mx = Zpos M * 2 ^ (E - ex) ->
  binary_round_aux prec emax s (Zpos mx) ex loc_Exact = S754_finite s M E.
Proof.
  intros Hle HM HE ->.
  replace ex with (E - (E - ex)) at 2 by lia.
  apply binary_round_aux_exact; lia.
Qed.

(** [binary_round] of a mantissa and exponent denoting the value
    [M * 2 ^ E] of a normal number returns that number. *)
Lemma binary_round_exact (s : bool) (mx M : positive) (ex E : Z) :
  Z.log2 (Zpos M) = 52 -> -1074 <= E <= 971 ->
  Zpos mx * 2 ^ Z.max 0 (ex - E) = Zpos M * 2 ^ Z.max 0 (E - ex) ->
  binary_round prec emax s mx ex = S754_finite s M E.
Proof.
  intros HM HE Hval.
  assert (Hlog : Z.log2 (Zpos mx) + Z.max 0 (ex - E) = 52 + Z.max 0 (E - ex)).
  { rewrite <- HM, Z.add_comm, <- Z.log2_mul_pow2, Hval by lia.
    rewrite Z.log2_mul_pow2 by lia. lia. }
  unfold binary_round.
  rewrite digits2_pos_log2, fexp_normal by lia.
  replace (Z.log2 (Zpos mx) + 1 + ex - 53) with E by lia.
  unfold shl_align.
  destruct (Z.le_gt_cases ex E) as [Hle|Hgt].
  - rewrite (Z.max_l 0 (ex - E)), (Z.max_r 0 (E - ex)) in Hval by lia.
    rewrite Z.pow_0_r, Z.mul_1_r in Hval.
    replace (match E - ex with Z.neg d => (Pos.iter xO mx d, E) | _ => (mx, ex) end)
      with (mx, ex) by (destruct (E - ex) eqn:?; try reflexivity; lia).
    now apply binary_round_aux_exact'.
  - rewrite (Z.max_r 0 (ex - E)), (Z.max_l 0 (E - ex)) in Hval by lia.
    rewrite Z.pow_0_r, Z.mul_1_r in Hval.
    destruct (E - ex) as [|d|d] eqn:Hd; try lia.
    apply binary_round_aux_exact'; try lia.
    rewrite iter_xO_pow2, Z.sub_diag, Z.pow_0_r, Z.mul_1_r.
    rewrite <- Hval. do 2 f_equal. lia.
Qed.

Lemma log2_safe (z : Z) : z <> 0 -> Z.abs z < 2 ^ 53 -> 0 <= Z.log2 (Z.abs z) <= 52.
Proof.
  intros Hz Hlt. split; [apply Z.log2_nonneg|].
  assert (Z.log2 (Z.abs z) < 53) by (apply Z.log2_lt_pow2; lia). lia.
Qed.

Lemma mantissa_spec (z : Z) :
  z <> 0 -> Z.abs z < 2 ^ 53 ->
  Zpos (mantissa z) = Z.abs z * 2 ^ (52 - Z.log2 (Z.abs z))
  /\ Z.log2 (Zpos (mantissa z)) = 52.
Proof.
  intros Hz Hlt. pose proof (log2_safe z Hz Hlt) as Hl.
  assert (Hpos : 0 < Z.abs z * 2 ^ (52 - Z.log2 (Z.abs z))).
  { apply Z.mul_pos_pos; [lia|apply Z.pow_pos_nonneg; lia]. }
  unfold mantissa. rewrite Z2Pos.id by exact Hpos. split; [reflexivity|].
  rewrite Z.log2_mul_pow2 by lia. lia.
Qed.

(** An integer of magnitude below [2 ^ 53], scaled by a power of two,
    normalizes to the binary64 that holds exactly that integer. *)
Lemma binary_normalize_scaled (v k : Z) (sz : bool) :
  v <> 0 -> Z.abs v < 2 ^ 53 -> 0 <= k ->
  binary_normalize prec emax (v * 2 ^ k) (- k) sz
  = S754_finite (v <? 0) (mantissa v) (exponent v).
Proof.
  intros Hv Hlt Hk.
  pose proof (log2_safe v Hv Hlt) as Hl.
  destruct (mantissa_spec v Hv Hlt) as [HM HlogM].
  assert (Hp2 : 0 < 2 ^ k) by (apply Z.pow_pos_nonneg; lia).
  assert (Hround : forall s (q : positive), Zpos q = Z.abs v * 2 ^ k ->
            binary_round prec emax s q (- k) = S754_finite s (mantissa v) (exponent v)).
  { intros s q Hq. apply binary_round_exact; unfold exponent; try lia.
    rewrite Hq, HM.
    destruct (Z.le_gt_cases (- k) (Z.log2 (Z.abs v) - 52)) as [Hle|Hgt].
    - rewrite (Z.max_l 0), (Z.max_r 0) by lia.
      rewrite Z.pow_0_r, Z.mul_1_r, <- Z.mul_assoc, <- Z.pow_add_r by lia.
      do 2 f_equal. lia.
    - rewrite (Z.max_r 0), (Z.max_l 0) by lia.
      rewrite Z.pow_0_r, Z.mul_1_r, <- Z.mul_assoc, <- Z.pow_add_r by lia.
      do 2 f_equal. lia. }
  unfold binary_normalize.
  destruct (v * 2 ^ k) as [|q|q] eqn:Hq.
  - nia.
  - replace (v <? 0) with false by (symmetry; apply Z.ltb_ge; nia).
    apply Hround. rewrite Z.abs_eq by nia. lia.
  - replace (v <? 0) with true by (symmetry; apply Z.ltb_lt; nia).
    apply Hround. rewrite Z.abs_neq by nia. lia.
Qed.

Lemma mantissa_opp (z : Z) : mantissa (- z) = mantissa z.
Proof. unfold mantissa. now rewrite Z.abs_opp. Qed.

Lemma exponent_opp (z : Z) : exponent (- z) = exponent z.
Proof. unfold exponent. now rewrite Z.abs_opp. Qed.

(** [Number(z)] for a non-zero integer of magnitude below [2 ^ 53]. *)
Lemma ofZ_safe (z : Z) :
  z <> 0 -> Z.abs z < 2 ^ 53 ->
  ofZ z = S754_finite (z <? 0) (mantissa z) (exponent z).
Proof.
  intros Hz Hlt. unfold ofZ.
  rewrite <- (binary_normalize_scaled z 0 false Hz Hlt) by lia.
  now rewrite Z.pow_0_r, Z.mul_1_r.
Qed.

Lemma ofZ_0 : ofZ 0 = S754_zero false.
Proof. reflexivity. Qed.

Lemma binary_normalize_int (v k : Z) :
  Z.abs v < 2 ^ 53 -> 0 <= k ->
  binary_normalize prec emax (v * 2 ^ k) (- k) false = ofZ v.
Proof.
  intros Hlt Hk. destruct (Z.eq_dec v 0) as [->|Hv].
  - reflexivity.
  - now rewrite ofZ_safe, binary_normalize_scaled.
Qed.

(** The signed mantissa is the integer scaled to 53 bits. *)
Lemma signed_mantissa (z : Z) :
  z <> 0 -> Z.abs z < 2 ^ 53 ->
  cond_Zopp (z <? 0) (Zpos (mantissa z)) = z * 2 ^ (- exponent z).
Proof.
  intros Hz Hlt. destruct (mantissa_spec z Hz Hlt) as [-> _].
  unfold exponent. replace (- (Z.log2 (Z.abs z) - 52)) with (52 - Z.log2 (Z.abs z)) by lia.
  unfold cond_Zopp. destruct (Z.ltb_spec z 0); lia.
Qed.

Lemma exponent_safe (z : Z) :
  z <> 0 -> Z.abs z < 2 ^ 53 -> -52 <= exponent z <= 0.
Proof. intros Hz Hlt. pose proof (log2_safe z Hz Hlt). unfold exponent. lia. Qed.

(** [BigInt(Number(z))] is [z] on the safe range. *)
Lemma toBigInt_ofZ (z : Z) : Z.abs z < 2 ^ 53 -> toBigInt (ofZ z) = Ok z.
Proof.
  intros Hlt. destruct (Z.eq_dec z 0) as [->|Hz]; [reflexivity|].
  rewrite ofZ_safe by assumption. unfold toBigInt.
  pose proof (exponent_safe z Hz Hlt) as HE.
  pose proof (signed_mantissa z Hz Hlt) as HS.
  destruct (mantissa_spec z Hz Hlt) as [HM _].
  assert (Hp : 0 < 2 ^ (- exponent z)) by (apply Z.pow_pos_nonneg; lia).
  destruct (Z.leb_spec 0 (exponent z)) as [H0|H0].
  - f_equal. rewrite HS. replace (exponent z) with 0 by lia. simpl. lia.
  - replace (Zpos (mantissa z) mod 2 ^ (- exponent z) =? 0) with true.
    + f_equal. rewrite HS. apply Z.div_mul. lia.
    + symmetry. apply Z.eqb_eq. rewrite HM.
      replace (52 - Z.log2 (Z.abs z)) with (- exponent z) by (unfold exponent; lia).
      apply Z.mod_mul. lia.
Qed.

Lemma shl_align_fst (mx : positive) (ex ex' : Z) :
  ex' <= ex -> Zpos (fst (shl_align mx ex ex')) = Zpos mx * 2 ^ (ex - ex').
Proof.
  intros Hle. unfold shl_align.
  destruct (ex' - ex) as [|d|d] eqn:Hd; try lia; cbn [fst].
  - replace (ex - ex') with 0 by lia. lia.
  - rewrite iter_xO_pow2. do 2 f_equal. lia.
Qed.

(** The aligned, signed mantissa used by addition and subtraction. *)
Lemma aligned_mantissa (z ez : Z) :
  z <> 0 -> Z.abs z < 2 ^ 53 -> ez <= exponent z ->
  cond_Zopp (z <? 0) (Zpos (fst (shl_align (mantissa z) (exponent z) ez)))
  = z * 2 ^ (- ez).
Proof.
  intros Hz Hlt Hle. pose proof (exponent_safe z Hz Hlt) as HE.
  rewrite shl_align_fst by assumption.
  pose proof (signed_mantissa z Hz Hlt) as HS.
  replace (- ez) with (- exponent z + (exponent z - ez)) by lia.
  rewrite Z.pow_add_r, Z.mul_assoc, <- HS by lia.
  unfold cond_Zopp. destruct (z <? 0); lia.
Qed.

Lemma ofZ_add (a b : Z) :
  Z.abs a < 2 ^ 53 -> Z.abs b < 2 ^ 53 -> Z.abs (a + b) < 2 ^ 53 ->
  add (ofZ a) (ofZ b) = ofZ (a + b).
Proof.
  intros Ha Hb Hab.
  destruct (Z.eq_dec b 0) as [->|Nb].
  { rewrite Z.add_0_r. destruct (Z.eq_dec a 0) as [->|Na]; [reflexivity|].
    now rewrite (ofZ_safe a). }
  destruct (Z.eq_dec a 0) as [->|Na].
  { rewrite Z.add_0_l. now rewrite (ofZ_safe b). }
  rewrite (ofZ_safe a), (ofZ_safe b) by assumption.
  unfold add, SFadd.
  pose proof (exponent_safe a Na Ha). pose proof (exponent_safe b Nb Hb).
  rewrite !aligned_mantissa by lia.
  rewrite <- Z.mul_add_distr_r.
  rewrite <- (Z.opp_involutive (Z.min (exponent a) (exponent b))) at 2.
  apply binary_normalize_int; lia.
Qed.

Lemma ofZ_sub (a b : Z) :
  Z.abs a < 2 ^ 53 -> Z.abs b < 2 ^ 53 -> Z.abs (a - b) < 2 ^ 53 ->
  sub (ofZ a) (ofZ b) = ofZ (a - b).
Proof.
  intros Ha Hb Hab.
  destruct (Z.eq_dec b 0) as [->|Nb].
  { rewrite Z.sub_0_r. destruct (Z.eq_dec a 0) as [->|Na]; [reflexivity|].
    now rewrite (ofZ_safe a). }
  destruct (Z.eq_dec a 0) as [->|Na].
  { rewrite (ofZ_safe b), (ofZ_safe (0 - b)) by lia.
    rewrite ofZ_0. unfold sub. cbn [SFsub].
    replace (0 - b) with (- b) by lia.
    rewrite mantissa_opp, exponent_opp. f_equal.
    destruct (Z.ltb_spec b 0), (Z.ltb_spec (- b) 0); try reflexivity; lia. }
  rewrite (ofZ_safe a), (ofZ_safe b) by assumption.
  unfold sub, SFsub.
  pose proof (exponent_safe a Na Ha). pose proof (exponent_safe b Nb Hb).
  rewrite !aligned_mantissa by lia.
  rewrite <- Z.mul_sub_distr_r.
  rewrite <- (Z.opp_involutive (Z.min (exponent a) (exponent b))) at 2.
  apply binary_normalize_int; lia.
Qed.

Lemma ofZ_mul (a b : Z) :
  0 < b -> Z.abs a < 2 ^ 53 -> b < 2 ^ 53 -> Z.abs (a * b) < 2 ^ 53 ->
  mul (ofZ a) (ofZ b) = ofZ (a * b).
Proof.
  intros Hb0 Ha Hb Hab.
  rewrite (ofZ_safe b) by lia.
  destruct (Z.eq_dec a 0) as [->|Na].
  { replace (b <? 0) with false by (symmetry; apply Z.ltb_ge; lia). reflexivity. }
  rewrite (ofZ_safe a), (ofZ_safe (a * b)) by nia.
  unfold mul, SFmul.
  destruct (mantissa_spec a Na Ha) as [HMa _].
  destruct (mantissa_spec b) as [HMb _]; [lia|lia|].
  destruct (mantissa_spec (a * b)) as [HMc HlogMc]; [nia|lia|].
  pose proof (Z.log2_mul_below (Z.abs a) (Z.abs b)) as Hbelow.
  rewrite <- Z.abs_mul in Hbelow.
  pose proof (log2_safe a Na Ha). pose proof (log2_safe b). 
  pose proof (log2_safe (a * b)).
  replace (xorb (a <? 0) (b <? 0)) with (a * b <? 0)
    by (destruct (Z.ltb_spec a 0), (Z.ltb_spec b 0), (Z.ltb_spec (a * b) 0);
        try reflexivity; nia).
  apply binary_round_aux_exact'; unfold exponent in *; try lia.
  rewrite Pos2Z.inj_mul, HMa, HMb, HMc, Z.abs_mul.
  replace (Z.log2 (Z.abs a * Z.abs b) - 52 - (Z.log2 (Z.abs a) - 52 + (Z.log2 (Z.abs b) - 52)))
    with ((52 - Z.log2 (Z.abs a)) + (52 - Z.log2 (Z.abs b)) - (52 - Z.log2 (Z.abs a * Z.abs b))) by lia.
  rewrite <- Z.abs_mul in *.
  set (la := 52 - Z.log2 (Z.abs a)) in *.
  set (lb := 52 - Z.log2 (Z.abs b)) in *.
  set (lc := 52 - Z.log2 (Z.abs (a * b))) in *.
  rewrite <- (Z.mul_assoc _ (2 ^ lc)), <- Z.pow_add_r by lia.
  replace (lc + (la + lb - lc)) with (la + lb) by lia.
  rewrite Z.pow_add_r, Z.abs_mul by lia. ring.
Qed.

(** Magnitudes with the same sign compare through exponent, then
    mantissa. *)
Lemma compare_magnitudes (a b : Z) :
  0 < a < 2 ^ 53 -> 0 < b < 2 ^ 53 ->
  match exponent a ?= exponent b with
  | Lt => Lt
  | Gt => Gt
  | Eq => Pos.compare_cont Eq (mantissa a) (mantissa b)
  end = (a ?= b).
Proof.
  intros Ha Hb. unfold exponent.
  rewrite (Z.abs_eq a), (Z.abs_eq b) by lia.
  destruct (Z.compare_spec (Z.log2 a - 52) (Z.log2 b - 52)) as [He|He|He].
  - destruct (mantissa_spec a) as [HMa _]; [lia|lia|].
    destruct (mantissa_spec b) as [HMb _]; [lia|lia|].
    change (Pos.compare_cont Eq (mantissa a) (mantissa b))
      with (Zpos (mantissa a) ?= Zpos (mantissa b)).
    rewrite HMa, HMb, (Z.abs_eq a), (Z.abs_eq b) by lia.
    replace (Z.log2 b) with (Z.log2 a) by lia.
    pose proof (log2_safe a) as Hl.
    assert (Hp : 0 < 2 ^ (52 - Z.log2 a))
      by (apply Z.pow_pos_nonneg; rewrite (Z.abs_eq a) in Hl; lia).
    destruct (Z.compare_spec a b) as [->|Hlt|Hgt].
    + apply Z.compare_refl.
    + apply Z.compare_lt_iff. nia.
    + apply Z.compare_gt_iff. nia.
  - symmetry. apply Z.compare_lt_iff. apply Z.log2_lt_cancel. lia.
  - symmetry. apply Z.compare_gt_iff. apply Z.log2_lt_cancel. lia.
Qed.

Lemma SFcompare_ofZ (a b : Z) :
  Z.abs a < 2 ^ 53 -> Z.abs b < 2 ^ 53 ->
  SFcompare (ofZ a) (ofZ b) = Some (a ?= b).
Proof.
  intros Ha Hb.
  destruct (Z.eq_dec a 0) as [->|Na]; destruct (Z.eq_dec b 0) as [->|Nb].
  - reflexivity.
  - rewrite (ofZ_safe b) by lia. rewrite ofZ_0. cbn [SFcompare].
    f_equal. destruct (Z.ltb_spec b 0); symmetry;
      [apply Z.compare_gt_iff|apply Z.compare_lt_iff]; lia.
  - rewrite (ofZ_safe a) by lia. rewrite ofZ_0. cbn [SFcompare].
    f_equal. destruct (Z.ltb_spec a 0); symmetry;
      [apply Z.compare_lt_iff|apply Z.compare_gt_iff]; lia.
  - rewrite (ofZ_safe a), (ofZ_safe b) by lia. cbn [SFcompare]. f_equal.
    destruct (Z.ltb_spec a 0) as [Sa|Sa], (Z.ltb_spec b 0) as [Sb|Sb].
    + rewrite <- (mantissa_opp a), <- (mantissa_opp b),
        <- (exponent_opp a), <- (exponent_opp b).
      pose proof (compare_magnitudes (- a) (- b) ltac:(lia) ltac:(lia)) as Hc.
      assert (Hopp : (- a ?= - b) = CompOpp (a ?= b)).
      { destruct (Z.compare_spec a b); cbn;
          [apply Z.compare_eq_iff|apply Z.compare_gt_iff|apply Z.compare_lt_iff];
          lia. }
      rewrite Hopp in Hc.
      change PosDef.Pos.compare_cont with Pos.compare_cont.
      destruct (exponent (- a) ?= exponent (- b));
        destruct (Pos.compare_cont Eq (mantissa (- a)) (mantissa (- b)));
        destruct (a ?= b); cbn in *; congruence.
    + symmetry. apply Z.compare_lt_iff. lia.
    + symmetry. apply Z.compare_gt_iff. lia.
    + apply compare_magnitudes; lia.
Qed.

Lemma ofZ_min (a b : Z) :
  Z.abs a < 2 ^ 53 -> Z.abs b < 2 ^ 53 ->
  min (ofZ a) (ofZ b) = ofZ (Z.min a b).
Proof.
  intros Ha Hb. unfold min. rewrite SFcompare_ofZ by assumption.
  destruct (Z.compare_spec a b) as [->|Hlt|Hgt].
  - rewrite Z.min_id.
    destruct (Z.eq_dec b 0) as [->|Nb]; [reflexivity|].
    now rewrite (ofZ_safe b) by lia.
  - now rewrite Z.min_l by lia.
  - now rewrite Z.min_r by lia.
Qed.

(** *** Rounding a quotient mantissa of 53 or 54 bits *)

Lemma round_nearest_even_bounds (m : Z) (l : location) :
  m <= round_nearest_even m l <= m + 1.
Proof. destruct l as [|[]]; cbn; try destruct (Z.even m); lia. Qed.

Lemma round_nearest_even_exact (m : Z) : round_nearest_even m loc_Exact = m.
Proof. reflexivity. Qed.

Lemma loc_of_shr_record_of_loc (m : Z) (l : location) :
  loc_of_shr_record (shr_record_of_loc m l) = l
  /\ shr_m (shr_record_of_loc m l) = m.
Proof. destruct l as [|[]]; split; reflexivity. Qed.

Lemma log2_53 (q : Z) : 2 ^ 52 <= q < 2 ^ 53 -> Z.log2 q = 52.
Proof. intros H. apply Z.log2_unique; lia. Qed.

Lemma log2_54 (q : Z) : 2 ^ 53 <= q < 2 ^ 54 -> Z.log2 q = 53.
Proof. intros H. apply Z.log2_unique; lia. Qed.

(** The second normalization of [binary_round_aux]: a carry out of the
    mantissa is absorbed by the exponent. *)
Lemma round_carry (s : bool) (m2 e : Z) :
  2 ^ 52 <= m2 <= 2 ^ 53 -> -1021 <= e <= 901 ->
  exists (m3 : positive) (e3 : Z),
    (let '(mrs, e') := shr_fexp prec emax m2 e loc_Exact in
     match shr_m mrs with
     | Z0 => S754_zero s
     | Zpos m => if e' <=? emax - prec then S754_finite s m e'
                 else S754_infinity s
     | Zneg _ => S754_nan
     end) = S754_finite s m3 e3
    /\ e <= e3 <= e + 1 /\ Zpos m3 * 2 ^ (e3 - e) = m2.
Proof.
  intros Hm He. unfold shr_fexp.
  rewrite Zdigits2_log2 by lia.
  destruct (Z.eq_dec m2 (2 ^ 53)) as [->|Hne].
  - exists (Z.to_pos (2 ^ 52)), (e + 1).
    change (Z.log2 (2 ^ 53)) with 53.
    rewrite fexp_normal by lia.
    replace (53 + 1 + e - 53 - e) with 1 by lia.
    cbn [shr shr_record_of_loc iter_pos]. 
    change (shr_m (shr_1 {| shr_m := 2 ^ 53; shr_r := false; shr_s := false |}))
      with (Zpos (Z.to_pos (2 ^ 52))).
    cbv iota beta.
    replace (e + 1 <=? emax - prec) with true
      by (symmetry; apply Z.leb_le; unfold emax, prec; lia).
    repeat split; try lia.
    replace (e + 1 - e) with 1 by lia. reflexivity.
  - exists (Z.to_pos m2), e.
    rewrite (log2_53 m2) by lia.
    rewrite fexp_normal by lia.
    replace (52 + 1 + e - 53 - e) with 0 by lia.
    cbn [shr]. destruct (loc_of_shr_record_of_loc m2 loc_Exact) as [_ ->].
    destruct m2 as [|p|p]; try lia.
    replace (e <=? emax - prec) with true
      by (symmetry; apply Z.leb_le; unfold emax, prec; lia).
    repeat split; try lia.
    rewrite Z.sub_diag. simpl. lia.
Qed.

Lemma round_aux_53 (s : bool) (q e : Z) (l : location) :
  2 ^ 52 <= q < 2 ^ 53 -> -1021 <= e <= 901 ->
  exists (m3 : positive) (e3 : Z),
    binary_round_aux prec emax s q e l = S754_finite s m3 e3
    /\ e <= e3 <= e + 1
    /\ Zpos m3 * 2 ^ (e3 - e) = round_nearest_even q l.
Proof.
  intros Hq He. unfold binary_round_aux.
  assert (Hshr : shr_fexp prec emax q e l = (shr_record_of_loc q l, e)).
  { unfold shr_fexp. rewrite Zdigits2_log2, (log2_53 q), fexp_normal by lia.
    replace (52 + 1 + e - 53 - e) with 0 by lia. reflexivity. }
  rewrite Hshr.
  destruct (loc_of_shr_record_of_loc q l) as [-> ->].
  apply round_carry; [|lia].
  pose proof (round_nearest_even_bounds q l). lia.
Qed.

Lemma shr_1_div2 (m : Z) (r b : bool) :
  0 <= m ->
  shr_1 (Build_shr_record m r b)
  = Build_shr_record (Z.div2 m) (Z.odd m) (r || b).
Proof.
  intros Hm. destruct m as [|[p|p|]|p]; try lia; reflexivity.
Qed.

Lemma round_aux_54 (s : bool) (q e : Z) (l : location) :
  2 ^ 53 <= q < 2 ^ 54 -> -1021 <= e <= 900 ->
  exists (m3 : positive) (e3 : Z),
    binary_round_aux prec emax s q e l = S754_finite s m3 e3
    /\ e + 1 <= e3 <= e + 2
    /\ Zpos m3 * 2 ^ (e3 - (e + 1))
       = round_nearest_even (Z.div2 q)
           (loc_of_shr_record (shr_1 (shr_record_of_loc q l))).
Proof.
  intros Hq He. unfold binary_round_aux.
  assert (Hshr : shr_fexp prec emax q e l
                 = (shr_1 (shr_record_of_loc q l), e + 1)).
  { unfold shr_fexp. rewrite Zdigits2_log2, (log2_54 q), fexp_normal by lia.
    replace (53 + 1 + e - 53 - e) with 1 by lia. reflexivity. }
  rewrite Hshr.
  assert (Hm : shr_m (shr_1 (shr_record_of_loc q l)) = Z.div2 q).
  { destruct l as [|[]]; cbn [shr_record_of_loc];
      rewrite shr_1_div2 by lia; reflexivity. }
  rewrite Hm.
  destruct (round_carry s
              (round_nearest_even (Z.div2 q)
                 (loc_of_shr_record (shr_1 (shr_record_of_loc q l))))
              (e + 1)) as (m3 & e3 & H1 & H2 & H3).
  - pose proof (round_nearest_even_bounds (Z.div2 q)
                  (loc_of_shr_record (shr_1 (shr_record_of_loc q l)))).
    rewrite Z.div2_div in *.
    assert (2 ^ 52 <= q / 2 < 2 ^ 53)
      by (split; [apply Z.div_le_lower_bound|apply Z.div_lt_upper_bound]; lia).
    lia.
  - lia.
  - exists m3, e3. repeat split; try lia; assumption.
Qed.

(** *** Division by the epoch length *)

Lemma ofZ_900 : ofZ 900 = S754_finite false 7916483719987200 (-43).
Proof. reflexivity. Qed.

Lemma SFdiv_core_900 (h : Z) :
  h <> 0 -> Z.abs h < 2 ^ 53 ->
  let N := Z.abs h * 2 ^ (10 - exponent h) in
  SFdiv_core_binary prec emax (Zpos (mantissa h)) (exponent h)
                    7916483719987200 (-43)
  = (N / 900, exponent h - 10,
     if N mod 900 =? 0 then loc_Exact
     else loc_Inexact (2 * (N mod 900) ?= 900)).
Proof.
  intros Hh Hlt N.
  pose proof (exponent_safe h Hh Hlt) as HE.
  destruct (mantissa_spec h Hh Hlt) as [HM HlogM].
  unfold SFdiv_core_binary.
  rewrite (Zdigits2_log2 (Zpos (mantissa h))), HlogM by lia.
  change (Zdigits2 7916483719987200) with 53.
  rewrite fexp_normal by lia.
  replace (Z.min (52 + 1 + exponent h - (53 + -43) - 53) (exponent h - -43))
    with (exponent h - 10) by lia.
  replace (exponent h - -43 - (exponent h - 10)) with 53 by lia.
  cbv iota beta.
  change (IntDef.Z.shiftl (Zpos (mantissa h)) 53)
    with (Z.shiftl (Zpos (mantissa h)) 53).
  change IntDef.Z.div_eucl with Z.div_eucl.
  rewrite Z.shiftl_mul_pow2 by lia.
  assert (HA : Zpos (mantissa h) * 2 ^ 53 = N * 2 ^ 43).
  { rewrite HM. unfold N.
    replace (52 - Z.log2 (Z.abs h)) with (- exponent h) by (unfold exponent; lia).
    replace (10 - exponent h) with (- exponent h + 10) by lia.
    rewrite Z.pow_add_r by lia. lia. }
  rewrite HA. change 7916483719987200 with (900 * 2 ^ 43).
  pose proof (Z.div_mul_cancel_r N 900 (2 ^ 43)) as Hq.
  pose proof (Z.mul_mod_distr_r N 900 (2 ^ 43)) as Hr.
  unfold Z.div, Z.modulo in Hq, Hr |- *.
  destruct (Z.div_eucl (N * 2 ^ 43) (900 * 2 ^ 43)) as [q r].
  destruct (Z.div_eucl N 900) as [q' r'].
  rewrite Hq, Hr by lia.
  do 2 f_equal.
  unfold new_location. change (Z.even (900 * 2 ^ 43)) with true.
  unfold new_location_even.
  destruct (Z.eqb_spec r' 0) as [->|Hr'].
  - reflexivity.
  - replace (r' * 2 ^ 43 =? 0) with false by (symmetry; apply Z.eqb_neq; lia).
    f_equal.
    destruct (Z.compare_spec (2 * r') 900);
      [apply Z.compare_eq_iff|apply Z.compare_lt_iff|apply Z.compare_gt_iff];
      lia.
Qed.

(** Facts shared by the two rounding cases: [a = 900 k + f], the scaled
    quotient [q] of [a * P] by 900 with remainder [r], [P > 900]. *)
Lemma scaled_quotient_facts (a P k f q r : Z) :
  900 < P -> 0 <= f < 900 -> 0 <= r < 900 -> 0 <= k ->
  a = 900 * k + f -> a * P = 900 * q + r ->
  k * P <= q /\ q + 1 < (k + 1) * P
  /\ (f = 0 -> r = 0 /\ q = k * P)
  /\ (0 < f -> k * P < q /\ (q = k * P + 1 -> r <> 0)).
Proof.
  intros HP Hf Hr Hk Ha HN. subst a.
  assert (H1 : 0 <= f * P) by nia.
  assert (H2 : f * P <= 899 * P) by nia.
  assert (H3 : 900 * q + r = 900 * (k * P) + f * P) by lia.
  assert (H4 : 0 < f -> P <= f * P) by nia.
  repeat split; lia.
Qed.

Lemma neg_div_900 (k f : Z) :
  0 <= f < 900 ->
  (- (900 * k + f)) / 900 = if f =? 0 then - k else - k - 1.
Proof.
  intros Hf. destruct (Z.eqb_spec f 0) as [->|Hne]; symmetry.
  - apply Z.div_unique with (r := 0); lia.
  - apply Z.div_unique with (r := 900 - f); lia.
Qed.

(** The floor of the rounded quotient when the quotient mantissa has 53
    bits: rounding moves it by at most one unit in the last place. *)
Lemma floor_rounded_53 (a t m2 : Z) :
  1 <= a -> 10 <= t ->
  (a * 2 ^ t) / 900 <= m2 <= (a * 2 ^ t) / 900 + 1 ->
  ((a * 2 ^ t) mod 900 = 0 -> m2 = (a * 2 ^ t) / 900) ->
  m2 / 2 ^ t = a / 900 /\ (- m2) / 2 ^ t = (- a) / 900.
Proof.
  intros Ha Ht Hm Hex.
  assert (HP : 900 < 2 ^ t).
  { apply Z.lt_le_trans with (2 ^ 10); [reflexivity|].
    apply Z.pow_le_mono_r; lia. }
  set (P := 2 ^ t) in *.
  pose proof (Z.div_mod a 900) as Hdm.
  pose proof (Z.mod_pos_bound a 900) as Hfb.
  pose proof (Z.div_mod (a * P) 900) as HN.
  pose proof (Z.mod_pos_bound (a * P) 900) as Hrb.
  assert (Hk : 0 <= a / 900) by (apply Z.div_pos; lia).
  set (k := a / 900) in *. set (f := a mod 900) in *.
  set (q := (a * P) / 900) in *. set (r := (a * P) mod 900) in *.
  destruct (scaled_quotient_facts a P k f q r) as (F1 & F2 & F3 & F4); try lia.
  split.
  - symmetry. apply Z.div_unique with (r := m2 - k * P); lia.
  - replace (- a) with (- (900 * k + f)) by lia. rewrite neg_div_900 by lia.
    destruct (Z.eqb_spec f 0) as [Hf0|Hf0]; symmetry.
    + destruct (F3 Hf0) as [Hr0 Hq]. rewrite (Hex Hr0), Hq.
      apply Z.div_unique with (r := 0); lia.
    + destruct F4 as [F4 _]; [lia|].
      apply Z.div_unique with (r := (k + 1) * P - m2); lia.
Qed.

(** The same when the quotient mantissa has 54 bits and loses its last
    bit: the round bit is the parity of [q], the sticky bit records a
    non-zero remainder. *)
Lemma floor_rounded_54 (a t m2 : Z) :
  1 <= a -> 10 <= t ->
  let q := (a * 2 ^ t) / 900 in
  let r := (a * 2 ^ t) mod 900 in
  (m2 = Z.div2 q \/ (m2 = Z.div2 q + 1 /\ Z.odd q = true)) ->
  (Z.odd q = true -> r <> 0 -> m2 = Z.div2 q + 1) ->
  m2 / 2 ^ (t - 1) = a / 900 /\ (- m2) / 2 ^ (t - 1) = (- a) / 900.
Proof.
  intros Ha Ht q r Hm Hup.
  assert (HP : 450 < 2 ^ (t - 1)).
  { apply Z.lt_le_trans with (2 ^ 9); [reflexivity|].
    apply Z.pow_le_mono_r; lia. }
  assert (HPP : 2 ^ t = 2 * 2 ^ (t - 1)).
  { rewrite <- Z.pow_succ_r by lia. f_equal. lia. }
  pose proof (Z.div_mod a 900) as Hdm.
  pose proof (Z.mod_pos_bound a 900) as Hfb.
  pose proof (Z.div_mod (a * 2 ^ t) 900) as HN.
  pose proof (Z.mod_pos_bound (a * 2 ^ t) 900) as Hrb.
  assert (Hk : 0 <= a / 900) by (apply Z.div_pos; lia).
  fold q r in HN, Hrb.
  set (k := a / 900) in *. set (f := a mod 900) in *.
  destruct (scaled_quotient_facts a (2 ^ t) k f q r) as (F1 & F2 & F3 & F4); try lia.
  pose proof (Z.div2_odd q) as Hodd.
  set (P := 2 ^ (t - 1)) in *. rewrite HPP in *.
  set (q2 := Z.div2 q) in *.
  assert (Hcases : (q = 2 * q2 /\ m2 = q2)
                   \/ (q = 2 * q2 + 1 /\ (m2 = q2 \/ m2 = q2 + 1)
                       /\ (r <> 0 -> m2 = q2 + 1))).
  { destruct (Z.odd q); cbn [Z.b2z] in Hodd.
    - right. repeat split; [lia| |auto]. destruct Hm as [Hm|[Hm _]]; auto.
    - left. split; [lia|]. destruct Hm as [Hm|[_ Hm]]; [auto|discriminate]. }
  clear Hm Hup Hodd.
  split.
  - symmetry. apply Z.div_unique with (r := m2 - k * P); lia.
  - replace (- a) with (- (900 * k + f)) by lia. rewrite neg_div_900 by lia.
    destruct (Z.eqb_spec f 0) as [Hf0|Hf0]; symmetry.
    + destruct (F3 Hf0) as [Hr0 Hq].
      apply Z.div_unique with (r := 0); lia.
    + destruct F4 as [F4 F5]; [lia|].
      assert (Hlow : k * P < m2).
      { destruct (Z.eq_dec q (k * (2 * P) + 1)) as [Hq1|Hq1]; [|lia].
        specialize (F5 Hq1). lia. }
      apply Z.div_unique with (r := (k + 1) * P - m2); lia.
Qed.

Lemma round_after_shift (q : Z) (l : location) :
  0 <= q ->
  let m2 := round_nearest_even (Z.div2 q)
              (loc_of_shr_record (shr_1 (shr_record_of_loc q l))) in
  (m2 = Z.div2 q \/ (m2 = Z.div2 q + 1 /\ Z.odd q = true))
  /\ (Z.odd q = true -> l <> loc_Exact -> m2 = Z.div2 q + 1).
Proof.
  intros Hq.
  destruct l as [|[]]; cbn [shr_record_of_loc];
    rewrite shr_1_div2 by assumption;
    destruct (Z.odd q); cbn;
    try destruct (Z.even (Z.div2 q)); split; auto; try discriminate;
    intros _ H; now elim H.
Qed.

Lemma floor_finite (s : bool) (m : positive) (e : Z) :
  e < 0 ->
  floor (S754_finite s m e)
  = binary_normalize prec emax (cond_Zopp s (Zpos m) / 2 ^ (- e)) 0 s.
Proof.
  intros He. unfold floor.
  destruct (Z.leb_spec 0 e); [lia|reflexivity].
Qed.

Lemma binary_normalize_ofZ (z : Z) (s : bool) :
  (z = 0 -> s = false) -> binary_normalize prec emax z 0 s = ofZ z.
Proof.
  intros H. destruct z; try reflexivity. now rewrite H.
Qed.

Lemma div_pow2_rescale (x e e3 : Z) :
  e <= e3 -> e3 < 0 -> x / 2 ^ (- e3) = (x * 2 ^ (e3 - e)) / 2 ^ (- e).
Proof.
  intros H1 H2.
  replace (- e) with (- e3 + (e3 - e)) by lia.
  rewrite Z.pow_add_r by lia.
  rewrite Z.div_mul_cancel_r; [reflexivity| |];
    apply Z.pow_nonzero; lia.
Qed.

(** [Math.floor(h / 900)] is the integer quotient, for every integer [h]
    of magnitude below [2 ^ 53]. *)
Lemma floor_div_900 (h : Z) :
  Z.abs h < 2 ^ 53 -> floor (div (ofZ h) (ofZ 900)) = ofZ (h / 900).
Proof.
  intros Hlt. destruct (Z.eq_dec h 0) as [->|Hh]; [reflexivity|].
  rewrite (ofZ_safe h), ofZ_900 by assumption.
  unfold div. cbn [SFdiv].
  pose proof (SFdiv_core_900 h Hh Hlt) as Hcore. cbv zeta in Hcore.
  rewrite Hcore. clear Hcore. rewrite xorb_false_r.
  pose proof (exponent_safe h Hh Hlt) as HE.
  destruct (mantissa_spec h Hh Hlt) as [HM HlogM].
  set (t := 10 - exponent h).
  set (a := Z.abs h).
  set (q := (a * 2 ^ t) / 900).
  set (r := (a * 2 ^ t) mod 900).
  set (l := if r =? 0 then loc_Exact else loc_Inexact (2 * r ?= 900)).
  set (s := h <? 0).
  assert (HN : a * 2 ^ t = Zpos (mantissa h) * 2 ^ 10).
  { rewrite HM. unfold t, a.
    replace (52 - Z.log2 (Z.abs h)) with (- exponent h) by (unfold exponent; lia).
    replace (10 - exponent h) with (- exponent h + 10) by lia.
    rewrite Z.pow_add_r by lia. lia. }
  assert (HMb : 2 ^ 52 <= Zpos (mantissa h) < 2 ^ 53).
  { pose proof (Z.log2_spec (Zpos (mantissa h)) ltac:(lia)) as Hs.
    rewrite HlogM in Hs. exact Hs. }
  assert (Hq : 2 ^ 52 <= q < 2 ^ 54).
  { unfold q. rewrite HN. split.
    - apply Z.div_le_lower_bound; lia.
    - apply Z.div_lt_upper_bound; lia. }
  assert (Hgoal : forall (m3 : positive) (e3 e2 m2 : Z),
             e2 <= e3 -> e3 < 0 ->
             Zpos m3 * 2 ^ (e3 - e2) = m2 ->
             m2 / 2 ^ (- e2) = a / 900 /\ (- m2) / 2 ^ (- e2) = (- a) / 900 ->
             floor (S754_finite s m3 e3) = ofZ (h / 900)).
  { intros m3 e3 e2 m2 H1 H2 H3 [H4 H5].
    rewrite floor_finite by assumption.
    rewrite (div_pow2_rescale _ e2 e3) by assumption.
    assert (Hdiv : cond_Zopp s (Zpos m3) * 2 ^ (e3 - e2) / 2 ^ (- e2) = h / 900).
    { unfold s, cond_Zopp. destruct (Z.ltb_spec h 0).
      - rewrite Z.mul_opp_l, H3, H5. unfold a. f_equal. lia.
      - rewrite H3, H4. unfold a. f_equal. lia. }
    rewrite Hdiv. apply binary_normalize_ofZ.
    unfold s. intros H0. apply Z.ltb_ge.
    destruct (Z.lt_ge_cases h 0) as [Hneg|]; [|lia].
    assert (h / 900 < 0) by (apply Z.div_lt_upper_bound; lia). lia. }
  destruct (Z.lt_ge_cases q (2 ^ 53)) as [Hq53|Hq54].
  - destruct (round_aux_53 s q (exponent h - 10) l) as (m3 & e3 & -> & He3 & Hval);
      [lia|lia|].
    apply (Hgoal m3 e3 (exponent h - 10) (round_nearest_even q l)); try lia.
    replace (- (exponent h - 10)) with t by (unfold t; lia).
    apply floor_rounded_53; try (unfold a, t; lia).
    + apply round_nearest_even_bounds.
    + fold r. intros Hr. unfold l. now rewrite Hr.
  - destruct (round_aux_54 s q (exponent h - 10) l) as (m3 & e3 & -> & He3 & Hval);
      [lia|lia|].
    eapply (Hgoal m3 e3 (exponent h - 10 + 1)); [lia|lia|exact Hval|].
    + replace (- (exponent h - 10 + 1)) with (t - 1) by (unfold t; lia).
      destruct (round_after_shift q l ltac:(lia)) as [R1 R2].
      apply floor_rounded_54; try (unfold a, t; lia).
      * exact R1.
      * fold q r. intros Ho Hr. apply R2; [exact Ho|].
        unfold l. destruct (Z.eqb_spec r 0); [contradiction|discriminate].
Qed.

(** *** Shape of a rounded result in general *)

Lemma shr_m_shr_1 (mrs : shr_record) :
  0 <= shr_m mrs -> shr_m (shr_1 mrs) = Z.div2 (shr_m mrs).
Proof.
  destruct mrs as [m r b]. cbn [shr_m]. intros Hm.
  now rewrite shr_1_div2.
Qed.

Lemma shr_m_iter (n : positive) (mrs : shr_record) :
  0 <= shr_m mrs ->
  shr_m (iter_pos shr_1 n mrs) = shr_m mrs / 2 ^ Zpos n.
Proof.
  intros Hm. rewrite iter_pos_iter. revert mrs Hm.
  induction n as [|n IH] using Pos.peano_ind; intros mrs Hm.
  - cbn [Pos.iter]. rewrite shr_m_shr_1, Z.div2_div by assumption. reflexivity.
  - rewrite Pos.iter_succ, shr_m_shr_1.
    + rewrite IH, Z.div2_div, Pos2Z.inj_succ, Z.pow_succ_r by lia.
      rewrite Z.div_div by (try apply Z.pow_pos_nonneg; lia).
      f_equal. lia.
    + rewrite IH by assumption. apply Z.div_pos; [assumption|].
      apply Z.pow_pos_nonneg; lia.
Qed.

Lemma Zdigits2_nonneg (m : Z) : 0 <= Zdigits2 m.
Proof. destruct m; cbn; lia. Qed.

Lemma Zdigits2_bound (m : Z) : 0 <= m -> m < 2 ^ Zdigits2 m.
Proof.
  intros Hm. destruct (Z.eq_dec m 0) as [->|Hne]; [reflexivity|].
  rewrite Zdigits2_log2 by lia.
  apply (Z.log2_spec m). lia.
Qed.

Lemma Zdigits2_le (m d : Z) : 0 <= m -> 0 <= d -> m < 2 ^ d -> Zdigits2 m <= d.
Proof.
  intros Hm Hd Hlt. destruct (Z.eq_dec m 0) as [->|Hne]; [exact Hd|].
  rewrite Zdigits2_log2 by lia.
  assert (Z.log2 m < d) by (apply Z.log2_lt_pow2; lia). lia.
Qed.

Lemma fexp_ge_emin (e : Z) : -1074 <= fexp prec emax e.
Proof. unfold fexp, SpecFloat.emin, prec, emax. lia. Qed.

Lemma fexp_spec (e : Z) : fexp prec emax e = Z.max (e - 53) (-1074).
Proof. reflexivity. Qed.

(** The first normalization divides the mantissa by a power of two and
    leaves it below [2 ^ 53], at the exponent
    [max ex (fexp (digits + ex))]. *)
Lemma shr_fexp_bounded (mx ex : Z) (l : location) :
  0 <= mx ->
  let '(mrs, e) := shr_fexp prec emax mx ex l in
  0 <= shr_m mrs < 2 ^ 53
  /\ e = Z.max ex (fexp prec emax (Zdigits2 mx + ex))
  /\ shr_m mrs = mx / 2 ^ (e - ex).
Proof.
  intros Hm. unfold shr_fexp, shr.
  pose proof (Zdigits2_bound mx Hm) as Hb.
  pose proof (Zdigits2_nonneg mx) as Hd.
  set (d := Zdigits2 mx) in *.
  destruct (loc_of_shr_record_of_loc mx l) as [_ Hrec].
  rewrite fexp_spec.
  destruct (Z.max (d + ex - 53) (-1074) - ex) as [|n|n] eqn:Hn.
  - rewrite Hrec. split; [split; [exact Hm|]|split; [lia|]].
    + apply Z.lt_le_trans with (2 ^ d); [exact Hb|].
      apply Z.pow_le_mono_r; lia.
    + rewrite Z.sub_diag, Z.pow_0_r. symmetry. apply Z.div_1_r.
  - rewrite shr_m_iter by (rewrite Hrec; exact Hm). rewrite Hrec.
    assert (Hp : 0 < 2 ^ Zpos n) by (apply Z.pow_pos_nonneg; lia).
    assert (Hq : 0 <= mx / 2 ^ Zpos n) by (apply Z.div_pos; lia).
    split; [split; [exact Hq|]|split; [lia|]].
    + apply Z.div_lt_upper_bound; [exact Hp|].
      apply Z.lt_le_trans with (2 ^ d); [exact Hb|].
      rewrite <- Z.pow_add_r by lia. apply Z.pow_le_mono_r; lia.
    + do 2 f_equal. lia.
  - rewrite Hrec. split; [split; [exact Hm|]|split; [lia|]].
    + apply Z.lt_le_trans with (2 ^ d); [exact Hb|].
      apply Z.pow_le_mono_r; lia.
    + rewrite Z.sub_diag, Z.pow_0_r. symmetry. apply Z.div_1_r.
Qed.

(** The second normalization, in general: a mantissa of at most
    [2 ^ 53] at an exponent of at least [emin]. *)
Lemma shr_fexp_carry (m2 e1 : Z) :
  0 <= m2 <= 2 ^ 53 -> -1074 <= e1 ->
  shr_fexp prec emax m2 e1 loc_Exact
  = if m2 =? 2 ^ 53
    then (Build_shr_record (2 ^ 52) false false, e1 + 1)
    else (Build_shr_record m2 false false, e1).
Proof.
  intros Hm He. unfold shr_fexp. rewrite fexp_spec.
  destruct (Z.eqb_spec m2 (2 ^ 53)) as [->|Hne].
  - change (Zdigits2 (2 ^ 53)) with 54.
    replace (Z.max (54 + e1 - 53) (-1074) - e1) with 1 by lia.
    reflexivity.
  - pose proof (Zdigits2_le m2 53 ltac:(lia) ltac:(lia) ltac:(lia)) as Hd.
    pose proof (Zdigits2_nonneg m2).
    cbn [shr_record_of_loc]. unfold shr.
    destruct (Z.max (Zdigits2 m2 + e1 - 53) (-1074) - e1) eqn:Hn;
      try reflexivity; lia.
Qed.

(** A rounded non-negative mantissa is never NaN, keeps its sign, has a
    mantissa below [2 ^ 53] that is the shifted input mantissa or its
    successor, is zero only if the first shift empties the mantissa, and
    overflows only from a large exponent. *)
Lemma binary_round_aux_shape (s : bool) (mx ex : Z) (l : location) :
  0 <= mx ->
  let E := Z.max ex (fexp prec emax (Zdigits2 mx + ex)) in
  match binary_round_aux prec emax s mx ex l with
  | S754_zero s' => s' = s /\ mx < 2 ^ (E - ex)
  | S754_finite s' m e =>
      s' = s /\ Zpos m < 2 ^ 53 /\ E <= e <= E + 1 /\ e <= 971
      /\ mx / 2 ^ (E - ex) <= Zpos m * 2 ^ (e - E) <= mx / 2 ^ (E - ex) + 1
      /\ (e = E \/ Zpos m = 2 ^ 52)
  | S754_infinity s' => s' = s /\ 971 <= E
  | S754_nan => False
  end.
Proof.
  intros Hm E. unfold binary_round_aux.
  pose proof (shr_fexp_bounded mx ex l Hm) as Hb.
  destruct (shr_fexp prec emax mx ex l) as [mrs e1].
  destruct Hb as (Hm1 & He1 & Hv). fold E in He1.
  pose proof (round_nearest_even_bounds (shr_m mrs) (loc_of_shr_record mrs)) as Hr.
  set (m2 := round_nearest_even (shr_m mrs) (loc_of_shr_record mrs)) in *.
  pose proof (fexp_ge_emin (Zdigits2 mx + ex)) as Hmin.
  rewrite shr_fexp_carry by lia.
  destruct (Z.eqb_spec m2 (2 ^ 53)) as [Heq|Hne]; cbn [shr_m].
  - change (2 ^ 52) with (Zpos (Z.to_pos (2 ^ 52))). cbv iota.
    destruct (Z.leb_spec (e1 + 1) (emax - prec)) as [Hle|Hgt];
      unfold emax, prec in *.
    + split; [reflexivity|]. split; [reflexivity|].
      split; [lia|]. split; [lia|].
      replace (e1 + 1 - E) with 1 by lia.
      change (Zpos (Z.to_pos (2 ^ 52)) * 2 ^ 1) with (2 ^ 53).
      subst e1. split; [lia|]. right. reflexivity.
    + split; [reflexivity|lia].
  - destruct m2 as [|p|p] eqn:Hm2; try lia.
    + split; [reflexivity|].
      assert (H0 : mx / 2 ^ (e1 - ex) = 0) by lia.
      assert (Hp : 0 < 2 ^ (e1 - ex)) by (apply Z.pow_pos_nonneg; lia).
      apply Z.div_small_iff in H0; [|lia]. subst e1. lia.
    + destruct (Z.leb_spec e1 (emax - prec)) as [Hle|Hgt];
        unfold emax, prec in *.
      * split; [reflexivity|]. split; [lia|]. split; [lia|]. split; [lia|].
        replace (e1 - E) with 0 by lia. rewrite Z.pow_0_r, Z.mul_1_r.
        subst e1. split; [lia|]. left. reflexivity.
      * split; [reflexivity|lia].
Qed.

(** *** Signs and magnitudes of the operations *)

Lemma shl_align_spec (mx : positive) (ex ex' : Z) :
  let '(mz, ez) := shl_align mx ex ex' in
  ez = Z.min ex ex' /\ Zpos mz = Zpos mx * 2 ^ (ex - ez).
Proof.
  unfold shl_align. destruct (ex' - ex) as [|d|d] eqn:Hd.
  - split; [lia|]. rewrite Z.sub_diag. lia.
  - split; [lia|]. rewrite Z.sub_diag. lia.
  - split; [lia|]. rewrite iter_xO_pow2. do 2 f_equal. lia.
Qed.

Lemma Zdigits2_mul_pow2 (m k : Z) :
  0 < m -> 0 <= k -> Zdigits2 (m * 2 ^ k) = Zdigits2 m + k.
Proof.
  intros Hm Hk.
  assert (0 < m * 2 ^ k) by (apply Z.mul_pos_pos; [lia|apply Z.pow_pos_nonneg; lia]).
  rewrite !Zdigits2_log2, Z.log2_mul_pow2 by lia. lia.
Qed.

Lemma Zdigits2_lower (m : Z) : 0 < m -> 2 ^ (Zdigits2 m - 1) <= m.
Proof.
  intros Hm. rewrite Zdigits2_log2 by lia.
  replace (Z.log2 m + 1 - 1) with (Z.log2 m) by lia.
  apply (Z.log2_spec m Hm).
Qed.

(** Rounding a mantissa of at least 53 bits in the normal range gives a
    normal number whose mantissa is the truncated input or its
    successor. *)
Lemma binary_round_aux_normal (s : bool) (mx ex : Z) (l : location) :
  0 < mx -> 53 <= Zdigits2 mx ->
  -1074 <= Zdigits2 mx + ex - 53 <= 970 ->
  let n := Zdigits2 mx - 53 in
  exists (m : positive) (e m2 : Z),
    binary_round_aux prec emax s mx ex l = S754_finite s m e
    /\ 2 ^ 52 <= Zpos m < 2 ^ 53
    /\ ex + n <= e <= ex + n + 1
    /\ Zpos m * 2 ^ (e - (ex + n)) = m2
    /\ 2 ^ 52 <= mx / 2 ^ n
    /\ mx / 2 ^ n <= m2 <= mx / 2 ^ n + 1.
Proof.
  intros Hm Hd Hr n.
  pose proof (binary_round_aux_shape s mx ex l ltac:(lia)) as Hs.
  cbv zeta in Hs. rewrite fexp_spec in Hs.
  replace (Z.max ex (Z.max (Zdigits2 mx + ex - 53) (-1074))) with (ex + n) in Hs
    by (unfold n; lia).
  replace (ex + n - ex) with n in Hs by lia.
  pose proof (Zdigits2_lower mx Hm) as Hlow.
  assert (Hn : 0 <= n) by (unfold n; lia).
  assert (Hp : 0 < 2 ^ n) by (apply Z.pow_pos_nonneg; lia).
  assert (Hsplit : 2 ^ (Zdigits2 mx - 1) = 2 ^ 52 * 2 ^ n).
  { rewrite <- Z.pow_add_r by lia. f_equal. unfold n. lia. }
  assert (Hm1 : 2 ^ 52 <= mx / 2 ^ n).
  { apply Z.div_le_lower_bound; lia. }
  destruct (binary_round_aux prec emax s mx ex l) as [s'|s'| |s' m e].
  - destruct Hs as [_ Hs]. exfalso. lia.
  - lia.
  - contradiction.
  - destruct Hs as (-> & Hlt & He & _ & Hv & Hc).
    exists m, e, (Zpos m * 2 ^ (e - (ex + n))).
    split; [reflexivity|]. split.
    + split; [|exact Hlt]. destruct Hc as [->|Hc]; [|lia].
      rewrite Z.sub_diag, Z.pow_0_r, Z.mul_1_r in Hv. lia.
    + repeat split; try lia.
Qed.

(** [Number(z)] of a positive bigint below [2 ^ k]. *)
Lemma ofZ_posFinite (z k : Z) :
  0 < z < 2 ^ k -> k <= 1023 -> posFinite (-52) (k - 52) (ofZ z).
Proof.
  intros Hz Hk. destruct z as [|p|p]; try lia.
  assert (Hk0 : 0 <= k).
  { destruct (Z.lt_ge_cases k 0) as [Hneg|]; [|assumption].
    rewrite Z.pow_neg_r in Hz by assumption. lia. }
  unfold ofZ, binary_normalize, binary_round.
  pose proof (shl_align_spec p 0 (fexp prec emax (Zpos (digits2_pos p) + 0))) as Hal.
  destruct (shl_align p 0 (fexp prec emax (Zpos (digits2_pos p) + 0))) as [mz ez].
  destruct Hal as [Hez Hmz].
  change (Zpos (digits2_pos p)) with (Zdigits2 (Zpos p)) in Hez.
  pose proof (Zdigits2_le (Zpos p) k ltac:(lia) ltac:(lia) ltac:(lia)) as Hdk.
  assert (Hd1 : 1 <= Zdigits2 (Zpos p)) by (cbn; lia).
  rewrite fexp_spec in Hez.
  assert (Hdz : Zdigits2 (Zpos mz) + ez = Zdigits2 (Zpos p)).
  { rewrite Hmz, Zdigits2_mul_pow2 by lia. lia. }
  pose proof (binary_round_aux_shape false (Zpos mz) ez loc_Exact ltac:(lia)) as Hs.
  cbv zeta in Hs. rewrite Hdz, fexp_spec in Hs.
  pose proof (Zdigits2_lower (Zpos mz) ltac:(lia)) as Hlow.
  destruct (binary_round_aux prec emax false (Zpos mz) ez loc_Exact) as [s'|s'| |s' m e].
  - destruct Hs as [_ Hs]. exfalso.
    assert (2 ^ (Z.max ez (Z.max (Zdigits2 (Zpos p) - 53) (-1074)) - ez)
            <= 2 ^ (Zdigits2 (Zpos mz) - 1))
      by (apply Z.pow_le_mono_r; lia).
    lia.
  - lia.
  - contradiction.
  - destruct Hs as (-> & Hm & He & _). exists m, e. repeat split; lia.
Qed.

Lemma ofZ_sign (z : Z) : 0 <= z -> isNonNegative (ofZ z) = true.
Proof.
  intros Hz. destruct z as [|p|p]; try lia; [reflexivity|].
  unfold ofZ, binary_normalize, binary_round.
  destruct (shl_align p 0 _) as [mz ez].
  pose proof (binary_round_aux_shape false (Zpos mz) ez loc_Exact ltac:(lia)) as Hs.
  destruct (binary_round_aux prec emax false (Zpos mz) ez loc_Exact);
    cbn; try (destruct Hs as [-> _]; reflexivity). contradiction.
Qed.

(** The quotient mantissa computed by the division. *)
Lemma SFdiv_core_shape (m1 m2 : positive) (e1 e2 : Z) :
  let '(q, e', l) := SFdiv_core_binary prec emax (Zpos m1) e1 (Zpos m2) e2 in
  0 <= q /\ e' <= e1 - e2
  /\ Zdigits2 q + e' <= Zdigits2 (Zpos m1) + e1 - e2
  /\ q = (Zpos m1 * 2 ^ (e1 - e2 - e')) / Zpos m2
  /\ e' = Z.min (fexp prec emax (Zdigits2 (Zpos m1) + e1
                                 - (Zdigits2 (Zpos m2) + e2)))
                (e1 - e2).
Proof.
  unfold SFdiv_core_binary.
  set (e' := Z.min _ _).
  assert (He' : e' <= e1 - e2) by (unfold e'; lia).
  set (m' := match e1 - e2 - e' with
             | 0 => Zpos m1
             | Zpos _ => IntDef.Z.shiftl (Zpos m1) (e1 - e2 - e')
             | Zneg _ => 0
             end).
  assert (Hm' : m' = Zpos m1 * 2 ^ (e1 - e2 - e')).
  { unfold m'. destruct (e1 - e2 - e') as [|k|k] eqn:Hk; try lia.
    change (IntDef.Z.shiftl (Zpos m1) (Zpos k)) with (Z.shiftl (Zpos m1) (Zpos k)).
    now rewrite Z.shiftl_mul_pow2 by lia. }
  change IntDef.Z.div_eucl with Z.div_eucl.
  pose proof (Z_div_mod m' (Zpos m2) ltac:(lia)) as Hdm.
  assert (Hq : fst (Z.div_eucl m' (Zpos m2)) = m' / Zpos m2) by reflexivity.
  destruct (Z.div_eucl m' (Zpos m2)) as [q r]. cbn [fst] in Hq.
  assert (Hp : 0 < 2 ^ (e1 - e2 - e')) by (apply Z.pow_pos_nonneg; lia).
  assert (Hm'pos : 0 < m') by (rewrite Hm'; lia).
  assert (Hq0 : 0 <= q) by (rewrite Hq; apply Z.div_pos; lia).
  assert (Hqle : q <= m').
  { rewrite Hq. apply Z.div_le_upper_bound; nia. }
  repeat split; try lia.
  - assert (Zdigits2 q <= Zdigits2 (Zpos m1) + (e1 - e2 - e')); [|lia].
    apply Zdigits2_le; try lia.
    + pose proof (Zdigits2_nonneg (Zpos m1)). lia.
    + rewrite <- Zdigits2_mul_pow2, <- Hm' by lia.
      pose proof (Zdigits2_bound m' ltac:(lia)). lia.
  - rewrite Hq, Hm'. reflexivity.
Qed.

Lemma posFinite_isPosFinite (lo hi : Z) (x : number) :
  posFinite lo hi x -> isPosFinite x = true.
Proof. now intros (m & e & -> & _). Qed.

Lemma binary_round_aux_notNegative (q e : Z) (l : location) :
  0 <= q -> notNegative (binary_round_aux prec emax false q e l) = true.
Proof.
  intros Hq.
  pose proof (binary_round_aux_shape false q e l Hq) as Hs.
  destruct (binary_round_aux prec emax false q e l);
    cbn; try (destruct Hs as [-> _]; reflexivity). reflexivity.
Qed.

Lemma binary_round_aux_isNonNegative (q e : Z) (l : location) :
  0 <= q -> isNonNegative (binary_round_aux prec emax false q e l) = true.
Proof.
  intros Hq.
  pose proof (binary_round_aux_shape false q e l Hq) as Hs.
  destruct (binary_round_aux prec emax false q e l);
    cbn; try (destruct Hs as [-> _]; reflexivity). contradiction.
Qed.

Lemma div_sign (x y : number) :
  isNonNegative x = true -> isPosFinite y = true ->
  isNonNegative (div x y) = true.
Proof.
  intros Hx Hy.
  destruct y as [| | |[] m2 e2]; try discriminate.
  destruct x as [[]|[]| |[] m1 e1]; try discriminate; try reflexivity.
  unfold div. cbn [SFdiv].
  pose proof (SFdiv_core_shape m1 m2 e1 e2) as Hc.
  destruct (SFdiv_core_binary prec emax (Zpos m1) e1 (Zpos m2) e2) as [[q e'] l].
  destruct Hc as (Hq & _).
  now apply binary_round_aux_isNonNegative.
Qed.

Lemma mul_sign (x y : number) :
  isNonNegative x = true -> isPosFinite y = true ->
  isNonNegative (mul x y) = true.
Proof.
  intros Hx Hy.
  destruct y as [| | |[] m2 e2]; try discriminate.
  destruct x as [[]|[]| |[] m1 e1]; try discriminate; try reflexivity.
  unfold mul. cbn [SFmul].
  apply binary_round_aux_isNonNegative. lia.
Qed.

Lemma div_notNegative (x y : number) :
  notNegative x = true -> notNegative y = true ->
  notNegative (div x y) = true.
Proof.
  intros Hx Hy.
  destruct x as [[]|[]| |[] m1 e1]; try discriminate;
    destruct y as [[]|[]| |[] m2 e2]; try discriminate; try reflexivity.
  unfold div. cbn [SFdiv].
  pose proof (SFdiv_core_shape m1 m2 e1 e2) as Hc.
  destruct (SFdiv_core_binary prec emax (Zpos m1) e1 (Zpos m2) e2) as [[q e'] l].
  destruct Hc as (Hq & _).
  now apply binary_round_aux_notNegative.
Qed.

Lemma mul_notNegative (x y : number) :
  notNegative x = true -> notNegative y = true ->
  notNegative (mul x y) = true.
Proof.
  intros Hx Hy.
  destruct x as [[]|[]| |[] m1 e1]; try discriminate;
    destruct y as [[]|[]| |[] m2 e2]; try discriminate; try reflexivity.
  unfold mul. cbn [SFmul].
  apply binary_round_aux_notNegative. lia.
Qed.

Lemma binary_normalize_notNegative (z : Z) :
  0 <= z -> notNegative (binary_normalize prec emax z 0 false) = true.
Proof.
  intros Hz. destruct z as [|p|p]; try lia; [reflexivity|].
  unfold binary_normalize, binary_round.
  destruct (shl_align p 0 _) as [mz ez].
  apply binary_round_aux_notNegative. lia.
Qed.

Lemma floor_notNegative (x : number) :
  notNegative x = true -> notNegative (floor x) = true.
Proof.
  intros Hx. destruct x as [[]|[]| |[] m e]; try discriminate; try reflexivity.
  unfold floor. destruct (Z.leb_spec 0 e); [reflexivity|].
  apply binary_normalize_notNegative. unfold cond_Zopp.
  apply Z.div_pos; [lia|]. apply Z.pow_pos_nonneg; lia.
Qed.

Lemma toBigInt_notNegative (x : number) (y : Z) :
  notNegative x = true -> toBigInt x = Ok y -> 0 <= y.
Proof.
  intros Hx. destruct x as [[]|[]| |[] m e]; try discriminate.
  - intros [= <-]. lia.
  - unfold toBigInt. change (cond_Zopp false (Zpos m)) with (Zpos m).
    destruct (Z.leb_spec 0 e).
    + assert (Hnn : 0 <= Zpos m * 2 ^ e)
        by (apply Z.mul_nonneg_nonneg; [lia|apply Z.pow_nonneg; lia]).
      intros [= <-]. exact Hnn.
    + assert (Hnn : 0 <= Zpos m / 2 ^ (- e))
        by (apply Z.div_pos; [lia|apply Z.pow_pos_nonneg; lia]).
      destruct (_ =? 0); [|discriminate]. intros [= <-]. exact Hnn.
Qed.

(** An infinite or NaN value never converts to a bigint, floored or not. *)
Lemma toBigInt_floor_not_finite (x : number) :
  match x with S754_infinity _ | S754_nan => True | _ => False end ->
  returns (toBigInt (floor x)) = false.
Proof. destruct x; try contradiction; reflexivity. Qed.

(** [Number(z)] of a positive bigint is positive: finite or infinite. *)
Lemma ofZ_positive (z : Z) :
  0 < z -> isPosFinite (ofZ z) = true \/ ofZ z = S754_infinity false.
Proof.
  intros Hz. destruct z as [|p|p]; try lia.
  unfold ofZ, binary_normalize, binary_round.
  pose proof (shl_align_spec p 0 (fexp prec emax (Zpos (digits2_pos p) + 0))) as Hal.
  destruct (shl_align p 0 (fexp prec emax (Zpos (digits2_pos p) + 0))) as [mz ez].
  destruct Hal as [Hez Hmz].
  change (Zpos (digits2_pos p)) with (Zdigits2 (Zpos p)) in Hez.
  assert (Hd1 : 1 <= Zdigits2 (Zpos p)) by (cbn; lia).
  rewrite fexp_spec in Hez.
  assert (Hdz : Zdigits2 (Zpos mz) + ez = Zdigits2 (Zpos p)).
  { rewrite Hmz, Zdigits2_mul_pow2 by lia. lia. }
  pose proof (binary_round_aux_shape false (Zpos mz) ez loc_Exact ltac:(lia)) as Hs.
  cbv zeta in Hs. rewrite Hdz, fexp_spec in Hs.
  pose proof (Zdigits2_lower (Zpos mz) ltac:(lia)) as Hlow.
  destruct (binary_round_aux prec emax false (Zpos mz) ez loc_Exact) as [s'|s'| |s' m e].
  - destruct Hs as [_ Hs]. exfalso.
    assert (2 ^ (Z.max ez (Z.max (Zdigits2 (Zpos p) - 53) (-1074)) - ez)
            <= 2 ^ (Zdigits2 (Zpos mz) - 1))
      by (apply Z.pow_le_mono_r; lia).
    lia.
  - destruct Hs as [-> _]. now right.
  - contradiction.
  - destruct Hs as (-> & _). now left.
Qed.

Lemma isNonNegative_notNegative (x : number) :
  isNonNegative x = true -> notNegative x = true.
Proof. destruct x; cbn; auto. Qed.

Lemma div_bounded (x y : number) (lo1 hi1 lo2 hi2 : Z) :
  posFinite lo1 hi1 x -> posFinite lo2 hi2 y ->
  -1074 <= hi1 - lo2 <= 970 ->
  nonNegFinite (hi1 - lo2 + 1) (div x y).
Proof.
  intros (m1 & e1 & -> & Hm1 & He1) (m2 & e2 & -> & Hm2 & He2) Hb.
  unfold div. cbn [SFdiv xorb].
  pose proof (SFdiv_core_shape m1 m2 e1 e2) as Hc.
  destruct (SFdiv_core_binary prec emax (Zpos m1) e1 (Zpos m2) e2) as [[q e'] l].
  destruct Hc as (Hq & He' & Hd & _).
  pose proof (Zdigits2_le (Zpos m1) 53 ltac:(lia) ltac:(lia) Hm1) as Hd1.
  pose proof (binary_round_aux_shape false q e' l Hq) as Hs. cbv zeta in Hs.
  rewrite fexp_spec in Hs.
  destruct (binary_round_aux prec emax false q e' l) as [s'|s'| |s' m e].
  - destruct Hs as [-> _]. now left.
  - lia.
  - contradiction.
  - destruct Hs as (-> & Hm & He & _). right. exists m, e. repeat split; lia.
Qed.

Lemma mul_bounded (x y : number) (hi1 hi2 : Z) :
  nonNegFinite hi1 x -> nonNegFinite hi2 y ->
  -1127 <= hi1 + hi2 <= 917 ->
  nonNegFinite (hi1 + hi2 + 54) (mul x y).
Proof.
  intros [->|(m1 & e1 & -> & Hm1 & He1)] [->|(m2 & e2 & -> & Hm2 & He2)] Hb;
    try (left; reflexivity).
  unfold mul. cbn [SFmul xorb].
  pose proof (binary_round_aux_shape false (Zpos (m1 * m2)) (e1 + e2)
                loc_Exact ltac:(lia)) as Hs. cbv zeta in Hs.
  rewrite fexp_spec in Hs.
  assert (Hd : Zdigits2 (Zpos (m1 * m2)) <= 106).
  { apply Zdigits2_le; try lia. rewrite Pos2Z.inj_mul.
    change (2 ^ 106) with (2 ^ 53 * 2 ^ 53). nia. }
  destruct (binary_round_aux prec emax false (Zpos (m1 * m2)) (e1 + e2) loc_Exact)
    as [s'|s'| |s' m e].
  - destruct Hs as [-> _]. now left.
  - lia.
  - contradiction.
  - destruct Hs as (-> & Hm & He & _). right. exists m, e. repeat split; lia.
Qed.

Lemma floor_toBigInt (x : number) (hi : Z) :
  nonNegFinite hi x -> exists y, toBigInt (floor x) = Ok y.
Proof.
  intros [->|(m & e & -> & Hm & He)]; [now exists 0|].
  unfold floor. destruct (Z.leb_spec 0 e) as [H0|H0].
  - unfold toBigInt. destruct (Z.leb_spec 0 e); [|lia]. eauto.
  - change (binary_normalize prec emax (cond_Zopp false (Zpos m) / 2 ^ (- e)) 0 false)
      with (ofZ (Zpos m / 2 ^ (- e))).
    eexists. apply toBigInt_ofZ.
    assert (0 < 2 ^ (- e)) by (apply Z.pow_pos_nonneg; lia).
    assert (0 <= Zpos m / 2 ^ (- e)) by (apply Z.div_pos; lia).
    assert (Zpos m / 2 ^ (- e) <= Zpos m) by (apply Z.div_le_upper_bound; nia).
    lia.
Qed.

End Binary64.

Example formatEther_examples :
  EthersModel.formatEther 1000000000000000000 = "1.0"
  /\ EthersModel.formatEther 0 = "0.0"
  /\ EthersModel.formatEther 39420000000000000000 = "39.42"
  /\ EthersModel.formatUnits 1000000000 9 = "1.0"
  /\ EthersModel.formatEther (-1500000000000000000) = "-1.5".
Proof. repeat split. Qed.

Example parseUnits_examples :
  EthersModel.parseUnits "1" 18 = Ok 1000000000000000000
  /\ EthersModel.parseUnits "0.5" 18 = Ok 500000000000000000
  /\ EthersModel.parseUnits "1" 9 = Ok 1000000000
  /\ EthersModel.parseUnits "0.000000000000000001" 18 = Ok 1
  /\ EthersModel.parseUnits "0.25" 18 = Ok rewardPerBlock
  /\ EthersModel.parseUnits "abc" 18 = Throw (Error "invalid FixedNumber string value")
  /\ EthersModel.parseUnits "" 18 = Throw (Error "invalid FixedNumber string value")
  /\ EthersModel.parseUnits "1.0000000001" 9 = Throw (Error "too many decimals for format").
Proof. repeat split. Qed.

Example toFixed_examples :
  toFixedModel (div (ofZ 3942) (ofZ 10000)) 2 = "0.39"
  /\ toFixedModel (ofZ 0) 2 = "0.00"
  /\ toFixedModel (div (ofZ 5) (ofZ 2)) 0 = "3"
  /\ toFixedModel (div (ofZ (-1)) (ofZ 8)) 2 = "-0.13".
Proof. repeat split. Qed.

(** ** Arrays and the candidate list *)

Section Arrays.

Context {A : Type}.

Lemma Array_slice_prefix (n : nat) (a : list A) :
  Array_slice 0 n a = firstn n a.
Proof. unfold Array_slice. now rewrite Nat.sub_0_r. Qed.

Lemma Array_slice_length (n : nat) (a : list A) :
  List.length (Array_slice 0 n a) = Nat.min (List.length a) n.
Proof. rewrite Array_slice_prefix, length_firstn. apply Nat.min_comm. Qed.

Lemma In_firstn_nth_error (n : nat) (a : list A) (x : A) :
  In x (firstn n a) <-> exists j, (j < n)%nat /\ nth_error a j = Some x.
Proof.
  revert a; induction n as [|n IH]; intros a.
  - simpl. split; [tauto|]. intros (j & Hj & _). lia.
  - destruct a as [|y a]; simpl.
    + split; [tauto|]. intros (j & _ & Hj). now destruct j.
    + rewrite IH. split.
      * intros [->|(j & Hj & Hn)].
        -- exists 0%nat. split; [lia|reflexivity].
        -- exists (S j). split; [lia|exact Hn].
      * intros ([|j] & Hj & Hn); simpl in Hn.
        -- left. congruence.
        -- right. exists j. split; [lia|exact Hn].
Qed.

End Arrays.

Lemma Array_includes_In (x : string) (a : list string) :
  Array_includes x a = true <-> In x a.
Proof.
  unfold Array_includes. rewrite existsb_exists. split.
  - intros (y & Hy & He). apply String.eqb_eq in He. now subst.
  - intros H. exists x. split; [exact H|apply String.eqb_refl].
Qed.

Lemma mapM_length {A B : Type} (f : A -> result B) (l : list A) (r : list B) :
  mapM f l = Ok r -> List.length r = List.length l.
Proof.
  revert r; induction l as [|a l IH]; intros r; simpl.
  - intros [= <-]. reflexivity.
  - destruct (f a); simpl; [|discriminate].
    destruct (mapM f l); simpl; [|discriminate].
    intros [= <-]. simpl. f_equal. now apply IH.
Qed.

Lemma getCandidates_accepted (c : Chain) :
  allAccepted (contract_getCandidates c) = true ->
  getCandidates c
  = Ok (map (fun s => ("xdc" ++ payloadOf s)%string) (contract_getCandidates c)).
Proof.
  unfold getCandidates, allAccepted.
  induction (contract_getCandidates c) as [|a l IH]; simpl; [reflexivity|].
  intros H. apply andb_true_iff in H as [Ha Hl].
  rewrite (toXdcAddress_accepted a Ha). simpl. now rewrite IH.
Qed.

(** ** getMasternodeInfo *)

Lemma getMasternodeInfo_accepted (rt : Runtime) (c : Chain) (a : string) :
  let eth := ("0x" ++ payloadOf a)%string in
  accepted a = true ->
  accepted (contract_getCandidateOwner c eth) = true ->
  allAccepted (contract_getVoters c eth) = true ->
  getMasternodeInfo rt c a
  = Ok {| mi_address := "xdc" ++ payloadOf a;
          mi_owner := "xdc" ++ payloadOf (contract_getCandidateOwner c eth);
          mi_stake := contract_getCandidateCap c eth;
          mi_stakeXdc := formatEther rt (contract_getCandidateCap c eth);
          mi_voterCount := List.length (contract_getVoters c eth);
          mi_isValidator :=
            Array_includes eth
              (firstn 108 (map toLowerCase (contract_getCandidates c)));
          mi_status :=
            statusTable (contract_isCandidate c eth)
              (Array_includes eth
                 (firstn 108 (map toLowerCase (contract_getCandidates c)))) |}.
Proof.
  intros eth Ha Ho Hv. unfold getMasternodeInfo, getVotersForCandidate.
  rewrite (toEthAddress_accepted a Ha). cbn [bind]. fold eth.
  assert (Hvoters : mapM toXdcAddress (contract_getVoters c eth)
                    = Ok (map (fun s => ("xdc" ++ payloadOf s)%string)
                            (contract_getVoters c eth))).
  { revert Hv. unfold allAccepted.
    induction (contract_getVoters c eth) as [|v l IH]; simpl; [reflexivity|].
    intros H. apply andb_true_iff in H as [H1 H2].
    rewrite (toXdcAddress_accepted v H1). simpl. now rewrite IH. }
  rewrite Hvoters. cbn [bind].
  rewrite (toXdcAddress_accepted a Ha). cbn [bind].
  rewrite (toXdcAddress_accepted _ Ho). cbn [bind].
  rewrite Array_slice_prefix, length_map.
  assert (Hlow : toLowerCase eth = eth).
  { unfold eth. rewrite toLowerCase_app, toLowerCase_payloadOf. reflexivity. }
  rewrite Hlow. unfold weiToXdc. f_equal. f_equal.
  destruct (contract_isCandidate c eth); reflexivity.
Qed.

(** C5: the status [getMasternodeInfo] reports is determined by the pair
    (registered candidate, validator), where the first component is the
    answer of the contract for the queried address and the second, which is
    also the [isValidator] field of the record, is the membership of the
    address among the first 108 candidates: [(false, _)] gives [resigned],
    [(true, true)] gives [active], [(true, false)] gives [proposed], and
    each status is reported for no other pair; so exactly one of the three
    applies, and the fourth status of the type, [inactive], is never
    produced. *)
Theorem status_total_exclusive (rt : Runtime) (c : Chain) (a : string) :
  let eth := ("0x" ++ payloadOf a)%string in
  let registered := contract_isCandidate c eth in
  let member :=
    Array_includes eth (firstn 108 (map toLowerCase (contract_getCandidates c))) in
  accepted a = true ->
  accepted (contract_getCandidateOwner c eth) = true ->
  allAccepted (contract_getVoters c eth) = true ->
  exists info,
    getMasternodeInfo rt c a = Ok info
    /\ mi_isValidator info = member
    /\ (mi_status info = resigned <-> registered = false)
    /\ (mi_status info = active <-> registered = true /\ member = true)
    /\ (mi_status info = proposed <-> registered = true /\ member = false)
    /\ mi_status info <> inactive.
Proof.
  intros eth registered member Ha Ho Hv.
  eexists. split; [apply getMasternodeInfo_accepted; assumption|].
  cbn [mi_status mi_isValidator]. fold eth. fold member. fold registered.
  destruct registered, member; cbn;
    repeat split; try tauto; try discriminate;
    try (intros [? ?]; discriminate).
Qed.

(** ** Epochs *)

Local Open Scope Z_scope.

Lemma getCurrentEpoch_safe (c : Chain) (h : Z) :
  provider_getBlockNumber c = ofZ h -> Z.abs h < 2 ^ 53 ->
  getCurrentEpoch c = ofZ (h / 900).
Proof.
  intros Hc Hh. unfold getCurrentEpoch. rewrite Hc. now apply floor_div_900.
Qed.

Lemma getEpochInfo_default (rt : Runtime) (c : Chain) :
  getEpochInfo rt c None = getEpochInfo rt c (Some (getCurrentEpoch c)).
Proof. reflexivity. Qed.

(** [getEpochInfo] for an epoch number [e] at chain height [h], both
    integers in the range where every intermediate value is exact. *)
Lemma getEpochInfo_safe (rt : Runtime) (c : Chain) (e h : Z) :
  provider_getBlockNumber c = ofZ h ->
  Z.abs h < 2 ^ 53 -> Z.abs (e * 900) + 900 < 2 ^ 53 ->
  Z.abs (h - e * 900) + 1 < 2 ^ 53 ->
  allAccepted (contract_getCandidates c) = true ->
  getEpochInfo rt c (Some (ofZ e))
  = Ok {| ei_number := ofZ e;
          ei_startBlock := ofZ (e * 900);
          ei_endBlock := ofZ (e * 900 + 899);
          ei_validatorSet :=
            firstn 108 (map (fun s => ("xdc" ++ payloadOf s)%string)
                          (contract_getCandidates c));
          ei_rewards := (Z.min (e * 900 + 899) h - e * 900 + 1) * rewardPerBlock;
          ei_rewardsXdc :=
            formatEther rt
              ((Z.min (e * 900 + 899) h - e * 900 + 1) * rewardPerBlock) |}.
Proof.
  intros Hc Hh Hend Hdist Hacc. unfold getEpochInfo, epochBlocks.
  rewrite Hc, (getCandidates_accepted c Hacc). cbn [bind].
  rewrite (ofZ_mul e 900) by lia.
  rewrite (ofZ_add (e * 900) 900) by lia.
  rewrite (ofZ_sub (e * 900 + 900) 1) by lia.
  replace (e * 900 + 900 - 1) with (e * 900 + 899) by lia.
  rewrite (ofZ_min (e * 900 + 899) h) by lia.
  rewrite (ofZ_sub (Z.min (e * 900 + 899) h) (e * 900)) by lia.
  rewrite (ofZ_add (Z.min (e * 900 + 899) h - e * 900) 1) by lia.
  rewrite toBigInt_ofZ by lia. cbn [bind].
  rewrite Array_slice_prefix. reflexivity.
Qed.

(** C2, as stated, fails at the top of the safe-integer range: the end
    block of the last epoch is not [e * 900 + 899], because that odd number
    above [2 ^ 53] is not a binary64 and the subtraction rounds. *)
Lemma epoch_end_drifts_at_max_safe_height :
  0 <= MAX_SAFE_INTEGER
  /\ (i <- getEpochInfo modelRuntime (snapshot [] (ofZ MAX_SAFE_INTEGER)) None ;;
      toBigInt (ei_number i)) = Ok (MAX_SAFE_INTEGER / 900)
  /\ (i <- getEpochInfo modelRuntime (snapshot [] (ofZ MAX_SAFE_INTEGER)) None ;;
      toBigInt (ei_endBlock i)) = Ok 9007199254741500
  /\ MAX_SAFE_INTEGER / 900 * 900 + 899 = 9007199254741499.
Proof. repeat split; try (vm_compute; reflexivity). vm_compute. discriminate. Qed.

(** C2 (amended): for every block height [h >= 0] whose epoch ends below
    [2 ^ 53], the epoch computed by the floating-point division followed by
    [Math.floor] is exactly [h / 900] (integer quotient), the range reported
    for it is exactly [[e * 900, e * 900 + 899]], [h] lies in that range and
    in the range of no other epoch; the range of any epoch [e] asked for
    explicitly is computed exactly as well. *)
Theorem epoch_of_height (rt : Runtime) (c : Chain) (h : Z) :
  provider_getBlockNumber c = ofZ h ->
  0 <= h -> h / 900 * 900 + 900 < 2 ^ 53 ->
  allAccepted (contract_getCandidates c) = true ->
  getCurrentEpoch c = ofZ (h / 900)
  /\ toBigInt (getCurrentEpoch c) = Ok (h / 900)
  /\ (exists info,
        getEpochInfo rt c None = Ok info
        /\ ei_number info = ofZ (h / 900)
        /\ ei_startBlock info = ofZ (h / 900 * 900)
        /\ ei_endBlock info = ofZ (h / 900 * 900 + 899)
        /\ toBigInt (ei_startBlock info) = Ok (h / 900 * 900)
        /\ toBigInt (ei_endBlock info) = Ok (h / 900 * 900 + 899))
  /\ (forall e, 0 <= e -> e * 900 + 900 < 2 ^ 53 ->
      exists info,
        getEpochInfo rt c (Some (ofZ e)) = Ok info
        /\ toBigInt (ei_startBlock info) = Ok (e * 900)
        /\ toBigInt (ei_endBlock info) = Ok (e * 900 + 899))
  /\ h / 900 * 900 <= h <= h / 900 * 900 + 899
  /\ (forall e, e * 900 <= h <= e * 900 + 899 -> e = h / 900).
Proof.
  intros Hc Hh Hend Hacc.
  pose proof (Z.div_mod h 900 ltac:(lia)) as Hdm.
  pose proof (Z.mod_pos_bound h 900 ltac:(lia)) as Hmod.
  assert (Hq : 0 <= h / 900) by (apply Z.div_pos; lia).
  assert (Hcur : getCurrentEpoch c = ofZ (h / 900))
    by (apply getCurrentEpoch_safe; [assumption|lia]).
  split; [exact Hcur|]. split; [rewrite Hcur; apply toBigInt_ofZ; lia|].
  split; [|split; [|split]].
  - eexists. split.
    + rewrite getEpochInfo_default, Hcur.
      apply (getEpochInfo_safe rt c (h / 900) h); try assumption; lia.
    + cbn [ei_number ei_startBlock ei_endBlock].
      repeat split; try reflexivity; apply toBigInt_ofZ; lia.
  - intros e He Hee. eexists. split.
    + apply (getEpochInfo_safe rt c e h); try assumption; lia.
    + cbn [ei_startBlock ei_endBlock]. split; apply toBigInt_ofZ; lia.
  - lia.
  - intros e He. apply Z.div_unique with (r := h - e * 900); lia.
Qed.

Lemma epoch_of_height_witness :
  getCurrentEpoch (snapshot (sampleCandidates 3) (ofZ 1850)) = ofZ 2
  /\ exists info,
       getEpochInfo modelRuntime (snapshot (sampleCandidates 3) (ofZ 1850))
         (Some (ofZ 2)) = Ok info
       /\ toBigInt (ei_startBlock info) = Ok 1800
       /\ toBigInt (ei_endBlock info) = Ok 2699.
Proof.
  pose proof (epoch_of_height modelRuntime
                (snapshot (sampleCandidates 3) (ofZ 1850)) 1850
                eq_refl ltac:(lia) ltac:(vm_compute; reflexivity) eq_refl)
    as (H1 & _ & _ & H4 & _).
  split; [exact H1|].
  apply (H4 2); [lia|vm_compute; reflexivity].
Defined.

(** C8, as stated, fails: a negative height is not rejected; the epoch
    calculation returns the (negative) floor quotient. *)
Lemma negative_height_not_rejected :
  -1 < 0
  /\ toBigInt (getCurrentEpoch (snapshot [] (ofZ (-1)))) = Ok (-1)
  /\ (i <- getEpochInfo modelRuntime (snapshot [] (ofZ (-1))) None ;;
      toBigInt (ei_number i)) = Ok (-1).
Proof. repeat split; vm_compute; reflexivity. Qed.

(** C8 (amended): the epoch calculation has no height check.  For every
    negative height (of magnitude within the exactly represented integers)
    it returns the floor quotient [h / 900], a negative epoch number, and
    [getEpochInfo] returns a record for that epoch instead of raising. *)
Theorem epoch_of_negative_height (rt : Runtime) (c : Chain) (h : Z) :
  provider_getBlockNumber c = ofZ h ->
  - 2 ^ 53 + 1800 < h < 0 ->
  allAccepted (contract_getCandidates c) = true ->
  getCurrentEpoch c = ofZ (h / 900)
  /\ toBigInt (getCurrentEpoch c) = Ok (h / 900)
  /\ h / 900 < 0
  /\ exists info,
       getEpochInfo rt c None = Ok info
       /\ toBigInt (ei_number info) = Ok (h / 900)
       /\ toBigInt (ei_startBlock info) = Ok (h / 900 * 900)
       /\ toBigInt (ei_endBlock info) = Ok (h / 900 * 900 + 899).
Proof.
  intros Hc Hh Hacc.
  pose proof (Z.div_mod h 900 ltac:(lia)) as Hdm.
  pose proof (Z.mod_pos_bound h 900 ltac:(lia)) as Hmod.
  assert (Hq : h / 900 < 0) by (apply Z.div_lt_upper_bound; lia).
  assert (Hcur : getCurrentEpoch c = ofZ (h / 900))
    by (apply getCurrentEpoch_safe; [assumption|lia]).
  split; [exact Hcur|]. split; [rewrite Hcur; apply toBigInt_ofZ; lia|].
  split; [exact Hq|].
  eexists. split.
  - rewrite getEpochInfo_default, Hcur.
    apply (getEpochInfo_safe rt c (h / 900) h); try assumption; lia.
  - cbn [ei_number ei_startBlock ei_endBlock].
    repeat split; apply toBigInt_ofZ; lia.
Qed.

Lemma epoch_of_negative_height_witness :
  getCurrentEpoch (snapshot (sampleCandidates 3) (ofZ (-901))) = ofZ (-2).
Proof.
  exact (proj1 (epoch_of_negative_height modelRuntime
                  (snapshot (sampleCandidates 3) (ofZ (-901))) (-901)
                  eq_refl ltac:(lia) eq_refl)).
Defined.

(** ** The validator set *)

Lemma addressesEqual_payload (a a' : string) :
  addressesEqual a a' = true ->
  accepted a = true /\ accepted a' = true /\ payloadOf a = payloadOf a'.
Proof.
  rewrite addressesEqual_closed_form. intros H.
  apply andb_true_iff in H as [H H3]. apply andb_true_iff in H as [H1 H2].
  apply String.eqb_eq in H3. auto.
Qed.

Lemma tagged0x_spec (x : string) :
  tagged0x x = true ->
  accepted x = true /\ toLowerCase x = ("0x" ++ payloadOf x)%string.
Proof.
  unfold tagged0x, accepted, payloadOf. intros H.
  pose proof (startsWith_0x_inv _ H) as E.
  assert (Hx : startsWith "xdc" (toLowerCase x) = false)
    by (rewrite E; reflexivity).
  rewrite H, Hx. cbn [orb]. split; [|exact E].
  destruct x as [|ch x]; [discriminate|reflexivity].
Qed.

Lemma tagged0x_allAccepted (l : list string) :
  forallb tagged0x l = true -> allAccepted l = true.
Proof.
  unfold allAccepted. rewrite !forallb_forall. intros H x Hx.
  now apply tagged0x_spec, H.
Qed.

(** The translation to the [xdc] form does not change what an address is
    equal to. *)
Lemma addressesEqual_xdc (a x : string) :
  accepted x = true ->
  addressesEqual a ("xdc" ++ payloadOf x) = addressesEqual a x.
Proof.
  intros Hx. rewrite !addressesEqual_closed_form, Hx.
  rewrite (proj1 (payloadOf_tagged _)), toLowerCase_payloadOf.
  replace (accepted ("xdc" ++ payloadOf x)) with true; [reflexivity|].
  unfold accepted. rewrite toLowerCase_app. reflexivity.
Qed.

(** Among raw entries carrying the tag [0x], the test of the source, equality
    of lowercased strings, is equality of addresses. *)
Lemma includes_addressesEqual (a : string) (raw : list string) (n : nat) :
  forallb tagged0x raw = true ->
  accepted a = true ->
  Array_includes ("0x" ++ payloadOf a) (firstn n (map toLowerCase raw)) = true
  <-> exists j x, (j < n)%nat /\ nth_error raw j = Some x
                  /\ addressesEqual a x = true.
Proof.
  intros Hraw Ha. rewrite Array_includes_In, In_firstn_nth_error.
  rewrite forallb_forall in Hraw. split.
  - intros (j & Hj & Hn). rewrite nth_error_map in Hn.
    destruct (nth_error raw j) as [x|] eqn:Hx; [|discriminate].
    cbn [option_map] in Hn.
    destruct (tagged0x_spec x (Hraw x (nth_error_In _ _ Hx))) as [Hacc Hlow].
    exists j, x. repeat split; auto.
    rewrite addressesEqual_closed_form, Ha, Hacc. cbn [andb].
    apply String.eqb_eq. rewrite Hlow in Hn. now injection Hn.
  - intros (j & x & Hj & Hx & He). exists j. split; [exact Hj|].
    rewrite nth_error_map, Hx. cbn [option_map].
    destruct (tagged0x_spec x (Hraw x (nth_error_In _ _ Hx))) as [_ Hlow].
    destruct (addressesEqual_payload a x He) as (_ & _ & Hp).
    now rewrite Hlow, Hp.
Qed.

(** C3: for a candidate list as the contract interface returns it, every
    entry carrying the tag [0x]: the validator set reported by
    [getEpochInfo] is the prefix of the first [min L 108] translated
    candidates, in the order of the list.  The [isValidator] flag of
    [getMasternodeInfo] is containment of the queried address in that
    prefix, up to [addressesEqual], that is whatever the letter case and the
    tag of the query; equivalently it is equality, up to [addressesEqual],
    with one of the first 108 raw candidates.  The flag is the same for two
    spellings of the query, and the same whatever stakes the chain reports;
    and in a duplicate-free candidate list the candidate at rank 109 or
    later is not a validator. *)
Theorem validatorSet_is_prefix (rt : Runtime) (c : Chain) (h : Z) (a : string) :
  let raw := contract_getCandidates c in
  let eth := ("0x" ++ payloadOf a)%string in
  provider_getBlockNumber c = ofZ h ->
  0 <= h -> h + 900 < 2 ^ 53 ->
  forallb tagged0x raw = true ->
  accepted a = true ->
  accepted (contract_getCandidateOwner c eth) = true ->
  allAccepted (contract_getVoters c eth) = true ->
  exists cs einfo minfo,
    getCandidates c = Ok cs
    /\ getEpochInfo rt c None = Ok einfo
    /\ getMasternodeInfo rt c a = Ok minfo
    /\ Forall2 (fun x y => toXdcAddress x = Ok y) raw cs
    /\ ei_validatorSet einfo = firstn (Nat.min (List.length raw) 108) cs
    /\ List.length (ei_validatorSet einfo) = Nat.min (List.length raw) 108
    /\ (mi_isValidator minfo = true
        <-> exists y, In y (ei_validatorSet einfo)
                      /\ addressesEqual a y = true)
    /\ (mi_isValidator minfo = true
        <-> exists j x, (j < 108)%nat /\ nth_error raw j = Some x
                        /\ addressesEqual a x = true)
    /\ (forall a', addressesEqual a a' = true ->
          exists minfo', getMasternodeInfo rt c a' = Ok minfo'
                         /\ mi_isValidator minfo' = mi_isValidator minfo)
    /\ (forall cap,
          exists minfo', getMasternodeInfo rt (withCandidateCap c cap) a
                         = Ok minfo'
                         /\ mi_isValidator minfo' = mi_isValidator minfo)
    /\ (forall i x, NoDup (map toLowerCase raw) ->
          (108 <= i)%nat -> nth_error raw i = Some x ->
          addressesEqual a x = true -> mi_isValidator minfo = false).
Proof.
  intros raw eth Hc Hh Hend Hraw Ha Ho Hv.
  pose proof (tagged0x_allAccepted raw Hraw) as Hacc.
  pose proof (Z.div_mod h 900 ltac:(lia)) as Hdm.
  pose proof (Z.mod_pos_bound h 900 ltac:(lia)) as Hmod.
  assert (Hq : 0 <= h / 900) by (apply Z.div_pos; lia).
  set (f := fun s => ("xdc" ++ payloadOf s)%string).
  assert (Hmin : firstn (Nat.min (List.length raw) 108) (map f raw)
                 = firstn 108 (map f raw)).
  { destruct (Nat.le_ge_cases (List.length raw) 108) as [Hle|Hge].
    - rewrite Nat.min_l by exact Hle.
      rewrite !firstn_all2; rewrite ?length_map; auto.
    - now rewrite Nat.min_r by exact Hge. }
  exists (map f raw). eexists. eexists.
  split; [apply getCandidates_accepted; exact Hacc|].
  split; [rewrite getEpochInfo_default, (getCurrentEpoch_safe c h Hc) by lia;
          apply (getEpochInfo_safe rt c (h / 900) h); try assumption; lia|].
  split; [apply getMasternodeInfo_accepted; assumption|].
  cbn [ei_validatorSet mi_isValidator]. fold raw eth f.
  split; [|split; [|split; [|split; [|split; [|split; [|split]]]]]].
  - clear - Hacc. unfold allAccepted in Hacc. rewrite forallb_forall in Hacc.
    induction raw as [|x l IH]; cbn [map]; constructor.
    + apply toXdcAddress_accepted, Hacc. now left.
    + apply IH. intros y Hy. apply Hacc. now right.
  - now rewrite Hmin.
  - rewrite length_firstn, length_map. apply Nat.min_comm.
  - unfold eth. rewrite (includes_addressesEqual a raw 108 Hraw Ha). split.
    + intros (j & x & Hj & Hx & He). exists (f x). split.
      * apply In_firstn_nth_error. exists j. split; [exact Hj|].
        now rewrite nth_error_map, Hx.
      * unfold f. rewrite addressesEqual_xdc; [exact He|].
        now destruct (addressesEqual_payload a x He) as (_ & ? & _).
    + intros (y & Hy & He).
      apply In_firstn_nth_error in Hy as (j & Hj & Hn).
      rewrite nth_error_map in Hn.
      destruct (nth_error raw j) as [x|] eqn:Hx; [|discriminate].
      cbn [option_map] in Hn. injection Hn as <-.
      exists j, x. repeat split; auto.
      unfold f in He. rewrite addressesEqual_xdc in He; [exact He|].
      unfold allAccepted in Hacc. rewrite forallb_forall in Hacc.
      apply Hacc. eapply nth_error_In, Hx.
  - apply (includes_addressesEqual a raw 108 Hraw Ha).
  - intros a' Heq.
    destruct (addressesEqual_payload a a' Heq) as (_ & Ha' & Hp).
    eexists. split.
    + apply getMasternodeInfo_accepted; rewrite <- ?Hp; assumption.
    + cbn [mi_isValidator]. now rewrite <- Hp.
  - intros cap. eexists. split.
    + apply getMasternodeInfo_accepted; assumption.
    + reflexivity.
  - intros i x Hnd Hi Hx He.
    destruct (Array_includes eth (firstn 108 (map toLowerCase raw))) eqn:Hin;
      [|reflexivity].
    apply Array_includes_In, In_firstn_nth_error in Hin as (j & Hj & Hn).
    rewrite forallb_forall in Hraw.
    destruct (tagged0x_spec x (Hraw x (nth_error_In _ _ Hx))) as [_ Hlow].
    destruct (addressesEqual_payload a x He) as (_ & _ & Hp).
    assert (Hi' : nth_error (map toLowerCase raw) i = Some eth)
      by (rewrite nth_error_map, Hx; cbn [option_map];
          now rewrite Hlow, <- Hp).
    assert (i = j); [|lia].
    eapply (proj1 (NoDup_nth_error (map toLowerCase raw)) Hnd).
    + apply nth_error_Some. congruence.
    + congruence.
Qed.

Lemma validatorSet_is_prefix_witness :
  exists cs einfo minfo,
    getCandidates (snapshot (sampleCandidates 110) (ofZ 1850)) = Ok cs
    /\ getEpochInfo modelRuntime (snapshot (sampleCandidates 110) (ofZ 1850)) None
       = Ok einfo
    /\ getMasternodeInfo modelRuntime (snapshot (sampleCandidates 110) (ofZ 1850))
         "XDC0000000000000000000000000000000000000107" = Ok minfo
    /\ List.length (ei_validatorSet einfo) = 108%nat
    /\ mi_isValidator minfo = true.
Proof.
  destruct (validatorSet_is_prefix modelRuntime
              (snapshot (sampleCandidates 110) (ofZ 1850)) 1850
              "XDC0000000000000000000000000000000000000107"
              eq_refl ltac:(lia) ltac:(lia) eq_refl eq_refl eq_refl eq_refl)
    as (cs & einfo & minfo & H1 & H2 & H3 & _ & _ & H4 & _ & H5 & _).
  exists cs, einfo, minfo. repeat split; try assumption.
  apply H5. exists 107%nat, (sampleAddress 107).
  split; [lia|split; reflexivity].
Defined.

(** With 110 candidates, each with the same large stake, the 108th is an
    active validator and the 109th is not, whichever spelling is queried. *)
Example rank_108_and_109 :
  (i <- getMasternodeInfo modelRuntime
          (snapshot (sampleCandidates 110) (ofZ 1850)) (sampleAddress 107) ;;
   Ok (mi_isValidator i, mi_status i)) = Ok (true, active)
  /\ (i <- getMasternodeInfo modelRuntime
             (snapshot (sampleCandidates 110) (ofZ 1850)) (sampleAddress 108) ;;
      Ok (mi_isValidator i, mi_status i, mi_stake i))
     = Ok (false, proposed, 10000000000000000000000000)
  /\ (i <- getMasternodeInfo modelRuntime
             (snapshot (sampleCandidates 110) (ofZ 1850))
             "XDC0000000000000000000000000000000000000107" ;;
      Ok (mi_isValidator i, mi_status i)) = Ok (true, active)
  /\ (i <- getMasternodeInfo modelRuntime
             (snapshot (sampleCandidates 110) (ofZ 1850)) (sampleAddress 500) ;;
      Ok (mi_isValidator i, mi_status i)) = Ok (false, resigned).
Proof. repeat split; vm_compute; reflexivity. Qed.

(** The test of the source compares lowercased strings: were the candidate
    list to hold an entry in the [xdc] spelling, that entry would be in the
    reported validator set and yet not be flagged. *)
Example untagged_entry_is_not_flagged :
  let c := snapshot ["xdc0000000000000000000000000000000000000001"] (ofZ 1850) in
  (e <- getEpochInfo modelRuntime c None ;; Ok (ei_validatorSet e))
  = Ok ["xdc0000000000000000000000000000000000000001"]
  /\ (i <- getMasternodeInfo modelRuntime c
             "xdc0000000000000000000000000000000000000001" ;;
      Ok (mi_isValidator i)) = Ok false.
Proof. split; vm_compute; reflexivity. Qed.

Lemma status_total_exclusive_witness :
  (exists info,
      getMasternodeInfo modelRuntime (snapshot (sampleCandidates 110) (ofZ 1850))
        (sampleAddress 5) = Ok info
      /\ mi_isValidator info = true /\ mi_status info = active)
  /\ (exists info,
        getMasternodeInfo modelRuntime
          (snapshot (sampleCandidates 110) (ofZ 1850)) (sampleAddress 109)
        = Ok info
        /\ mi_isValidator info = false /\ mi_status info = proposed)
  /\ (exists info,
        getMasternodeInfo modelRuntime
          (snapshot (sampleCandidates 110) (ofZ 1850)) (sampleAddress 500)
        = Ok info
        /\ mi_isValidator info = false /\ mi_status info = resigned)
  /\ (exists info,
        getMasternodeInfo modelRuntime
          (allResigned (snapshot (sampleCandidates 110) (ofZ 1850)))
          (sampleAddress 5) = Ok info
        /\ mi_isValidator info = true /\ mi_status info = resigned).
Proof.
  split; [|split; [|split]].
  - destruct (status_total_exclusive modelRuntime
                (snapshot (sampleCandidates 110) (ofZ 1850)) (sampleAddress 5)
                eq_refl eq_refl eq_refl) as (info & E & Hv & _ & R & _).
    exists info. split; [exact E|]. split; [rewrite Hv; reflexivity|].
    apply R. split; reflexivity.
  - destruct (status_total_exclusive modelRuntime
                (snapshot (sampleCandidates 110) (ofZ 1850)) (sampleAddress 109)
                eq_refl eq_refl eq_refl) as (info & E & Hv & _ & _ & R & _).
    exists info. split; [exact E|]. split; [rewrite Hv; reflexivity|].
    apply R. split; reflexivity.
  - destruct (status_total_exclusive modelRuntime
                (snapshot (sampleCandidates 110) (ofZ 1850)) (sampleAddress 500)
                eq_refl eq_refl eq_refl) as (info & E & Hv & R & _).
    exists info. split; [exact E|]. split; [rewrite Hv; reflexivity|].
    apply R. reflexivity.
  - destruct (status_total_exclusive modelRuntime
                (allResigned (snapshot (sampleCandidates 110) (ofZ 1850)))
                (sampleAddress 5)
                eq_refl eq_refl eq_refl) as (info & E & Hv & R & _).
    exists info. split; [exact E|]. split; [rewrite Hv; reflexivity|].
    apply R. reflexivity.
Defined.

(** ** Unit conversion *)

Section ToWei.

Import EthersModel.
Local Open Scope string_scope.

Lemma splitDot_digits (s : string) :
  allDigits s = true -> splitDot s = (s, None).
Proof.
  induction s as [|ch s IH]; simpl; [reflexivity|].
  intros H. apply andb_true_iff in H as [Hc Hs].
  destruct (Ascii.eqb_spec ch ".") as [->|_]; [discriminate|].
  now rewrite (IH Hs).
Qed.

Lemma slice_zeros (n : nat) : slice n (zeros n) = "".
Proof. induction n; simpl; auto. Qed.

Lemma substring_zeros (n : nat) : String.substring 0 n (zeros n) = zeros n.
Proof. induction n; simpl; congruence. Qed.

Lemma natOfDigits_zeros (n : nat) : natOfDigits (zeros n) = 0%Z.
Proof.
  unfold natOfDigits.
  assert (H : exists u, NilEmpty.uint_of_string (zeros n) = Some u
                        /\ Z.of_uint u = 0%Z).
  { induction n as [|n (u & Hu & Hz)]; simpl.
    - exists Nil. split; reflexivity.
    - rewrite Hu. exists (D0 u). split; [reflexivity|exact Hz]. }
  destruct H as (u & -> & Hz). exact Hz.
Qed.

Lemma natOfDigits_nonneg (s : string) : (0 <= natOfDigits s)%Z.
Proof.
  unfold natOfDigits. destruct (NilEmpty.uint_of_string s); [|lia].
  unfold Z.of_uint. lia.
Qed.


(** The library parser accepts a minus sign followed by digits. *)
Lemma parseUnits_negative_integer (ds : string) (d : Z) :
  allDigits ds = true -> ds <> "" -> (0 <= d)%Z ->
  (natOfDigits ds * 10 ^ d <= 2 ^ 511)%Z ->
  isDecimalNumeral ("-" ++ ds) = true
  /\ EthersModel.parseUnits ("-" ++ ds) d
     = Ok (- (natOfDigits ds * 10 ^ d))%Z.
Proof.
  intros Hd Hne Hd0 Hbound.
  assert (Hnum : isDecimalNumeral ("-" ++ ds) = true).
  { unfold isDecimalNumeral. change ("-" ++ ds) with (String "-" ds).
    cbn [stripMinus snd]. rewrite (splitDot_digits ds Hd), Hd.
    destruct ds; [contradiction|reflexivity]. }
  split; [exact Hnum|].
  unfold EthersModel.parseUnits. rewrite Hnum.
  change ("-" ++ ds) with (String "-" ds). cbn [stripMinus negb].
  rewrite (splitDot_digits ds Hd).
  cbn [String.length append]. rewrite Nat.sub_0_r.
  rewrite slice_zeros, substring_zeros, natOfDigits_zeros.
  change (natOfDigits "" =? 0)%Z with true. cbn [negb].
  rewrite Z.add_0_r.
  pose proof (natOfDigits_nonneg ds) as Hn.
  assert (0 <= natOfDigits ds * 10 ^ d)%Z
    by (apply Z.mul_nonneg_nonneg; [exact Hn|apply Z.pow_nonneg; lia]).
  destruct (Z.ltb_spec (- (natOfDigits ds * 10 ^ d)) (- 2 ^ 511)); [lia|].
  destruct (Z.leb_spec (2 ^ 511) (- (natOfDigits ds * 10 ^ d)));
    [lia|reflexivity].
Qed.



End ToWei.




(** Not every negative numeral is converted: like its positive
    counterpart, one with more fraction digits than the unit has decimals
    is rejected; and a unit named like an inherited property is rejected
    whatever the value. *)
Example toWei_rejections :
  toWei modelRuntime "-0.0000000001" "gwei"
  = Throw (Error "too many decimals for format")
  /\ toWei modelRuntime "0.0000000001" "gwei"
     = Throw (Error "too many decimals for format")
  /\ toWei modelRuntime "1" "constructor" = Throw invalidUnit
  /\ toWei modelRuntime "1" "furlong" = Ok 1000000000000000000.
Proof. repeat split; reflexivity. Qed.



(** ** Accumulated rounding error *)

Section Approx.

Local Open Scope Z_scope.

Lemma approxRel_refl (a : Z) : approxRel 0 a a.
Proof. unfold approxRel. rewrite !Z.pow_0_r. lia. Qed.

Lemma approxRel_sym (k a b : Z) : approxRel k a b -> approxRel k b a.
Proof. intros [H1 H2]. split; assumption. Qed.

Lemma approxRel_scale (k a b w : Z) :
  0 <= w -> approxRel k a b -> approxRel k (a * w) (b * w).
Proof.
  intros Hw [H1 H2]. approx_start. split.
  - replace (a * w * D ^ k) with (a * D ^ k * w) by ring.
    replace (b * w * N ^ k) with (b * N ^ k * w) by ring.
    now apply Z.mul_le_mono_nonneg_r.
  - replace (b * w * D ^ k) with (b * D ^ k * w) by ring.
    replace (a * w * N ^ k) with (a * N ^ k * w) by ring.
    now apply Z.mul_le_mono_nonneg_r.
Qed.

Lemma approxRel_unscale (k a b w : Z) :
  0 < w -> approxRel k (a * w) (b * w) -> approxRel k a b.
Proof.
  intros Hw [H1 H2]. approx_start. split.
  - apply (Z.mul_le_mono_pos_r _ _ w Hw).
    replace (a * D ^ k * w) with (a * w * D ^ k) by ring.
    replace (b * N ^ k * w) with (b * w * N ^ k) by ring. exact H1.
  - apply (Z.mul_le_mono_pos_r _ _ w Hw).
    replace (b * D ^ k * w) with (b * w * D ^ k) by ring.
    replace (a * N ^ k * w) with (a * w * N ^ k) by ring. exact H2.
Qed.

Lemma approxRel_trans (k j a b c : Z) :
  0 <= k -> 0 <= j ->
  approxRel k a b -> approxRel j b c -> approxRel (k + j) a c.
Proof.
  intros Hk Hj [H1 H1'] [H2 H2']. approx_start.
  assert (0 < D ^ k) by (apply Z.pow_pos_nonneg; assumption).
  assert (0 < D ^ j) by (apply Z.pow_pos_nonneg; assumption).
  assert (0 < N ^ k) by (apply Z.pow_pos_nonneg; assumption).
  assert (0 < N ^ j) by (apply Z.pow_pos_nonneg; assumption).
  rewrite !Z.pow_add_r by assumption. split.
  - apply Z.le_trans with (b * N ^ k * D ^ j).
    + replace (a * (D ^ k * D ^ j)) with (a * D ^ k * D ^ j) by ring.
      apply Z.mul_le_mono_nonneg_r; lia.
    + replace (b * N ^ k * D ^ j) with (b * D ^ j * N ^ k) by ring.
      replace (c * (N ^ k * N ^ j)) with (c * N ^ j * N ^ k) by ring.
      apply Z.mul_le_mono_nonneg_r; lia.
  - apply Z.le_trans with (b * N ^ j * D ^ k).
    + replace (c * (D ^ k * D ^ j)) with (c * D ^ j * D ^ k) by ring.
      apply Z.mul_le_mono_nonneg_r; lia.
    + replace (b * N ^ j * D ^ k) with (b * D ^ k * N ^ j) by ring.
      replace (a * (N ^ k * N ^ j)) with (a * N ^ k * N ^ j) by ring.
      apply Z.mul_le_mono_nonneg_r; lia.
Qed.

(** Rounding the quotient of [x] by [n] to its floor or the next integer
    is one rounding, provided the floor has 53 bits. *)
Lemma approxRel_round (x n m2 : Z) :
  0 < n -> 2 ^ 52 <= x / n -> x / n <= m2 <= x / n + 1 ->
  approxRel 1 (m2 * n) x.
Proof.
  intros Hn Hnorm Hm2.
  pose proof (Z.div_mod x n ltac:(lia)) as Hdm.
  pose proof (Z.mod_pos_bound x n Hn) as Hmod.
  set (m1 := x / n) in *. set (r := x mod n) in *.
  approx_start. rewrite !Z.pow_1_r.
  assert (H1 : m1 * n <= m2 * n) by (apply Z.mul_le_mono_nonneg_r; lia).
  assert (H2 : m2 * n <= m1 * n + n) by nia.
  assert (H3 : D * n <= m1 * n) by (apply Z.mul_le_mono_nonneg_r; lia).
  unfold N. split; nia.
Qed.

(** *** One rounding per operation *)

Lemma pow2_split (a b : Z) : 0 <= a -> 0 <= b -> 2 ^ (a + b) = 2 ^ a * 2 ^ b.
Proof. intros. now apply Z.pow_add_r. Qed.

Lemma normalFinite_posFinite (lo hi : Z) (x : number) :
  normalFinite lo hi x -> posFinite lo hi x.
Proof.
  intros (m & e & -> & Hm & He). exists m, e. repeat split; lia.
Qed.

(** [Number(z)] is within one rounding of [z]. *)
Lemma ofZ_value (z k : Z) :
  0 < z < 2 ^ k -> k <= 1023 ->
  normalFinite (-52) (k - 52) (ofZ z)
  /\ approxRel 1 (scaledValue (ofZ z)) (z * 2 ^ 1100).
Proof.
  intros Hz Hk. destruct z as [|p|p]; try lia.
  assert (Hk0 : 0 <= k).
  { destruct (Z.lt_ge_cases k 0) as [Hneg|]; [|assumption].
    rewrite Z.pow_neg_r in Hz by assumption. lia. }
  unfold ofZ, binary_normalize, binary_round.
  pose proof (shl_align_spec p 0 (fexp prec emax (Zpos (digits2_pos p) + 0))) as Hal.
  destruct (shl_align p 0 (fexp prec emax (Zpos (digits2_pos p) + 0))) as [mz ez].
  destruct Hal as [Hez Hmz].
  change (Zpos (digits2_pos p)) with (Zdigits2 (Zpos p)) in Hez.
  pose proof (Zdigits2_le (Zpos p) k ltac:(lia) ltac:(lia) ltac:(lia)) as Hdk.
  assert (Hd1 : 1 <= Zdigits2 (Zpos p)) by (cbn; lia).
  rewrite fexp_spec in Hez.
  assert (Hdz : Zdigits2 (Zpos mz) = Zdigits2 (Zpos p) - ez).
  { rewrite Hmz, Zdigits2_mul_pow2 by lia. lia. }
  destruct (binary_round_aux_normal false (Zpos mz) ez loc_Exact)
    as (m & e & m2 & -> & Hm & He & Hv & Hn1 & Hn2); try lia.
  set (n := Zdigits2 (Zpos mz) - 53) in *.
  assert (Hn : 0 <= n) by (unfold n; lia).
  split.
  - exists m, e. repeat split; lia.
  - cbn [scaledValue].
    assert (HS : Zpos m * 2 ^ (e + 1100) = m2 * 2 ^ n * 2 ^ (ez + 1100)).
    { rewrite <- Hv.
      replace (e + 1100) with ((e - (ez + n)) + n + (ez + 1100)) by lia.
      rewrite !pow2_split by lia. ring. }
    assert (HZ : Zpos p * 2 ^ 1100 = Zpos mz * 2 ^ (ez + 1100)).
    { rewrite Hmz. replace 1100 with ((0 - ez) + (ez + 1100)) at 1 by lia.
      rewrite pow2_split by lia. ring. }
    rewrite HS, HZ.
    apply approxRel_scale; [apply Z.pow_nonneg; lia|].
    apply approxRel_round; try assumption.
    apply Z.pow_pos_nonneg; lia.
Qed.

(** The integer part of a positive finite value. *)
Lemma toBigInt_floor_scaled (m : positive) (e : Z) :
  Zpos m < 2 ^ 53 -> -1100 <= e ->
  toBigInt (floor (S754_finite false m e))
  = Ok (scaledValue (S754_finite false m e) / 2 ^ 1100).
Proof.
  intros Hm He. cbn [scaledValue]. unfold floor.
  destruct (Z.leb_spec 0 e) as [H0|H0].
  - unfold toBigInt. destruct (Z.leb_spec 0 e); [|lia].
    change (cond_Zopp false (Zpos m)) with (Zpos m). f_equal.
    rewrite pow2_split, Z.mul_assoc by lia.
    symmetry. apply Z.div_mul. apply Z.pow_nonzero; lia.
  - change (binary_normalize prec emax (cond_Zopp false (Zpos m) / 2 ^ (- e)) 0 false)
      with (ofZ (Zpos m / 2 ^ (- e))).
    assert (0 < 2 ^ (- e)) by (apply Z.pow_pos_nonneg; lia).
    assert (0 <= Zpos m / 2 ^ (- e)) by (apply Z.div_pos; lia).
    assert (Zpos m / 2 ^ (- e) <= Zpos m) by (apply Z.div_le_upper_bound; nia).
    rewrite toBigInt_ofZ by lia. f_equal.
    replace 1100 with ((- e) + (e + 1100)) at 2 by lia.
    rewrite (pow2_split (- e) (e + 1100)) by lia.
    symmetry. apply Z.div_mul_cancel_r; apply Z.pow_nonzero; lia.
Qed.

Lemma normal_digits (m : positive) :
  2 ^ 52 <= Zpos m < 2 ^ 53 -> Zdigits2 (Zpos m) = 53.
Proof. intros H. rewrite Zdigits2_log2, (log2_53 _ H) by lia. reflexivity. Qed.

(** A quotient of normal numbers is within one rounding of the exact
    quotient: [div x y * y] against [x]. *)
Lemma div_value (x y : number) (lo1 hi1 lo2 hi2 : Z) :
  normalFinite lo1 hi1 x -> normalFinite lo2 hi2 y ->
  -400 <= lo1 -> hi1 <= 400 -> -400 <= lo2 -> hi2 <= 400 ->
  normalFinite (lo1 - hi2 - 53) (hi1 - lo2 - 51) (div x y)
  /\ approxRel 1 (scaledValue (div x y) * scaledValue y)
                 (scaledValue x * 2 ^ 1100).
Proof.
  intros (m1 & e1 & -> & Hm1 & He1) (m2 & e2 & -> & Hm2 & He2) L1 U1 L2 U2.
  unfold div. cbn [SFdiv xorb].
  pose proof (SFdiv_core_shape m1 m2 e1 e2) as Hc.
  destruct (SFdiv_core_binary prec emax (Zpos m1) e1 (Zpos m2) e2) as [[q e'] l].
  destruct Hc as (Hq0 & _ & _ & Hq & He').
  rewrite (normal_digits m1 Hm1), (normal_digits m2 Hm2), fexp_spec in He'.
  assert (He'' : e' = e1 - e2 - 53) by lia. clear He'.
  replace (e1 - e2 - e') with 53 in Hq by lia.
  assert (Hqb : 2 ^ 52 <= q < 2 ^ 54).
  { rewrite Hq. split.
    - apply Z.div_le_lower_bound; lia.
    - apply Z.div_lt_upper_bound; lia. }
  assert (Hdq : Zdigits2 q = 53 \/ Zdigits2 q = 54).
  { rewrite Zdigits2_log2 by lia.
    destruct (Z.lt_ge_cases q (2 ^ 53)).
    - left. rewrite (log2_53 q) by lia. reflexivity.
    - right. rewrite (log2_54 q) by lia. reflexivity. }
  destruct (binary_round_aux_normal false q e' l)
    as (m & e & mm & -> & Hm & He & Hv & Hn1 & Hn2); try lia.
  set (n := Zdigits2 q - 53) in *.
  assert (Hn : 0 <= n <= 1) by (unfold n; lia).
  split.
  - exists m, e. repeat split; lia.
  - cbn [scaledValue].
    assert (Hp : 0 < 2 ^ n) by (apply Z.pow_pos_nonneg; lia).
    assert (Happ : approxRel 1 (mm * (Zpos m2 * 2 ^ n)) (Zpos m1 * 2 ^ 53)).
    { apply approxRel_round.
      - lia.
      - rewrite <- Z.div_div, <- Hq by lia. exact Hn1.
      - rewrite <- Z.div_div, <- Hq by lia. exact Hn2. }
    set (w := 2 ^ (e1 - 53 + 2200)).
    assert (HL : Zpos m * 2 ^ (e + 1100) * (Zpos m2 * 2 ^ (e2 + 1100))
                 = mm * (Zpos m2 * 2 ^ n) * w).
    { rewrite <- Hv. unfold w.
      replace (e + 1100) with ((e - (e' + n)) + n + (e' + 1100)) by lia.
      replace (e1 - 53 + 2200) with ((e' + 1100) + (e2 + 1100)) by lia.
      rewrite (pow2_split (e - (e' + n) + n) (e' + 1100)),
        (pow2_split (e - (e' + n)) n),
        (pow2_split (e' + 1100) (e2 + 1100)) by lia.
      ring. }
    assert (HR : Zpos m1 * 2 ^ (e1 + 1100) * 2 ^ 1100
                 = Zpos m1 * 2 ^ 53 * w).
    { unfold w.
      rewrite <- !Z.mul_assoc, <- !pow2_split by lia.
      do 2 f_equal. lia. }
    rewrite HL, HR.
    apply approxRel_scale; [apply Z.pow_nonneg; lia|exact Happ].
Qed.

(** A product of normal numbers is within one rounding of the exact
    product. *)
Lemma mul_value (x y : number) (lo1 hi1 lo2 hi2 : Z) :
  normalFinite lo1 hi1 x -> normalFinite lo2 hi2 y ->
  -400 <= lo1 -> hi1 <= 400 -> -400 <= lo2 -> hi2 <= 400 ->
  normalFinite (lo1 + lo2 + 52) (hi1 + hi2 + 54) (mul x y)
  /\ approxRel 1 (scaledValue (mul x y) * 2 ^ 1100)
                 (scaledValue x * scaledValue y).
Proof.
  intros (m1 & e1 & -> & Hm1 & He1) (m2 & e2 & -> & Hm2 & He2) L1 U1 L2 U2.
  unfold mul. cbn [SFmul xorb].
  assert (Hprod : 2 ^ 104 <= Zpos (m1 * m2) < 2 ^ 106).
  { rewrite Pos2Z.inj_mul.
    change (2 ^ 104) with (2 ^ 52 * 2 ^ 52).
    change (2 ^ 106) with (2 ^ 53 * 2 ^ 53). nia. }
  assert (Hd : Zdigits2 (Zpos (m1 * m2)) = 105
               \/ Zdigits2 (Zpos (m1 * m2)) = 106).
  { rewrite Zdigits2_log2 by lia.
    destruct (Z.lt_ge_cases (Zpos (m1 * m2)) (2 ^ 105)).
    - left. rewrite (Z.log2_unique _ 104); lia.
    - right. rewrite (Z.log2_unique _ 105); lia. }
  destruct (binary_round_aux_normal false (Zpos (m1 * m2)) (e1 + e2) loc_Exact)
    as (m & e & mm & -> & Hm & He & Hv & Hn1 & Hn2); try lia.
  set (n := Zdigits2 (Zpos (m1 * m2)) - 53) in *.
  assert (Hn : 52 <= n <= 53) by (unfold n; lia).
  split.
  - exists m, e. repeat split; lia.
  - cbn [scaledValue].
    assert (Hp : 0 < 2 ^ n) by (apply Z.pow_pos_nonneg; lia).
    pose proof (approxRel_round (Zpos (m1 * m2)) (2 ^ n) mm Hp Hn1 Hn2) as Happ.
    set (w := 2 ^ (e1 + e2 + 2200)).
    assert (HL : Zpos m * 2 ^ (e + 1100) * 2 ^ 1100 = mm * 2 ^ n * w).
    { rewrite <- Hv. unfold w.
      replace (e + 1100) with ((e - (e1 + e2 + n)) + n + (e1 + e2 + 1100)) by lia.
      replace (e1 + e2 + 2200) with ((e1 + e2 + 1100) + 1100) by lia.
      rewrite (pow2_split (e - (e1 + e2 + n) + n) (e1 + e2 + 1100)),
        (pow2_split (e - (e1 + e2 + n)) n),
        (pow2_split (e1 + e2 + 1100) 1100) by lia.
      ring. }
    assert (HR : Zpos m1 * 2 ^ (e1 + 1100) * (Zpos m2 * 2 ^ (e2 + 1100))
                 = Zpos (m1 * m2) * w).
    { unfold w. rewrite Pos2Z.inj_mul.
      replace (e1 + e2 + 2200) with ((e1 + 1100) + (e2 + 1100)) by lia.
      rewrite (pow2_split (e1 + 1100) (e2 + 1100)) by lia. ring. }
    rewrite HL, HR.
    apply approxRel_scale; [apply Z.pow_nonneg; lia|exact Happ].
Qed.

Lemma scaledValue_nonneg (x : number) : 0 <= scaledValue x.
Proof.
  destruct x as [| | |[] m e]; cbn [scaledValue]; lia.
Qed.

Lemma approxRel_eq (k a b a' b' : Z) :
  a = a' -> b = b' -> approxRel k a b -> approxRel k a' b'.
Proof. intros -> ->. exact (fun H => H). Qed.

(** The five roundings of the yearly figure: the three conversions
    [Number(stake)], [Number(total)], [Number(pool)], the quotient and the
    product.  [W] is the common scale of the values. *)
Lemma approxRel_chain (P R S T Yv stake total Y W : Z) :
  0 < W -> 0 <= P -> 0 <= T -> 0 <= Yv -> 0 <= stake ->
  approxRel 1 (P * W) (Yv * R) ->
  approxRel 1 (R * T) (S * W) ->
  approxRel 1 S (stake * W) ->
  approxRel 1 T (total * W) ->
  approxRel 1 Yv (Y * W) ->
  approxRel 5 (P * total) (Y * stake * W).
Proof.
  intros HW HP HT HYv Hst E1 E2 Es Et Ey.
  apply (approxRel_unscale 5 _ _ (W * W)); [nia|].
  pose proof (approxRel_scale 1 _ _ T HT E1) as A.
  pose proof (approxRel_scale 1 _ _ Yv HYv E2) as B.
  assert (C : approxRel 2 (P * W * T) (S * W * Yv)).
  { apply (approxRel_trans 1 1 _ (R * T * Yv)); try lia; [|exact B].
    eapply approxRel_eq; [reflexivity| |exact A]. ring. }
  pose proof (approxRel_scale 1 _ _ (P * W) ltac:(nia) Et) as D0.
  apply approxRel_sym in D0.
  assert (E : approxRel 3 (total * W * (P * W)) (S * W * Yv)).
  { apply (approxRel_trans 1 2 _ (T * (P * W))); try lia; [exact D0|].
    eapply approxRel_eq; [|reflexivity|exact C]. ring. }
  pose proof (approxRel_scale 1 _ _ (W * Yv) ltac:(nia) Es) as F.
  assert (G : approxRel 4 (total * W * (P * W)) (stake * W * (W * Yv))).
  { apply (approxRel_trans 3 1 _ (S * (W * Yv))); try lia; [|exact F].
    eapply approxRel_eq; [reflexivity| |exact E]. ring. }
  pose proof (approxRel_scale 1 _ _ (stake * W * W) ltac:(nia) Ey) as H.
  eapply approxRel_eq; [| |apply (approxRel_trans 4 1 _ _ _ ltac:(lia) ltac:(lia) G)].
  - ring.
  - instantiate (1 := Y * W * (stake * W * W)). ring.
  - eapply approxRel_eq; [|reflexivity|exact H]. ring.
Qed.

(** Five roundings stay below a relative error of [2 ^ -49]. *)
Lemma five_roundings :
  (2 ^ 52 + 1) ^ 5 * 2 ^ 49 <= (2 ^ 52) ^ 5 * (2 ^ 49 + 1).
Proof. vm_compute. discriminate. Qed.

Lemma approxRel_5_bound (a b c : Z) :
  0 < c -> 0 <= b ->
  a * c * (2 ^ 52) ^ 5 < b * c * (2 ^ 52 + 1) ^ 5 ->
  a * 2 ^ 49 < b * (2 ^ 49 + 1).
Proof.
  intros Hc Hb H. pose proof five_roundings as H5.
  set (D5 := (2 ^ 52) ^ 5) in *. set (N5 := (2 ^ 52 + 1) ^ 5) in *.
  assert (HD : 0 < D5) by reflexivity.
  set (u := 2 ^ 49) in *. assert (Hu : 0 < u) by reflexivity.
  assert (H1 : a * D5 < b * N5).
  { apply (Z.mul_lt_mono_pos_r c); [exact Hc|].
    replace (a * D5 * c) with (a * c * D5) by ring.
    replace (b * N5 * c) with (b * c * N5) by ring. exact H. }
  apply (Z.mul_lt_mono_pos_r D5); [exact HD|].
  apply Z.lt_le_trans with (b * N5 * u).
  - replace (a * u * D5) with (a * D5 * u) by ring.
    apply Z.mul_lt_mono_pos_r; assumption.
  - replace (b * N5 * u) with (b * (N5 * u)) by ring.
    replace (b * (u + 1) * D5) with (b * (D5 * (u + 1))) by ring.
    apply Z.mul_le_mono_nonneg_l; assumption.
Qed.

(** Flooring a value that is within five roundings of [n / d]: the floor
    and [n / d] (integer division) are within a factor [1 + 2 ^ -49] of
    each other, up to one unit. *)
Lemma floor_within_five (P W n d : Z) :
  0 < W -> 0 < d -> 0 <= P -> 0 <= n ->
  approxRel 5 (P * d) (n * W) ->
  (P / W) * 2 ^ 49 < (n / d + 1) * (2 ^ 49 + 1)
  /\ (n / d) * 2 ^ 49 < (P / W + 1) * (2 ^ 49 + 1).
Proof.
  intros HW Hd HP Hn [H1 H2].
  pose proof (Z.mul_div_le P W HW) as Py.
  pose proof (Z.mul_succ_div_gt P W HW) as Py'.
  pose proof (Z.mul_div_le n d Hd) as Nx.
  pose proof (Z.mul_succ_div_gt n d Hd) as Nx'.
  pose proof (Z.div_pos P W HP HW) as Hy0.
  pose proof (Z.div_pos n d Hn Hd) as Hx0.
  set (y := P / W) in *. set (x := n / d) in *.
  set (D5 := (2 ^ 52) ^ 5) in *. set (N5 := (2 ^ 52 + 1) ^ 5) in *.
  assert (HD : 0 < D5) by reflexivity.
  assert (HN : 0 < N5) by reflexivity.
  split.
  - apply (approxRel_5_bound y (x + 1) (W * d)); [nia|lia|].
    fold D5 N5.
    apply Z.le_lt_trans with (P * d * D5).
    + replace (y * (W * d) * D5) with (W * y * (d * D5)) by ring.
      replace (P * d * D5) with (P * (d * D5)) by ring.
      apply Z.mul_le_mono_nonneg_r; nia.
    + apply Z.le_lt_trans with (n * W * N5); [exact H1|].
      replace (n * W * N5) with (n * (W * N5)) by ring.
      replace ((x + 1) * (W * d) * N5) with (d * Z.succ x * (W * N5))
        by (unfold Z.succ; ring).
      apply Z.mul_lt_mono_pos_r; nia.
  - apply (approxRel_5_bound x (y + 1) (W * d)); [nia|lia|].
    fold D5 N5.
    apply Z.le_lt_trans with (n * W * D5).
    + replace (x * (W * d) * D5) with (d * x * (W * D5)) by ring.
      replace (n * W * D5) with (n * (W * D5)) by ring.
      apply Z.mul_le_mono_nonneg_r; nia.
    + apply Z.le_lt_trans with (P * d * N5); [exact H2|].
      replace (P * d * N5) with (P * (d * N5)) by ring.
      replace ((y + 1) * (W * d) * N5) with (W * Z.succ y * (d * N5))
        by (unfold Z.succ; ring).
      apply Z.mul_lt_mono_pos_r; nia.
Qed.

End Approx.

(** ** Reward estimation *)

(** The floating-point product that [calculateEstimatedRewards] floors. *)
Lemma yearly_product_returns (stake total bpy : Z) :
  0 < stake < 2 ^ 256 -> 0 < total < 2 ^ 256 -> 0 <= bpy < 2 ^ 53 ->
  exists y,
    toBigInt (floor (mul (ofZ (bpy * rewardPerBlock))
                         (div (ofZ stake) (ofZ total)))) = Ok y.
Proof.
  intros Hs Ht Hb.
  pose proof (ofZ_posFinite stake 256 Hs ltac:(lia)) as HS.
  pose proof (ofZ_posFinite total 256 Ht ltac:(lia)) as HT.
  pose proof (div_bounded _ _ _ _ _ _ HS HT ltac:(lia)) as HR.
  assert (HY : nonNegFinite 59 (ofZ (bpy * rewardPerBlock))).
  { destruct (Z.eq_dec bpy 0) as [->|Hne]; [now left|].
    assert (Hy : 0 < bpy * rewardPerBlock < 2 ^ 111).
    { unfold rewardPerBlock. change (2 ^ 111) with (2 ^ 53 * 2 ^ 58). lia. }
    destruct (ofZ_posFinite _ 111 Hy ltac:(lia)) as (m & e & Hm & Hlt & He).
    right. exists m, e. repeat split; [exact Hm|exact Hlt|lia]. }
  pose proof (mul_bounded _ _ _ _ HY HR ltac:(lia)) as HP.
  exact (floor_toBigInt _ _ HP).
Qed.

(** C6: with a zero total stake the estimator returns the all-zero record
    without dividing; with positive stake and total stake (and a
    non-negative integral blocks-per-year) every record it returns renders
    non-negative daily, monthly and yearly amounts and a non-negative
    percentage; and it does return whenever the two amounts fit 256 bits. *)
Theorem rewards_zero_guard_and_sign
    (rt : Runtime) (stake total bpy : Z) (blocksPerYear : number) :
  calculateEstimatedRewards rt stake 0 blocksPerYear
  = Ok {| daily := "0"; monthly := "0"; yearly := "0"; apy := "0" |}
  /\ (0 < stake -> 0 < total ->
      toBigInt blocksPerYear = Ok bpy -> 0 <= bpy ->
      (forall r, calculateEstimatedRewards rt stake total blocksPerYear = Ok r ->
         exists y a,
           r = {| daily := weiToXdc rt (Z.quot y 365);
                  monthly := weiToXdc rt (Z.quot y 12);
                  yearly := weiToXdc rt y;
                  apy := toFixed rt a 2 |}
           /\ 0 <= Z.quot y 365 /\ 0 <= Z.quot y 12 /\ 0 <= y
           /\ isNonNegative a = true)
      /\ (stake < 2 ^ 256 -> total < 2 ^ 256 -> bpy < 2 ^ 53 ->
          returns (calculateEstimatedRewards rt stake total blocksPerYear)
          = true)).
Proof.
  split; [reflexivity|].
  intros Hs Ht Hbpy Hb. unfold calculateEstimatedRewards.
  destruct (Z.eqb_spec total 0) as [->|_]; [lia|].
  rewrite Hbpy. cbn [bind].
  set (P := mul (ofZ (bpy * rewardPerBlock)) (div (ofZ stake) (ofZ total))).
  split.
  - intros r Hr.
    destruct (toBigInt (floor P)) as [y|err] eqn:Hy; [|discriminate].
    cbn [bind] in Hr. injection Hr as <-.
    assert (Hy0 : 0 <= y).
    { apply (toBigInt_notNegative (floor P)); [|exact Hy].
      apply floor_notNegative, mul_notNegative.
      - apply isNonNegative_notNegative, ofZ_sign.
        unfold rewardPerBlock. lia.
      - apply div_notNegative; apply isNonNegative_notNegative, ofZ_sign; lia. }
    exists y, (mul (div (ofZ y) (ofZ stake)) (ofZ 100)).
    split; [reflexivity|].
    split; [apply Z.quot_pos; lia|]. split; [apply Z.quot_pos; lia|].
    split; [exact Hy0|].
    destruct (ofZ_positive stake Hs) as [HS|HS].
    + apply mul_sign; [|reflexivity].
      apply div_sign; [apply ofZ_sign; exact Hy0|exact HS].
    + exfalso.
      assert (Hnf : returns (toBigInt (floor P)) = false).
      { apply toBigInt_floor_not_finite. unfold P. rewrite HS.
        pose proof (ofZ_sign (bpy * rewardPerBlock)
                      ltac:(unfold rewardPerBlock; lia)) as HY.
        destruct (ofZ_positive total Ht) as [HT|HT].
        - destruct (ofZ total) as [| | |[] mt et]; try discriminate.
          destruct (ofZ (bpy * rewardPerBlock)) as [[]|[]| |[] my ey];
            try discriminate; exact I.
        - rewrite HT.
          destruct (ofZ (bpy * rewardPerBlock)) as [[]|[]| |[] my ey];
            try discriminate; exact I. }
      rewrite Hy in Hnf. discriminate.
  - intros Hs2 Ht2 Hb2.
    destruct (yearly_product_returns stake total bpy) as [y Hy]; try lia.
    fold P in Hy. rewrite Hy. reflexivity.
Qed.

Lemma calculateEstimatedRewards_yearly
    (rt : Runtime) (stake total : Z) (blocksPerYear : number) :
  total <> 0 ->
  calculateEstimatedRewards rt stake total blocksPerYear
  = (y <- userYearlyRewards stake total blocksPerYear ;;
     Ok {| daily := weiToXdc rt (Z.quot y 365);
           monthly := weiToXdc rt (Z.quot y 12);
           yearly := weiToXdc rt y;
           apy := toFixed rt (mul (div (ofZ y) (ofZ stake)) (ofZ 100)) 2 |}).
Proof.
  intros Ht. unfold calculateEstimatedRewards, userYearlyRewards.
  destruct (Z.eqb_spec total 0); [contradiction|].
  destruct (toBigInt blocksPerYear); reflexivity.
Qed.

Lemma rewards_zero_guard_and_sign_witness :
  returns (calculateEstimatedRewards modelRuntime (10 ^ 22) (10 ^ 27)
             defaultBlocksPerYear) = true.
Proof.
  apply (proj2 (proj2 (rewards_zero_guard_and_sign modelRuntime
                         (10 ^ 22) (10 ^ 27) 15768000 defaultBlocksPerYear)
                  ltac:(lia) ltac:(lia) eq_refl ltac:(lia)));
    vm_compute; reflexivity.
Defined.

(** C1, as stated, fails: the share ratio and the product are binary64
    values, so the yearly figure is not the exact integer floor.  For a
    stake of 1 XDC out of 3 XDC the code yields
    1313999999999999979028480 wei where the exact floor is
    1314000000000000000000000 wei. *)
Lemma yearly_differs_from_exact_floor :
  0 < 10 ^ 18 /\ 0 < 3 * 10 ^ 18
  /\ userYearlyRewards (10 ^ 18) (3 * 10 ^ 18) defaultBlocksPerYear
     = Ok 1313999999999999979028480
  /\ exactYearly (10 ^ 18) (3 * 10 ^ 18) 15768000 = 1314000000000000000000000
  /\ (r <- calculateEstimatedRewards modelRuntime (10 ^ 18) (3 * 10 ^ 18)
             defaultBlocksPerYear ;; Ok (yearly r))
     = Ok "1313999.99999999997902848"%string
  /\ EthersModel.formatEther (exactYearly (10 ^ 18) (3 * 10 ^ 18) 15768000)
     = "1314000.0"%string.
Proof. repeat split; vm_compute; reflexivity. Qed.

(** The yearly figure against the exact quotient: it is returned, and the
    two agree up to a relative error of [2 ^ -49] and one wei. *)
Lemma userYearlyRewards_accuracy
    (stake total bpy : Z) (blocksPerYear : number) :
  0 < stake < 2 ^ 256 -> 0 < total < 2 ^ 256 ->
  toBigInt blocksPerYear = Ok bpy -> 0 <= bpy < 2 ^ 53 ->
  exists y,
    userYearlyRewards stake total blocksPerYear = Ok y
    /\ 0 <= y
    /\ y * 2 ^ 49 < (exactYearly stake total bpy + 1) * (2 ^ 49 + 1)
    /\ exactYearly stake total bpy * 2 ^ 49 < (y + 1) * (2 ^ 49 + 1).
Proof.
  intros Hs Ht Hbpy Hb. unfold userYearlyRewards, exactYearly.
  rewrite Hbpy. cbn [bind].
  destruct (ofZ_value stake 256 Hs ltac:(lia)) as [Ns As].
  destruct (ofZ_value total 256 Ht ltac:(lia)) as [Nt At].
  destruct (div_value _ _ _ _ _ _ Ns Nt) as [Nr Ar]; try lia.
  set (r := div (ofZ stake) (ofZ total)) in *.
  destruct (Z.eq_dec bpy 0) as [->|Hne].
  - exists 0. destruct Nr as (m & e & -> & _ & _).
    repeat split; reflexivity.
  - assert (Hy : 0 < bpy * rewardPerBlock < 2 ^ 111).
    { unfold rewardPerBlock. change (2 ^ 111) with (2 ^ 53 * 2 ^ 58). lia. }
    set (Y := bpy * rewardPerBlock) in *.
    destruct (ofZ_value Y 111 Hy ltac:(lia)) as [Ny Ay].
    destruct (mul_value _ _ _ _ _ _ Ny Nr) as [Np Ap]; try lia.
    set (p := mul (ofZ Y) r) in *.
    assert (W0 : 0 < 2 ^ 1100) by (apply Z.pow_pos_nonneg; lia).
    pose proof (approxRel_chain _ _ _ _ _ stake total Y _ W0
                  (scaledValue_nonneg p) (scaledValue_nonneg (ofZ total))
                  (scaledValue_nonneg (ofZ Y)) ltac:(lia)
                  Ap Ar As At Ay) as H5.
    destruct (floor_within_five _ _ (Y * stake) total W0 ltac:(lia)
                (scaledValue_nonneg p) ltac:(nia) H5) as [B1 B2].
    destruct Np as (m & e & Hp & Hm & He).
    exists (scaledValue p / 2 ^ 1100).
    split; [|split; [|split]].
    + rewrite Hp. apply toBigInt_floor_scaled; lia.
    + apply Z.div_pos; [apply scaledValue_nonneg|exact W0].
    + exact B1.
    + exact B2.
Qed.

(** C1 (amended): the yearly figure goes through binary64, so it is not the
    exact integer floor in general, but it is close to it.  For a stake and
    a total stake in [(0, 2 ^ 256)] and an integral [blocksPerYear] in
    [[0, 2 ^ 53)], [calculateEstimatedRewards] returns; the bigint [y] it
    renders as the yearly figure and the exact floor of
    [blocksPerYear * rewardPerBlock * stake / totalNetworkStake] are within
    a factor [1 + 2 ^ -49] of each other, up to one wei; and the daily and
    monthly figures are [y / 365] and [y / 12].  In the scenario of the
    specification (10,000 XDC staked out of 1,000,000,000 XDC, 15,768,000
    blocks per year) the yearly figure is exactly 39.42 XDC. *)
Theorem yearly_within_rounding_error
    (rt : Runtime) (stake total bpy : Z) (blocksPerYear : number) :
  0 < stake < 2 ^ 256 -> 0 < total < 2 ^ 256 ->
  toBigInt blocksPerYear = Ok bpy -> 0 <= bpy < 2 ^ 53 ->
  (exists y,
     calculateEstimatedRewards rt stake total blocksPerYear
     = Ok {| daily := weiToXdc rt (Z.quot y 365);
             monthly := weiToXdc rt (Z.quot y 12);
             yearly := weiToXdc rt y;
             apy := toFixed rt (mul (div (ofZ y) (ofZ stake)) (ofZ 100)) 2 |}
     /\ 0 <= y
     /\ y * 2 ^ 49 < (exactYearly stake total bpy + 1) * (2 ^ 49 + 1)
     /\ exactYearly stake total bpy * 2 ^ 49 < (y + 1) * (2 ^ 49 + 1))
  /\ userYearlyRewards (10 ^ 22) (10 ^ 27) defaultBlocksPerYear
     = Ok 39420000000000000000
  /\ exactYearly (10 ^ 22) (10 ^ 27) 15768000 = 39420000000000000000
  /\ calculateEstimatedRewards modelRuntime (10 ^ 22) (10 ^ 27)
       defaultBlocksPerYear
     = Ok {| daily := "0.108"; monthly := "3.285"; yearly := "39.42";
             apy := "0.39" |}.
Proof.
  intros Hs Ht Hbpy Hb. split.
  - destruct (userYearlyRewards_accuracy stake total bpy blocksPerYear
                Hs Ht Hbpy Hb) as (y & Hy & Hy0 & B1 & B2).
    exists y. split; [|auto].
    rewrite calculateEstimatedRewards_yearly by lia.
    rewrite Hy. reflexivity.
  - repeat split; vm_compute; reflexivity.
Qed.

Lemma yearly_within_rounding_error_witness :
  exists y,
    calculateEstimatedRewards modelRuntime (10 ^ 18) (3 * 10 ^ 18)
      defaultBlocksPerYear
    = Ok {| daily := weiToXdc modelRuntime (Z.quot y 365);
            monthly := weiToXdc modelRuntime (Z.quot y 12);
            yearly := weiToXdc modelRuntime y;
            apy := toFixed modelRuntime
                     (mul (div (ofZ y) (ofZ (10 ^ 18))) (ofZ 100)) 2 |}
    /\ 0 <= y
    /\ y * 2 ^ 49
       < (exactYearly (10 ^ 18) (3 * 10 ^ 18) 15768000 + 1) * (2 ^ 49 + 1)
    /\ exactYearly (10 ^ 18) (3 * 10 ^ 18) 15768000 * 2 ^ 49
       < (y + 1) * (2 ^ 49 + 1).
Proof.
  apply (yearly_within_rounding_error modelRuntime
           (10 ^ 18) (3 * 10 ^ 18) 15768000 defaultBlocksPerYear);
    [split; reflexivity|split; reflexivity|reflexivity|lia].
Defined.

(** * Further properties of the address utilities *)

Lemma accepted_tagged (p : string) :
  accepted ("xdc" ++ p) = true /\ accepted ("0x" ++ p) = true.
Proof. split; reflexivity. Qed.

Lemma toXdcAddress_lowercase (s x : string) :
  toXdcAddress s = Ok x -> x = ("xdc" ++ payloadOf s)%string /\ toLowerCase x = x.
Proof.
  intros H. destruct (accepted s) eqn:Ha.
  - rewrite (toXdcAddress_accepted s Ha) in H.
    assert (E : x = ("xdc" ++ payloadOf s)%string) by congruence.
    split; [exact E|]. rewrite E.
    rewrite toLowerCase_app, toLowerCase_payloadOf. reflexivity.
  - rewrite (toXdcAddress_rejected s Ha) in H. discriminate.
Qed.

Lemma toEthAddress_lowercase (s x : string) :
  toEthAddress s = Ok x -> x = ("0x" ++ payloadOf s)%string /\ toLowerCase x = x.
Proof.
  intros H. destruct (accepted s) eqn:Ha.
  - rewrite (toEthAddress_accepted s Ha) in H.
    assert (E : x = ("0x" ++ payloadOf s)%string) by congruence.
    split; [exact E|]. rewrite E.
    rewrite toLowerCase_app, toLowerCase_payloadOf. reflexivity.
  - rewrite (toEthAddress_rejected s Ha) in H. discriminate.
Qed.

Lemma normalizeAddress_accepted (s : string) (f : AddressFormat) :
  accepted s = true ->
  normalizeAddress s f
  = Ok ((match f with format_xdc => "xdc" | format_0x => "0x" end)
        ++ payloadOf s)%string.
Proof.
  intros Ha. destruct f; cbn [normalizeAddress].
  - now apply toXdcAddress_accepted.
  - now apply toEthAddress_accepted.
Qed.

Lemma returns_normalizeAddress (s : string) (f : AddressFormat) :
  returns (normalizeAddress s f) = accepted s.
Proof.
  destruct f; [apply returns_toXdcAddress|apply returns_toEthAddress].
Qed.

(** X1: [normalizeAddress] absorbs itself: once an address has been normalized
    to either format, normalizing the result to a format [f2] gives what
    normalizing the original to [f2] gives; in particular it is idempotent.
    The result is lowercase, and it is again a string that both formats
    accept. *)
Theorem normalizeAddress_absorbs (a x : string) (f1 f2 : AddressFormat) :
  normalizeAddress a f1 = Ok x ->
  normalizeAddress x f2 = normalizeAddress a f2
  /\ normalizeAddress x f1 = Ok x
  /\ toLowerCase x = x
  /\ accepted x = true.
Proof.
  intros H.
  assert (Ha : accepted a = true).
  { rewrite <- (returns_normalizeAddress a f1), H. reflexivity. }
  rewrite (normalizeAddress_accepted a f1 Ha) in H.
  assert (E : x = ((match f1 with format_xdc => "xdc" | format_0x => "0x" end)
                   ++ payloadOf a)%string) by congruence.
  clear H. subst x.
  assert (Hp : forall t, In t ["xdc"; "0x"]%string ->
                 accepted (t ++ payloadOf a) = true
                 /\ payloadOf (t ++ payloadOf a) = payloadOf a).
  { intros t [<-|[<-|[]]]; (split; [reflexivity|]).
    - destruct (payloadOf_tagged (payloadOf a)) as [-> _].
      apply toLowerCase_payloadOf.
    - destruct (payloadOf_tagged (payloadOf a)) as [_ ->].
      apply toLowerCase_payloadOf. }
  assert (Ht : In (match f1 with format_xdc => "xdc" | format_0x => "0x" end)
                 ["xdc"; "0x"]%string)
    by (destruct f1; cbn; auto).
  destruct (Hp _ Ht) as [Hacc Hpay].
  repeat split.
  - rewrite (normalizeAddress_accepted _ f2 Hacc), Hpay.
    now rewrite (normalizeAddress_accepted a f2 Ha).
  - now rewrite (normalizeAddress_accepted _ f1 Hacc), Hpay.
  - rewrite toLowerCase_app, toLowerCase_payloadOf. now destruct f1.
  - exact Hacc.
Qed.

Lemma normalizeAddress_absorbs_witness :
  normalizeAddress "0xabcdef0123456789abcdef0123456789abcdef01" format_xdc
  = normalizeAddress "XDCABCDEF0123456789abcdef0123456789ABCDEF01" format_xdc.
Proof.
  exact (proj1 (normalizeAddress_absorbs
                  "XDCABCDEF0123456789abcdef0123456789ABCDEF01"
                  "0xabcdef0123456789abcdef0123456789abcdef01"
                  format_0x format_xdc eq_refl)).
Defined.

(** ** Validation and parsing *)

Lemma isPayload_toLowerCase (s : string) :
  isPayload (toLowerCase s) = isPayload s.
Proof. unfold isPayload. now rewrite toLowerCase_length, allHex_toLowerCase. Qed.

Lemma isPayload_slice_lower (n : nat) (s : string) :
  isPayload (slice n (toLowerCase s)) = isPayload (slice n s).
Proof. rewrite <- toLowerCase_slice. apply isPayload_toLowerCase. Qed.

(** A string is in a known form exactly when what follows its tag (the
    whole string when it has none) is a payload. *)
Lemma isKnownForm_payloadOf (s : string) :
  isKnownForm s = isPayload (payloadOf s).
Proof.
  unfold isKnownForm, isFormatA, isFormatB, payloadOf.
  destruct (isPayload s) eqn:Hp.
  - destruct (payload_no_tag s Hp) as (-> & -> & _ & _). cbn [andb orb].
    now rewrite isPayload_toLowerCase.
  - rewrite orb_false_r.
    destruct (startsWith "xdc" (toLowerCase s)) eqn:Hx.
    + cbn [andb]. rewrite isPayload_slice_lower.
      apply startsWith_xdc_inv in Hx as E.
      assert (H0 : startsWith "0x" (toLowerCase s) = false)
        by (rewrite E; reflexivity).
      rewrite H0. cbn [andb]. now rewrite orb_false_r.
    + cbn [andb orb]. destruct (startsWith "0x" (toLowerCase s)) eqn:H0.
      * cbn [andb]. now rewrite isPayload_slice_lower.
      * cbn [andb]. now rewrite isPayload_toLowerCase.
Qed.

Lemma isHexChar_not_space (c : ascii) :
  isHexChar c = true -> isWhiteSpace c = false.
Proof.
  destruct c as [[] [] [] [] [] [] [] []]; simpl; try discriminate; reflexivity.
Qed.

Lemma trimEnd_cons (c : ascii) (s : string) :
  isWhiteSpace c = false -> trimEnd (String c s) = String c (trimEnd s).
Proof. intros H. cbn [trimEnd]. rewrite H. now destruct (trimEnd s). Qed.

Lemma trimEnd_allHex (p : string) : allHex p = true -> trimEnd p = p.
Proof.
  induction p as [|c p IH]; [reflexivity|]. cbn [allHex]. intros H.
  apply andb_true_iff in H as [Hc Hp].
  rewrite trimEnd_cons by now apply isHexChar_not_space.
  now rewrite IH.
Qed.

Lemma trim_tagged_hex (p : string) :
  allHex p = true -> trim ("xdc" ++ p) = ("xdc" ++ p)%string.
Proof.
  intros H. unfold trim.
  change (trimStart ("xdc" ++ p)) with ("xdc" ++ p)%string.
  change ("xdc" ++ p)%string with (String "x" (String "d" (String "c" p))).
  rewrite !trimEnd_cons by reflexivity. now rewrite trimEnd_allHex.
Qed.

Section AddressValidation.

(** [ethers.isAddress] is only ever applied to the output of
    [toEthAddress], a lowercase string that starts with [0x]; on such a
    string it answers whether the remainder is 40 hexadecimal characters. *)
Variable isAddress : string -> bool.
Hypothesis isAddress_lowercase :
  forall r, toLowerCase r = r -> isAddress ("0x" ++ r) = isPayload r.

Lemma isValidXdcAddress_isKnownForm (s : string) :
  isValidXdcAddress isAddress s = isKnownForm s.
Proof.
  unfold isValidXdcAddress. destruct (accepted s) eqn:Ha.
  - assert (Hf : isFalsy s = false).
    { unfold accepted in Ha. now destruct (isFalsy s). }
    rewrite Hf, (toEthAddress_accepted s Ha).
    rewrite isAddress_lowercase by apply toLowerCase_payloadOf.
    symmetry. apply isKnownForm_payloadOf.
  - assert (Hk : isKnownForm s = false).
    { destruct (isKnownForm s) eqn:K; [|reflexivity].
      now rewrite (isKnownForm_accepted s K) in Ha. }
    rewrite Hk, (toEthAddress_rejected s Ha). now destruct (isFalsy s).
Qed.

(** X2: [isValidXdcAddress] accepts exactly the strings in format A ([xdc] and
    40 hexadecimal characters), in format B ([0x] and 40 hexadecimal
    characters) and the bare payloads of 40 hexadecimal characters, in any
    letter case; on every string it accepts both translations return, and
    the result is again valid. *)
Theorem isValidXdcAddress_exact (s : string) :
  isValidXdcAddress isAddress s = isKnownForm s
  /\ (isValidXdcAddress isAddress s = true ->
      toXdcAddress s = Ok ("xdc" ++ payloadOf s)%string
      /\ toEthAddress s = Ok ("0x" ++ payloadOf s)%string
      /\ isPayload (payloadOf s) = true
      /\ isValidXdcAddress isAddress ("xdc" ++ payloadOf s) = true
      /\ isValidXdcAddress isAddress ("0x" ++ payloadOf s) = true).
Proof.
  split; [apply isValidXdcAddress_isKnownForm|].
  rewrite isValidXdcAddress_isKnownForm. intros K.
  pose proof (isKnownForm_accepted s K) as Ha.
  pose proof (payloadOf_known s K) as Hp.
  split; [now apply toXdcAddress_accepted|].
  split; [now apply toEthAddress_accepted|].
  split; [exact Hp|].
  rewrite !isValidXdcAddress_isKnownForm, !isKnownForm_payloadOf.
  destruct (payloadOf_tagged (payloadOf s)) as [-> ->].
  now rewrite toLowerCase_payloadOf.
Qed.

Lemma parseAddress_closed_form (input : string) :
  parseAddress isAddress input
  = Ok (if isKnownForm (trim input)
        then Some ("xdc" ++ payloadOf (trim input))%string else None).
Proof.
  unfold parseAddress. destruct input as [|c input]; [reflexivity|].
  cbn [isFalsy]. rewrite isValidXdcAddress_isKnownForm.
  destruct (isKnownForm (trim (String c input))) eqn:K; [|reflexivity].
  now rewrite (toXdcAddress_accepted _ (isKnownForm_accepted _ K)).
Qed.

(** X3: [parseAddress] never throws.  It returns [null] unless the input,
    stripped of surrounding white space, is in format A, format B or a bare
    payload; otherwise it returns the format-A spelling: lowercase, [xdc]
    followed by the 40 hexadecimal characters.  Parsing its own result
    returns it unchanged. *)
Theorem parseAddress_valid_or_null (input : string) :
  parseAddress isAddress input
  = Ok (if isKnownForm (trim input)
        then Some ("xdc" ++ payloadOf (trim input))%string else None)
  /\ (forall a, parseAddress isAddress input = Ok (Some a) ->
        isFormatA a = true
        /\ toLowerCase a = a
        /\ isValidXdcAddress isAddress a = true
        /\ parseAddress isAddress a = Ok (Some a)).
Proof.
  split; [apply parseAddress_closed_form|].
  intros a. rewrite parseAddress_closed_form.
  destruct (isKnownForm (trim input)) eqn:K; [|discriminate].
  intros E.
  assert (Ea : a = ("xdc" ++ payloadOf (trim input))%string) by congruence.
  clear E. subst a.
  pose proof (payloadOf_known _ K) as Hp.
  set (p := payloadOf (trim input)) in *.
  assert (Hlow : toLowerCase p = p) by apply toLowerCase_payloadOf.
  assert (HA : isFormatA ("xdc" ++ p) = true).
  { unfold isFormatA.
    change (slice 3 ("xdc" ++ p)) with p. rewrite Hp.
    rewrite toLowerCase_app. reflexivity. }
  assert (HK : isKnownForm ("xdc" ++ p) = true)
    by (unfold isKnownForm; now rewrite HA).
  split; [exact HA|].
  split; [now rewrite toLowerCase_app, Hlow|].
  split; [now rewrite isValidXdcAddress_isKnownForm|].
  rewrite parseAddress_closed_form.
  assert (Hhex : allHex p = true).
  { unfold isPayload in Hp. now apply andb_true_iff in Hp as [_ Hp]. }
  rewrite (trim_tagged_hex p Hhex), HK.
  destruct (payloadOf_tagged p) as [-> _]. now rewrite Hlow.
Qed.

End AddressValidation.

Lemma isValidXdcAddress_exact_witness :
  isValidXdcAddress (fun e => isPayload (slice 2 e))
    "XDCABCDEF0123456789abcdef0123456789ABCDEF01" = true
  /\ isValidXdcAddress (fun e => isPayload (slice 2 e)) "0xzz" = false.
Proof.
  split.
  - rewrite (proj1 (isValidXdcAddress_exact (fun e => isPayload (slice 2 e))
                      (fun r _ => eq_refl) _)).
    reflexivity.
  - rewrite (proj1 (isValidXdcAddress_exact (fun e => isPayload (slice 2 e))
                      (fun r _ => eq_refl) _)).
    reflexivity.
Defined.

Lemma parseAddress_valid_or_null_witness :
  parseAddress (fun e => isPayload (slice 2 e))
    "  0xABCDEF0123456789abcdef0123456789ABCDEF01 "
  = Ok (Some "xdcabcdef0123456789abcdef0123456789abcdef01").
Proof.
  rewrite (proj1 (parseAddress_valid_or_null (fun e => isPayload (slice 2 e))
                    (fun r _ => eq_refl) _)).
  reflexivity.
Defined.

(** ** Address equality and the zero address *)

Lemma addressesEqual_refl (a : string) : addressesEqual a a = accepted a.
Proof.
  rewrite addressesEqual_closed_form, String.eqb_refl.
  now destruct (accepted a).
Qed.

Lemma addressesEqual_sym (a b : string) :
  addressesEqual a b = addressesEqual b a.
Proof.
  rewrite !addressesEqual_closed_form, (String.eqb_sym (payloadOf a)).
  now rewrite (andb_comm (accepted a)).
Qed.

Lemma addressesEqual_inv (a b : string) :
  addressesEqual a b = true ->
  accepted a = true /\ accepted b = true /\ payloadOf a = payloadOf b.
Proof.
  rewrite addressesEqual_closed_form. intros H.
  apply andb_true_iff in H as [H H3]. apply andb_true_iff in H as [H1 H2].
  apply String.eqb_eq in H3. auto.
Qed.

(** X4: [addressesEqual] is an equivalence on the strings the translations
    accept: reflexive exactly on those, symmetric and transitive on all
    strings; and the translations do not distinguish equal addresses. *)
Theorem addressesEqual_equivalence (a b c : string) :
  addressesEqual a b = true ->
  addressesEqual a a = true
  /\ addressesEqual b a = true
  /\ (addressesEqual b c = true -> addressesEqual a c = true)
  /\ toXdcAddress a = toXdcAddress b
  /\ toEthAddress a = toEthAddress b
  /\ (forall d, addressesEqual a d = addressesEqual b d).
Proof.
  intros H. destruct (addressesEqual_inv a b H) as (Ha & Hb & Hp).
  split; [now rewrite addressesEqual_refl|].
  split; [now rewrite addressesEqual_sym|].
  split.
  { intros H'. destruct (addressesEqual_inv b c H') as (_ & Hc & Hp').
    rewrite addressesEqual_closed_form, Ha, Hc, Hp, Hp'.
    now rewrite String.eqb_refl. }
  split; [now rewrite (toXdcAddress_accepted a Ha), (toXdcAddress_accepted b Hb), Hp|].
  split; [now rewrite (toEthAddress_accepted a Ha), (toEthAddress_accepted b Hb), Hp|].
  intros d. now rewrite !addressesEqual_closed_form, Ha, Hb, Hp.
Qed.

Lemma addressesEqual_equivalence_witness :
  toXdcAddress "XDCABCDEF0123456789abcdef0123456789ABCDEF01"
  = toXdcAddress "0xabcdef0123456789ABCDEF0123456789abcdef01".
Proof.
  exact (proj1 (proj2 (proj2 (proj2
    (addressesEqual_equivalence
       "XDCABCDEF0123456789abcdef0123456789ABCDEF01"
       "0xabcdef0123456789ABCDEF0123456789abcdef01" "" eq_refl))))).
Defined.

Lemma isZeroAddress_closed_form (s : string) :
  isZeroAddress s = accepted s && String.eqb (payloadOf s) zeroPayload.
Proof.
  unfold isZeroAddress. destruct (accepted s) eqn:Ha.
  - rewrite (toEthAddress_accepted s Ha). cbn [andb].
    destruct (String.eqb_spec (payloadOf s) zeroPayload) as [E|E].
    + rewrite E. reflexivity.
    + apply String.eqb_neq. intros E'. apply E.
      unfold ZeroAddress in E'. now injection E'.
  - now rewrite (toEthAddress_rejected s Ha).
Qed.

(** X5: [isZeroAddress] never throws and agrees with [addressesEqual] against
    [ethers.ZeroAddress]: it holds exactly for the spellings of the
    all-zero payload ([xdc] or [0x] tag, or none).  A zero address
    translates to the zero address of either format, which is what
    [getZeroAddress] returns, and it is equal to exactly the zero
    addresses. *)
Theorem isZeroAddress_sound (s : string) (f : AddressFormat) :
  isZeroAddress s = addressesEqual s ZeroAddress
  /\ (exists z, getZeroAddress f = Ok z /\ isZeroAddress z = true)
  /\ (isZeroAddress s = true ->
      payloadOf s = zeroPayload
      /\ normalizeAddress s f = getZeroAddress f
      /\ (forall b, addressesEqual s b = isZeroAddress b)).
Proof.
  split.
  { rewrite addressesEqual_closed_form, isZeroAddress_closed_form.
    now rewrite andb_true_r. }
  split; [destruct f; eexists; split; reflexivity|].
  rewrite isZeroAddress_closed_form. intros H.
  apply andb_true_iff in H as [Ha Hp]. apply String.eqb_eq in Hp.
  split; [exact Hp|].
  split.
  { unfold getZeroAddress.
    rewrite (normalizeAddress_accepted s f Ha), Hp. now destruct f. }
  intros b. rewrite addressesEqual_closed_form, isZeroAddress_closed_form.
  rewrite Ha, Hp. cbn [andb]. now rewrite (String.eqb_sym zeroPayload).
Qed.

Lemma isZeroAddress_sound_witness :
  normalizeAddress "XDC0000000000000000000000000000000000000000" format_0x
  = getZeroAddress format_0x.
Proof.
  exact (proj1 (proj2 (proj2 (proj2
    (isZeroAddress_sound "XDC0000000000000000000000000000000000000000"
       format_0x)) eq_refl))).
Defined.

(** ** Truncation for display *)

Lemma substring_length (n m : nat) (s : string) :
  (n + m <= String.length s)%nat ->
  String.length (String.substring n m s) = m.
Proof.
  revert n m. induction s as [|c s IH]; intros [|n] [|m]; cbn; intros H;
    try reflexivity; try lia.
  - f_equal. apply (IH 0%nat m). cbn. lia.
  - apply (IH n 0%nat). lia.
  - apply (IH n (S m)). lia.
Qed.

Lemma substring_all (s : string) :
  String.substring 0 (String.length s) s = s.
Proof. induction s as [|c s IH]; cbn; congruence. Qed.

Lemma append_length (s t : string) :
  String.length (s ++ t) = (String.length s + String.length t)%nat.
Proof. induction s as [|c s IH]; cbn; congruence. Qed.

Lemma String_slice_prefix (s : string) (k : Z) :
  0 <= k <= Z.of_nat (String.length s) ->
  String_slice s 0 k = String.substring 0 (Z.to_nat k) s.
Proof.
  intros H. unfold String_slice, sliceIndex.
  destruct (Z.ltb_spec k 0); [lia|]. cbn [Z.ltb Z.compare].
  rewrite !Z.min_l by lia. cbn [Z.to_nat]. now rewrite Z.sub_0_r.
Qed.

Lemma String_slice_suffix (s : string) (k : Z) :
  0 <= k <= Z.of_nat (String.length s) ->
  String_slice s (- k) (Z.of_nat (String.length s))
  = if k =? 0 then s
    else String.substring (Z.to_nat (Z.of_nat (String.length s) - k))
           (Z.to_nat k) s.
Proof.
  intros H. unfold String_slice, sliceIndex.
  set (len := Z.of_nat (String.length s)) in *.
  destruct (Z.ltb_spec len 0); [lia|]. rewrite (Z.min_l len len) by lia.
  destruct (Z.eqb_spec k 0) as [->|Hk].
  - cbn [Z.opp Z.ltb Z.compare]. rewrite Z.min_l by lia.
    rewrite Z.sub_0_r. unfold len. rewrite Nat2Z.id. cbn [Z.to_nat].
    apply substring_all.
  - destruct (Z.ltb_spec (- k) 0); [|lia].
    rewrite Z.max_l by lia. f_equal; lia.
Qed.

(** X6: [truncateAddress] on a string the translation accepts, with [x] the
    format-A spelling and [len] its length: the address is returned whole
    when [len <= startChars + endChars]; otherwise, for [0 <= startChars]
    and [0 < endChars], the result is the first [startChars] characters,
    three dots and the last [endChars] characters, [startChars + 3 +
    endChars] characters in all; with [endChars = 0] the dots are followed
    by the whole address, not by nothing.  With the default 6 and 4 a valid
    address is shortened to 13 characters. *)
Theorem truncateAddress_shape (s : string) (startChars endChars : Z) :
  accepted s = true ->
  let x := ("xdc" ++ payloadOf s)%string in
  let len := Z.of_nat (String.length x) in
  (len <= startChars + endChars -> truncateAddress s startChars endChars = Ok x)
  /\ (0 <= startChars -> 0 < endChars -> startChars + endChars < len ->
      exists r,
        truncateAddress s startChars endChars = Ok r
        /\ r = (String.substring 0 (Z.to_nat startChars) x ++ "..."
                ++ String.substring (Z.to_nat (len - endChars))
                     (Z.to_nat endChars) x)%string
        /\ Z.of_nat (String.length r) = startChars + 3 + endChars)
  /\ (0 <= startChars < len ->
      truncateAddress s startChars 0
      = Ok (String.substring 0 (Z.to_nat startChars) x ++ "..." ++ x)%string)
  /\ (isKnownForm s = true ->
      truncateAddress s 6 4
      = Ok (String.substring 0 6 x ++ "..." ++ String.substring 39 4 x)%string
      /\ String.length (String.substring 0 6 x ++ "..."
                        ++ String.substring 39 4 x) = 13%nat).
Proof.
  intros Ha x len.
  assert (Hx : truncateAddress s startChars endChars
               = if len <=? startChars + endChars then Ok x
                 else Ok (String_slice x 0 startChars ++ "..."
                          ++ String_slice x (- endChars) len)%string).
  { unfold truncateAddress. now rewrite (toXdcAddress_accepted s Ha). }
  assert (Hgen : forall st en, 0 <= st -> 0 <= en -> st + en < len ->
            truncateAddress s st en
            = Ok (String.substring 0 (Z.to_nat st) x ++ "..."
                  ++ (if (en =? 0)%Z then x
                      else String.substring (Z.to_nat (len - en)%Z)
                             (Z.to_nat en) x))%string).
  { intros st en Hst Hen Hlt. unfold truncateAddress.
    rewrite (toXdcAddress_accepted s Ha). cbn [bind]. fold x. fold len.
    destruct (Z.leb_spec len (st + en)); [lia|].
    rewrite String_slice_prefix by (fold len; lia).
    unfold len. rewrite String_slice_suffix by (fold len; lia).
    reflexivity. }
  split; [|split; [|split]].
  - intros Hle. rewrite Hx. destruct (Z.leb_spec len (startChars + endChars)); [reflexivity|lia].
  - intros Hst Hen Hlt. eexists. split; [|split; [reflexivity|]].
    + rewrite (Hgen startChars endChars) by lia.
      destruct (Z.eqb_spec endChars 0); [lia|]. reflexivity.
    + rewrite !append_length, !substring_length.
      * cbn [String.length]. lia.
      * apply Nat2Z.inj_le. rewrite Nat2Z.inj_add, !Z2Nat.id by lia. fold len. lia.
      * apply Nat2Z.inj_le. rewrite Nat2Z.inj_add, !Z2Nat.id by lia. fold len. lia.
  - intros Hst. rewrite (Hgen startChars 0) by lia. reflexivity.
  - intros K. pose proof (payloadOf_known s K) as Hp.
    unfold isPayload in Hp. apply andb_true_iff in Hp as [Hl _].
    apply Nat.eqb_eq in Hl.
    assert (Hlen : len = 43).
    { unfold len, x. rewrite append_length, Hl. reflexivity. }
    split.
    + rewrite (Hgen 6 4) by lia. rewrite Hlen. reflexivity.
    + rewrite !append_length, !substring_length; [reflexivity| |];
        unfold x; rewrite append_length, Hl; cbn; lia.
Qed.

Lemma truncateAddress_shape_witness :
  truncateAddress "0xABCDEF0123456789abcdef0123456789ABCDEF01" 6 4
  = Ok "xdcabc...ef01"
  /\ truncateAddress "0xABCDEF0123456789abcdef0123456789ABCDEF01" 6 0
     = Ok "xdcabc...xdcabcdef0123456789abcdef0123456789abcdef01".
Proof.
  split.
  - exact (proj1 (proj2 (proj2 (proj2
      (truncateAddress_shape "0xABCDEF0123456789abcdef0123456789ABCDEF01"
         6 4 eq_refl))) eq_refl)).
  - apply (proj1 (proj2 (proj2
      (truncateAddress_shape "0xABCDEF0123456789abcdef0123456789ABCDEF01"
         6 0 eq_refl)))).
    split; [lia|vm_compute; reflexivity].
Defined.

(** * Further properties of the masternode client *)

(** ** Epoch rewards *)

Lemma getEpochInfo_current (rt : Runtime) (c : Chain) (h : Z) :
  provider_getBlockNumber c = ofZ h ->
  0 <= h -> h / 900 * 900 + 900 < 2 ^ 53 ->
  allAccepted (contract_getCandidates c) = true ->
  getEpochInfo rt c None
  = Ok {| ei_number := ofZ (h / 900);
          ei_startBlock := ofZ (h / 900 * 900);
          ei_endBlock := ofZ (h / 900 * 900 + 899);
          ei_validatorSet :=
            firstn 108 (map (fun s => ("xdc" ++ payloadOf s)%string)
                          (contract_getCandidates c));
          ei_rewards := (h mod 900 + 1) * rewardPerBlock;
          ei_rewardsXdc := formatEther rt ((h mod 900 + 1) * rewardPerBlock) |}.
Proof.
  intros Hc Hh Hend Hacc.
  pose proof (Z.div_mod h 900 ltac:(lia)) as Hdm.
  pose proof (Z.mod_pos_bound h 900 ltac:(lia)) as Hmod.
  assert (Hq : 0 <= h / 900) by (apply Z.div_pos; lia).
  rewrite getEpochInfo_default, (getCurrentEpoch_safe c h Hc) by lia.
  rewrite (getEpochInfo_safe rt c (h / 900) h) by (try assumption; lia).
  replace (Z.min (h / 900 * 900 + 899) h - h / 900 * 900 + 1)
    with (h mod 900 + 1) by lia.
  reflexivity.
Qed.

(** X7: The rewards [getEpochInfo] reports for the current epoch count the
    blocks of the epoch up to the current one at 0.25 XDC each: between
    0.25 XDC (first block of the epoch) and 225 XDC (last block), and the
    rendered figure is that amount. *)
Theorem epoch_rewards_current (rt : Runtime) (c : Chain) (h : Z) :
  provider_getBlockNumber c = ofZ h ->
  0 <= h -> h / 900 * 900 + 900 < 2 ^ 53 ->
  allAccepted (contract_getCandidates c) = true ->
  exists info,
    getEpochInfo rt c None = Ok info
    /\ ei_rewards info = (h mod 900 + 1) * rewardPerBlock
    /\ ei_rewardsXdc info = weiToXdc rt (ei_rewards info)
    /\ 250000000000000000 <= ei_rewards info <= 225000000000000000000
    /\ (ei_rewards info = 225000000000000000000 <-> h mod 900 = 899).
Proof.
  intros Hc Hh Hend Hacc.
  pose proof (Z.mod_pos_bound h 900 ltac:(lia)) as Hmod.
  eexists. split; [apply (getEpochInfo_current rt c h); assumption|].
  cbn [ei_rewards ei_rewardsXdc]. unfold rewardPerBlock, weiToXdc.
  repeat split; lia.
Qed.

Lemma epoch_rewards_current_witness :
  exists info,
    getEpochInfo modelRuntime (snapshot (sampleCandidates 3) (ofZ 1850)) None
    = Ok info
    /\ ei_rewards info = (1850 mod 900 + 1) * rewardPerBlock
    /\ ei_rewardsXdc info = weiToXdc modelRuntime (ei_rewards info)
    /\ 250000000000000000 <= ei_rewards info <= 225000000000000000000
    /\ (ei_rewards info = 225000000000000000000 <-> 1850 mod 900 = 899).
Proof.
  apply (epoch_rewards_current modelRuntime
           (snapshot (sampleCandidates 3) (ofZ 1850)) 1850
           eq_refl ltac:(lia) ltac:(vm_compute; reflexivity) eq_refl).
Defined.

(** X8: For an epoch asked for by number: a completed epoch reports the full
    900 blocks, 225 XDC; an epoch that has not started reports
    [(h - e * 900 + 1)] blocks, which is not positive, so its rewards are
    zero or negative. *)
Theorem epoch_rewards_explicit (rt : Runtime) (c : Chain) (e h : Z) :
  provider_getBlockNumber c = ofZ h ->
  0 <= h < 2 ^ 53 - 1 -> 0 <= e -> e * 900 + 900 < 2 ^ 53 ->
  allAccepted (contract_getCandidates c) = true ->
  exists info,
    getEpochInfo rt c (Some (ofZ e)) = Ok info
    /\ ei_rewardsXdc info = weiToXdc rt (ei_rewards info)
    /\ (e * 900 + 899 <= h -> ei_rewards info = 225000000000000000000)
    /\ (h < e * 900 ->
        ei_rewards info = (h - e * 900 + 1) * rewardPerBlock
        /\ ei_rewards info <= 0)
    /\ (h + 1 < e * 900 -> ei_rewards info < 0).
Proof.
  intros Hc Hh He Hend Hacc.
  eexists. split; [apply (getEpochInfo_safe rt c e h); try assumption; lia|].
  cbn [ei_rewards ei_rewardsXdc]. unfold rewardPerBlock, weiToXdc.
  split; [reflexivity|]. repeat split; lia.
Qed.

Lemma epoch_rewards_explicit_witness :
  exists info,
    getEpochInfo modelRuntime (snapshot (sampleCandidates 3) (ofZ 1850))
      (Some (ofZ 5)) = Ok info
    /\ ei_rewards info = (1850 - 5 * 900 + 1) * rewardPerBlock
    /\ ei_rewards info <= 0.
Proof.
  destruct (epoch_rewards_explicit modelRuntime
              (snapshot (sampleCandidates 3) (ofZ 1850)) 5 1850
              eq_refl ltac:(lia) ltac:(lia) ltac:(lia) eq_refl)
    as (info & H & _ & _ & Hfuture & _).
  exists info. split; [exact H|]. apply Hfuture. lia.
Defined.

(** X9: The getEpochInfo operation of the node reads the height twice.  With
    [h1] the height read by [getEpochInfo] and [h2] the height read after
    it, the epoch reported is that of [h1], the current block is [h2] and
    the blocks remaining are the end of the epoch of [h1] minus [h2].  When
    [h2] is still in that epoch (in particular when the two reads agree)
    this is [899 - h2 mod 900], between 0 and 899; when the chain has
    passed the end of the epoch between the two reads it is negative.  The
    validator count is the candidate count capped at 108, and the rewards
    are those of the [h1 mod 900 + 1] blocks of the epoch up to [h1]. *)
Theorem getEpochInfoOperation_remaining
    (rt : Runtime) (c : Chain) (h1 h2 : Z) :
  provider_getBlockNumber c = ofZ h1 ->
  0 <= h1 -> h1 / 900 * 900 + 900 < 2 ^ 53 ->
  0 <= h2 < 2 ^ 53 ->
  allAccepted (contract_getCandidates c) = true ->
  exists j,
    getEpochInfoOperation rt c (ofZ h2) = Ok j
    /\ toBigInt (json_blocksRemaining j) = Ok (h1 / 900 * 900 + 899 - h2)
    /\ (h2 / 900 = h1 / 900 ->
        h1 / 900 * 900 + 899 - h2 = 899 - h2 mod 900
        /\ 0 <= h1 / 900 * 900 + 899 - h2 <= 899)
    /\ (h1 / 900 < h2 / 900 -> h1 / 900 * 900 + 899 - h2 < 0)
    /\ toBigInt (json_currentEpoch j) = Ok (h1 / 900)
    /\ toBigInt (json_currentBlock j) = Ok h2
    /\ json_validatorCount j
       = Nat.min (List.length (contract_getCandidates c)) 108
    /\ json_rewards j = weiToXdc rt ((h1 mod 900 + 1) * rewardPerBlock).
Proof.
  intros Hc Hh Hend Hh2 Hacc.
  pose proof (Z.div_mod h1 900 ltac:(lia)) as Hdm.
  pose proof (Z.mod_pos_bound h1 900 ltac:(lia)) as Hmod.
  pose proof (Z.div_mod h2 900 ltac:(lia)) as Hdm2.
  pose proof (Z.mod_pos_bound h2 900 ltac:(lia)) as Hmod2.
  assert (Hq : 0 <= h1 / 900) by (apply Z.div_pos; lia).
  unfold getEpochInfoOperation.
  rewrite (getEpochInfo_current rt c h1) by assumption.
  cbn [bind]. eexists. split; [reflexivity|].
  cbn [json_blocksRemaining json_currentEpoch json_currentBlock
       json_validatorCount json_rewards
       ei_endBlock ei_number ei_validatorSet ei_rewardsXdc].
  rewrite (ofZ_sub (h1 / 900 * 900 + 899) h2) by lia.
  rewrite !toBigInt_ofZ by lia.
  split; [reflexivity|]. split; [intros E; rewrite <- E; lia|].
  split; [lia|]. split; [reflexivity|]. split; [reflexivity|].
  split.
  - rewrite length_firstn, length_map. apply Nat.min_comm.
  - reflexivity.
Qed.

Lemma getEpochInfoOperation_remaining_witness :
  exists j,
    getEpochInfoOperation modelRuntime
      (snapshot (sampleCandidates 110) (ofZ 1850)) (ofZ 1852) = Ok j
    /\ toBigInt (json_blocksRemaining j) = Ok 847
    /\ toBigInt (json_currentEpoch j) = Ok 2
    /\ toBigInt (json_currentBlock j) = Ok 1852
    /\ json_validatorCount j = 108%nat.
Proof.
  destruct (getEpochInfoOperation_remaining modelRuntime
              (snapshot (sampleCandidates 110) (ofZ 1850)) 1850 1852
              eq_refl ltac:(lia) ltac:(vm_compute; reflexivity) ltac:(lia)
              eq_refl)
    as (j & H1 & H2 & _ & _ & H3 & H4 & H5 & _).
  exists j. repeat split; assumption.
Defined.

(** The second read can fall in the next epoch: the remaining blocks are
    then negative. *)
Example blocksRemaining_across_epochs :
  (j <- getEpochInfoOperation modelRuntime
          (snapshot (sampleCandidates 3) (ofZ 899)) (ofZ 900) ;;
   toBigInt (json_blocksRemaining j)) = Ok (-1).
Proof. vm_compute. reflexivity. Qed.

(** ** Voter information *)

Lemma countedStake_nonneg (v : ValidatorReads) (eth cand : string) :
  0 <= countedStake v eth cand.
Proof.
  unfold countedStake.
  destruct (ce <- toEthAddress cand ;; contract_getVoterCap v ce eth) as [s|];
    [|lia].
  destruct (Z.ltb_spec 0 s); lia.
Qed.

Lemma voteStep_counted (v : ValidatorReads) (eth cand : string)
    (l : list string) (t : Z) :
  voteStep v eth (l, t) cand
  = (if 0 <? countedStake v eth cand then (l ++ [cand])%list else l,
     t + countedStake v eth cand).
Proof.
  unfold voteStep, countedStake. cbn [fst snd].
  destruct (ce <- toEthAddress cand ;; contract_getVoterCap v ce eth) as [s|].
  - destruct (Z.ltb_spec 0 s) as [H|H].
    + destruct (Z.ltb_spec 0 s); [reflexivity|lia].
    + cbn. now rewrite Z.add_0_r.
  - cbn. now rewrite Z.add_0_r.
Qed.

Lemma voteLoop_counted (v : ValidatorReads) (eth : string)
    (cs l : list string) (t : Z) :
  fold_left (voteStep v eth) cs (l, t)
  = ((l ++ filter (fun cand => 0 <? countedStake v eth cand) cs)%list,
     t + fold_right Z.add 0 (map (countedStake v eth) cs)).
Proof.
  revert l t. induction cs as [|cand cs IH]; intros l t; cbn [fold_left].
  - cbn. now rewrite app_nil_r, Z.add_0_r.
  - rewrite voteStep_counted, IH. cbn [filter map fold_right].
    destruct (0 <? countedStake v eth cand).
    + rewrite <- app_assoc. cbn [app]. f_equal. lia.
    + f_equal. lia.
Qed.

Lemma sum_filter_positive (f : string -> Z) (l : list string) :
  (forall x, 0 <= f x) ->
  fold_right Z.add 0 (map f (filter (fun x => 0 <? f x) l))
  = fold_right Z.add 0 (map f l)
  /\ 0 <= fold_right Z.add 0 (map f l)
  /\ (fold_right Z.add 0 (map f l) = 0 <-> filter (fun x => 0 <? f x) l = []).
Proof.
  intros Hf. induction l as [|x l (IH1 & IH2 & IH3)]; cbn [filter map fold_right].
  - repeat split; auto; lia.
  - pose proof (Hf x) as Hx. destruct (Z.ltb_spec 0 (f x)) as [H|H].
    + cbn [map fold_right]. rewrite IH1.
      repeat split; try lia; discriminate.
    + assert (E : f x = 0) by lia. rewrite E, IH1, !Z.add_0_l.
      repeat split; tauto.
Qed.

(** X10: [getVoterInfo] returns whenever the voter address and the candidate
    list are accepted by the translations, even when the stake query fails
    for some or all candidates: such candidates are skipped.  The
    candidates voted for are those with a positive stake, in the order of
    the candidate list; the total is the sum of their stakes, it is never
    negative, and it is zero exactly when the list is empty. *)
Theorem getVoterInfo_totals
    (rt : Runtime) (c : Chain) (v : ValidatorReads) (voterAddress : string) :
  accepted voterAddress = true ->
  allAccepted (contract_getCandidates c) = true ->
  let eth := ("0x" ++ payloadOf voterAddress)%string in
  let cs := map (fun s => ("xdc" ++ payloadOf s)%string)
              (contract_getCandidates c) in
  exists info,
    getVoterInfo rt c v voterAddress = Ok info
    /\ vi_address info = ("xdc" ++ payloadOf voterAddress)%string
    /\ vi_votedFor info = filter (fun cand => 0 <? countedStake v eth cand) cs
    /\ vi_totalVoted info
       = fold_right Z.add 0 (map (countedStake v eth) (vi_votedFor info))
    /\ vi_totalVoted info = fold_right Z.add 0 (map (countedStake v eth) cs)
    /\ 0 <= vi_totalVoted info
    /\ (vi_totalVoted info = 0 <-> vi_votedFor info = [])
    /\ vi_totalVotedXdc info = weiToXdc rt (vi_totalVoted info).
Proof.
  intros Ha Hacc eth cs. unfold getVoterInfo.
  rewrite (toEthAddress_accepted _ Ha), (getCandidates_accepted c Hacc).
  cbn [bind]. fold eth. fold cs.
  rewrite voteLoop_counted, (toXdcAddress_accepted _ Ha). cbn [bind app].
  eexists. split; [reflexivity|].
  cbn [vi_address vi_votedFor vi_totalVoted vi_totalVotedXdc].
  rewrite Z.add_0_l.
  destruct (sum_filter_positive (countedStake v eth) cs
              (countedStake_nonneg v eth)) as (H1 & H2 & H3).
  repeat split; auto; try apply H3.
Qed.

Lemma getVoterInfo_totals_witness :
  exists info,
    getVoterInfo modelRuntime (snapshot (sampleCandidates 3) (ofZ 1850))
      {| contract_getVoterCap :=
           fun cand _ =>
             if String.eqb cand (sampleAddress 1)
             then Throw (Error "call revert exception")
             else Ok 5;
         contract_getWithdrawBlockNumbers := [];
         contract_getWithdrawCap := fun _ => 0;
         contract_candidateWithdrawDelay := 0 |}
      (sampleAddress 7) = Ok info
    /\ vi_votedFor info
       = ["xdc0000000000000000000000000000000000000000";
          "xdc0000000000000000000000000000000000000002"]
    /\ vi_totalVoted info = 10.
Proof.
  destruct (getVoterInfo_totals modelRuntime
              (snapshot (sampleCandidates 3) (ofZ 1850))
              {| contract_getVoterCap :=
                   fun cand _ =>
                     if String.eqb cand (sampleAddress 1)
                     then Throw (Error "call revert exception")
                     else Ok 5;
                 contract_getWithdrawBlockNumbers := [];
                 contract_getWithdrawCap := fun _ => 0;
                 contract_candidateWithdrawDelay := 0 |}
              (sampleAddress 7) eq_refl eq_refl)
    as (info & H & _ & Hv & _ & Ht & _).
  exists info. split; [exact H|]. split.
  - rewrite Hv. vm_compute. reflexivity.
  - rewrite Ht. vm_compute. reflexivity.
Defined.

(** ** The masternode list *)

Section Sorting.

Context {A : Type}.
Variable compareFn : A -> A -> Z.

Lemma insertBy_Permutation (x : A) (l : list A) :
  Permutation (x :: l) (insertBy compareFn x l).
Proof.
  induction l as [|y l IH]; cbn [insertBy]; [reflexivity|].
  destruct (compareFn x y <=? 0); [reflexivity|].
  rewrite perm_swap. now apply perm_skip.
Qed.

Lemma Array_sort_Permutation (l : list A) :
  Permutation l (Array_sort compareFn l).
Proof.
  induction l as [|x l IH]; cbn [Array_sort fold_right]; [reflexivity|].
  rewrite <- insertBy_Permutation. now apply perm_skip.
Qed.

Lemma Array_sort_length (l : list A) :
  List.length (Array_sort compareFn l) = List.length l.
Proof. symmetry. apply Permutation_length, Array_sort_Permutation. Qed.

End Sorting.

Lemma byStakeDescending_le (a b : MasternodeInfo) :
  byStakeDescending a b <= 0 <-> mi_stake b <= mi_stake a.
Proof.
  unfold byStakeDescending.
  destruct (Z.ltb_spec (mi_stake b) (mi_stake a));
    [|destruct (Z.ltb_spec (mi_stake a) (mi_stake b))]; lia.
Qed.

Lemma insertBy_stake_sorted (x : MasternodeInfo) (l : list MasternodeInfo) :
  Sorted (fun a b => mi_stake b <= mi_stake a) l ->
  Sorted (fun a b => mi_stake b <= mi_stake a) (insertBy byStakeDescending x l).
Proof.
  induction l as [|y l IH]; cbn [insertBy]; intros Hs.
  - repeat constructor.
  - destruct (Z.leb_spec (byStakeDescending x y) 0) as [H|H].
    + constructor; [exact Hs|]. constructor. now apply byStakeDescending_le.
    + inversion Hs as [|? ? Hl Hhd]; subst.
      constructor; [now apply IH|].
      assert (Hyx : mi_stake x <= mi_stake y).
      { destruct (Z.le_gt_cases (mi_stake y) (mi_stake x)) as [G|G]; [|lia].
        apply byStakeDescending_le in G. lia. }
      destruct l as [|z l]; cbn [insertBy].
      * now constructor.
      * destruct (byStakeDescending x z <=? 0); constructor; [exact Hyx|].
        now inversion Hhd.
Qed.

Lemma Array_sort_stake_sorted (l : list MasternodeInfo) :
  StronglySorted (fun a b => mi_stake b <= mi_stake a)
    (Array_sort byStakeDescending l).
Proof.
  apply Sorted_StronglySorted.
  - intros a b d Hab Hbd. lia.
  - induction l as [|x l IH]; cbn [Array_sort fold_right]; [constructor|].
    now apply insertBy_stake_sorted.
Qed.

(** A list that is already in order is left as it is: entries of equal
    stake are not swapped. *)
Lemma Array_sort_stake_fixed (l : list MasternodeInfo) :
  StronglySorted (fun a b => mi_stake b <= mi_stake a) l ->
  Array_sort byStakeDescending l = l.
Proof.
  induction 1 as [|x l Hs IH Hall]; [reflexivity|].
  cbn [Array_sort fold_right]. fold (Array_sort byStakeDescending l).
  rewrite IH. destruct l as [|y l]; [reflexivity|]. cbn [insertBy].
  inversion Hall as [|? ? Hxy _]; subst.
  apply byStakeDescending_le in Hxy.
  destruct (Z.leb_spec (byStakeDescending x y) 0); [reflexivity|lia].
Qed.

Lemma mapM_Forall2 {A B : Type} (f : A -> result B) (l : list A) (r : list B) :
  mapM f l = Ok r -> Forall2 (fun a b => f a = Ok b) l r.
Proof.
  revert r; induction l as [|a l IH]; intros r; cbn [mapM].
  - intros E. assert (r = []) by congruence. subst. constructor.
  - destruct (f a) as [b|] eqn:Ea; cbn [bind]; [|discriminate].
    destruct (mapM f l) as [bs|]; cbn [bind]; [|discriminate].
    intros E. assert (r = b :: bs) by congruence. subst.
    constructor; [exact Ea|now apply IH].
Qed.

Lemma mapM_returns {A B : Type} (f : A -> result B) (l : list A) :
  (forall a, In a l -> returns (f a) = true) -> exists r, mapM f l = Ok r.
Proof.
  induction l as [|a l IH]; intros H; cbn [mapM]; [now eexists|].
  pose proof (H a (or_introl eq_refl)) as Ha.
  destruct (f a) as [b|]; [|discriminate]. cbn [bind].
  destruct IH as [bs ->]; [intros x Hx; apply H; now right|].
  cbn [bind]. now eexists.
Qed.

Lemma Array_slice_to_length {A : Type} (k : Z) (l : list A) :
  0 <= k ->
  List.length (Array_slice_to k l) = Nat.min (Z.to_nat k) (List.length l).
Proof.
  intros Hk. unfold Array_slice_to, sliceIndex.
  destruct (Z.ltb_spec k 0); [lia|].
  rewrite length_firstn. lia.
Qed.

Lemma Array_slice_to_In {A : Type} (k : Z) (l : list A) (x : A) :
  In x (Array_slice_to k l) -> In x l.
Proof.
  unfold Array_slice_to. intros H.
  apply In_firstn_nth_error in H as (j & _ & Hj).
  now apply nth_error_In in Hj.
Qed.

(** X11: [getMasternodesList] returns the records of the first [limit]
    candidates ordered by stake, largest first: the result is a
    rearrangement of the records [getMasternodeInfo] gives for those
    candidates, no record is followed by one of larger stake, records that
    already come in that order are not moved, and for [limit >= 0] there
    are [min limit L] of them. *)
Theorem getMasternodesList_sorted (rt : Runtime) (c : Chain) (limit : Z) :
  allAccepted (contract_getCandidates c) = true ->
  (forall e, accepted (contract_getCandidateOwner c e) = true) ->
  (forall e, allAccepted (contract_getVoters c e) = true) ->
  let cs := map (fun s => ("xdc" ++ payloadOf s)%string)
              (contract_getCandidates c) in
  exists infos r,
    mapM (getMasternodeInfo rt c) (Array_slice_to limit cs) = Ok infos
    /\ getMasternodesList rt c limit = Ok r
    /\ Permutation infos r
    /\ StronglySorted (fun a b => mi_stake b <= mi_stake a) r
    /\ (StronglySorted (fun a b => mi_stake b <= mi_stake a) infos -> r = infos)
    /\ map mi_address infos = Array_slice_to limit cs
    /\ (0 <= limit ->
        List.length r
        = Nat.min (Z.to_nat limit) (List.length (contract_getCandidates c))).
Proof.
  intros Hacc Ho Hv cs.
  destruct (mapM_returns (getMasternodeInfo rt c) (Array_slice_to limit cs))
    as [infos Hinfos].
  { intros a Ha. apply Array_slice_to_In in Ha.
    apply in_map_iff in Ha as (s & <- & _).
    now rewrite getMasternodeInfo_accepted. }
  exists infos, (Array_sort byStakeDescending infos).
  split; [exact Hinfos|]. split.
  { unfold getMasternodesList. rewrite (getCandidates_accepted c Hacc).
    cbn [bind]. fold cs. now rewrite Hinfos. }
  split; [apply Array_sort_Permutation|].
  split; [apply Array_sort_stake_sorted|].
  split; [apply Array_sort_stake_fixed|].
  split.
  - apply mapM_Forall2 in Hinfos.
    assert (Hin : forall a, In a (Array_slice_to limit cs) -> In a cs)
      by (intros a; apply Array_slice_to_In).
    induction Hinfos as [|a info l r' Ha _ IH]; [reflexivity|].
    cbn [map]. f_equal; [|apply IH; intros x Hx; apply Hin; now right].
    destruct (proj1 (in_map_iff _ _ _) (Hin a (or_introl eq_refl)))
      as (s & Es & _).
    rewrite getMasternodeInfo_accepted in Ha
      by (rewrite <- ?Es; auto; reflexivity).
    assert (E : info = _) by (symmetry; injection Ha; intros E; exact E).
    rewrite E. cbn [mi_address]. rewrite <- Es.
    destruct (payloadOf_tagged (payloadOf s)) as [-> _].
    now rewrite toLowerCase_payloadOf.
  - intros Hl. rewrite Array_sort_length.
    apply mapM_length in Hinfos. rewrite Hinfos.
    rewrite Array_slice_to_length by exact Hl.
    unfold cs. now rewrite length_map.
Qed.

Lemma getMasternodesList_sorted_witness :
  exists r,
    getMasternodesList modelRuntime (snapshot (sampleCandidates 3) (ofZ 1850)) 2
    = Ok r
    /\ List.length r = 2%nat.
Proof.
  destruct (getMasternodesList_sorted modelRuntime
              (snapshot (sampleCandidates 3) (ofZ 1850)) 2
              eq_refl (fun _ => eq_refl) (fun _ => eq_refl))
    as (infos & r & _ & H & _ & _ & _ & _ & Hl).
  exists r. split; [exact H|]. rewrite Hl by lia. reflexivity.
Defined.

(** ** Reads are independent of the spelling of the address *)

(** X12: The reads of the client do not depend on how the address is spelled:
    for two spellings identified by [addressesEqual], [getMasternodeInfo],
    [getVotersForCandidate], [isCandidate] and [getVoterInfo] give the same
    result, errors included. *)
Theorem reads_ignore_spelling
    (rt : Runtime) (c : Chain) (v : ValidatorReads) (a a' : string) :
  addressesEqual a a' = true ->
  getMasternodeInfo rt c a = getMasternodeInfo rt c a'
  /\ getVotersForCandidate c a = getVotersForCandidate c a'
  /\ isCandidate c a = isCandidate c a'
  /\ getVoterInfo rt c v a = getVoterInfo rt c v a'.
Proof.
  intros H. destruct (addressesEqual_inv a a' H) as (Ha & Ha' & Hp).
  unfold getMasternodeInfo, getVotersForCandidate, isCandidate, getVoterInfo.
  rewrite (toEthAddress_accepted a Ha), (toEthAddress_accepted a' Ha').
  rewrite (toXdcAddress_accepted a Ha), (toXdcAddress_accepted a' Ha').
  rewrite Hp. repeat split; reflexivity.
Qed.

Lemma reads_ignore_spelling_witness :
  getMasternodeInfo modelRuntime (snapshot (sampleCandidates 3) (ofZ 1850))
    "XDC0000000000000000000000000000000000000001"
  = getMasternodeInfo modelRuntime (snapshot (sampleCandidates 3) (ofZ 1850))
      "0x0000000000000000000000000000000000000001".
Proof.
  exact (proj1 (reads_ignore_spelling modelRuntime
                  (snapshot (sampleCandidates 3) (ofZ 1850))
                  {| contract_getVoterCap := fun _ _ => Ok 0;
                     contract_getWithdrawBlockNumbers := [];
                     contract_getWithdrawCap := fun _ => 0;
                     contract_candidateWithdrawDelay := 0 |}
                  "XDC0000000000000000000000000000000000000001"
                  "0x0000000000000000000000000000000000000001" eq_refl)).
Defined.

(** ** Pending withdrawals *)

Lemma geq_ofZ (a b : Z) :
  Z.abs a < 2 ^ 53 -> Z.abs b < 2 ^ 53 ->
  geq (ofZ a) (ofZ b) = (b <=? a).
Proof.
  intros Ha Hb. unfold geq. rewrite SFcompare_ofZ by assumption.
  destruct (Z.compare_spec a b); destruct (Z.leb_spec b a); auto; lia.
Qed.

(** X13: [getWithdrawals] lists the withdraw blocks whose amount is positive, in
    the order the contract gives them, each with its amount, and never
    more entries than block numbers.  For block numbers and a delay below
    [2 ^ 52], an entry is flagged available exactly when the current block
    has reached its block number plus the delay. *)
Theorem getWithdrawals_entries
    (rt : Runtime) (c : Chain) (v : ValidatorReads) (address : string) (h : Z) :
  provider_getBlockNumber c = ofZ h -> Z.abs h < 2 ^ 53 ->
  Z.abs (contract_candidateWithdrawDelay v) < 2 ^ 52 ->
  Forall (fun b => Z.abs b < 2 ^ 52) (contract_getWithdrawBlockNumbers v) ->
  let ws := getWithdrawals rt c v address in
  let kept := filter (fun b => 0 <? contract_getWithdrawCap v (ofZ b))
                (contract_getWithdrawBlockNumbers v) in
  map wi_blockNumber ws = map ofZ kept
  /\ map wi_amount ws = map (fun b => contract_getWithdrawCap v (ofZ b)) kept
  /\ map wi_available ws
     = map (fun b => b + contract_candidateWithdrawDelay v <=? h) kept
  /\ Forall (fun w => 0 < wi_amount w
                      /\ wi_amountXdc w = weiToXdc rt (wi_amount w)) ws
  /\ (List.length ws <= List.length (contract_getWithdrawBlockNumbers v))%nat.
Proof.
  intros Hc Hh Hd Hall ws kept. unfold ws, kept, getWithdrawals.
  rewrite Hc. set (d := contract_candidateWithdrawDelay v) in *.
  induction Hall as [|b bs Hb _ IH]; cbn [withdrawalsFrom filter map].
  - repeat split; auto.
  - destruct IH as (I1 & I2 & I3 & I4 & I5).
    destruct (Z.ltb_spec 0 (contract_getWithdrawCap v (ofZ b))) as [Hpos|Hnp].
    + cbn [map List.length]. rewrite I1, I2, I3.
      rewrite (ofZ_add b d), geq_ofZ by lia.
      repeat split; auto; lia.
    + repeat split; auto. cbn [List.length]. lia.
Qed.

Lemma getWithdrawals_entries_witness :
  map wi_available
    (getWithdrawals modelRuntime (snapshot [] (ofZ 1850))
       {| contract_getVoterCap := fun _ _ => Ok 0;
          contract_getWithdrawBlockNumbers := [100; 200; 1900];
          contract_getWithdrawCap :=
            fun b => if geq b (ofZ 150) then 7 else 0;
          contract_candidateWithdrawDelay := 10 |}
       "xdc0000000000000000000000000000000000000001")
  = [true; false].
Proof.
  rewrite (proj1 (proj2 (proj2
    (getWithdrawals_entries modelRuntime (snapshot [] (ofZ 1850))
       {| contract_getVoterCap := fun _ _ => Ok 0;
          contract_getWithdrawBlockNumbers := [100; 200; 1900];
          contract_getWithdrawCap :=
            fun b => if geq b (ofZ 150) then 7 else 0;
          contract_candidateWithdrawDelay := 10 |}
       "xdc0000000000000000000000000000000000000001" 1850
       eq_refl ltac:(vm_compute; reflexivity) ltac:(vm_compute; reflexivity)
       ltac:(repeat constructor))))).
  vm_compute. reflexivity.
Defined.

(** * Further properties of the explorer client *)

Lemma toXdcAddress_fixed (s : string) :
  accepted s = true ->
  toXdcAddress ("xdc" ++ payloadOf s) = Ok ("xdc" ++ payloadOf s)%string.
Proof.
  intros _. rewrite toXdcAddress_accepted by reflexivity.
  destruct (payloadOf_tagged (payloadOf s)) as [-> _].
  now rewrite toLowerCase_payloadOf.
Qed.

Lemma toXdcIfTruthy_closed (x : string) :
  isFalsy x || accepted x = true -> toXdcIfTruthy x = Ok (xdcOrEmpty x).
Proof.
  unfold toXdcIfTruthy, xdcOrEmpty. destruct (isFalsy x); [reflexivity|].
  cbn [orb]. apply toXdcAddress_accepted.
Qed.

Lemma toXdcIfTruthy_fixed (x : string) :
  isFalsy x || accepted x = true ->
  toXdcIfTruthy (xdcOrEmpty x) = Ok (xdcOrEmpty x).
Proof.
  unfold toXdcIfTruthy, xdcOrEmpty. destruct (isFalsy x) eqn:F.
  - now rewrite F.
  - cbn [orb]. intros Ha. cbn [isFalsy String.append].
    now apply toXdcAddress_fixed.
Qed.

Lemma formatTransaction_closed (tx : ExplorerTransaction) :
  formattable tx = true ->
  formatTransaction tx
  = Ok (withAddresses tx ("xdc" ++ payloadOf (tx_from tx))
          (xdcOrEmpty (tx_to tx))
          (option_map xdcOrEmpty (tx_contractAddress tx))).
Proof.
  unfold formattable, formatTransaction. intros H.
  apply andb_true_iff in H as [H Hc]. apply andb_true_iff in H as [Hf Ht].
  rewrite (toXdcAddress_accepted _ Hf), (toXdcIfTruthy_closed _ Ht).
  cbn [bind].
  destruct (tx_contractAddress tx) as [a|]; [|reflexivity].
  now rewrite (toXdcIfTruthy_closed _ Hc).
Qed.

Lemma formatTransaction_fixed (tx : ExplorerTransaction) :
  formattable tx = true ->
  formatTransaction
    (withAddresses tx ("xdc" ++ payloadOf (tx_from tx))
       (xdcOrEmpty (tx_to tx))
       (option_map xdcOrEmpty (tx_contractAddress tx)))
  = Ok (withAddresses tx ("xdc" ++ payloadOf (tx_from tx))
          (xdcOrEmpty (tx_to tx))
          (option_map xdcOrEmpty (tx_contractAddress tx))).
Proof.
  unfold formattable. intros H.
  apply andb_true_iff in H as [H Hc]. apply andb_true_iff in H as [Hf Ht].
  unfold formatTransaction, withAddresses.
  cbn [tx_hash tx_blockNumber tx_timeStamp tx_from tx_to tx_value tx_gas
       tx_gasPrice tx_gasUsed tx_input tx_isError tx_txreceipt_status
       tx_contractAddress tx_confirmations tx_nonce].
  rewrite (toXdcAddress_fixed _ Hf), (toXdcIfTruthy_fixed _ Ht). cbn [bind].
  destruct (tx_contractAddress tx) as [a|]; cbn [option_map]; [|reflexivity].
  now rewrite (toXdcIfTruthy_fixed _ Hc).
Qed.

(** X14: [formatTransactions] returns when every sender is accepted by the
    translation and every recipient and contract address is empty, absent
    or accepted.  It then rewrites exactly the three address fields of each
    transaction, to the lowercase [xdc] spelling, leaves an empty recipient
    or contract address empty, keeps the order and the other fields, and
    formatting its result again changes nothing. *)
Theorem formatTransactions_idempotent (txs : list ExplorerTransaction) :
  forallb formattable txs = true ->
  exists out,
    formatTransactions txs = Ok out
    /\ out = map (fun tx =>
                    withAddresses tx ("xdc" ++ payloadOf (tx_from tx))
                      (xdcOrEmpty (tx_to tx))
                      (option_map xdcOrEmpty (tx_contractAddress tx))) txs
    /\ formatTransactions out = Ok out
    /\ List.length out = List.length txs
    /\ Forall (fun o => startsWith "xdc" (tx_from o) = true
                        /\ toLowerCase (tx_from o) = tx_from o) out.
Proof.
  intros H. eexists. split; [|split; [reflexivity|]].
  - unfold formatTransactions. induction txs as [|tx txs IH]; [reflexivity|].
    cbn [forallb] in H. apply andb_true_iff in H as [Htx H].
    cbn [mapM map]. rewrite (formatTransaction_closed tx Htx). cbn [bind].
    now rewrite (IH H).
  - split; [|split].
    + unfold formatTransactions. induction txs as [|tx txs IH]; [reflexivity|].
      cbn [forallb] in H. apply andb_true_iff in H as [Htx H].
      cbn [mapM map]. rewrite (formatTransaction_fixed tx Htx). cbn [bind].
      now rewrite (IH H).
    + apply length_map.
    + apply Forall_forall. intros o Ho.
      apply in_map_iff in Ho as (tx & <- & _). cbn [withAddresses tx_from].
      split; [reflexivity|].
      now rewrite toLowerCase_app, toLowerCase_payloadOf.
Qed.

Lemma formatTransactions_idempotent_witness :
  exists out,
    formatTransactions
      [ {| tx_hash := "0xaa"; tx_blockNumber := "1"; tx_timeStamp := "2";
           tx_from := "0xABCDEF0123456789abcdef0123456789ABCDEF01";
           tx_to := ""; tx_value := "0"; tx_gas := "3"; tx_gasPrice := "4";
           tx_gasUsed := "5"; tx_input := "0x"; tx_isError := "0";
           tx_txreceipt_status := "1";
           tx_contractAddress :=
             Some "0x0000000000000000000000000000000000000002";
           tx_confirmations := "6"; tx_nonce := "7" |} ] = Ok out
    /\ map tx_from out = ["xdcabcdef0123456789abcdef0123456789abcdef01"]
    /\ map tx_to out = [""]
    /\ formatTransactions out = Ok out.
Proof.
  destruct (formatTransactions_idempotent
      [ {| tx_hash := "0xaa"; tx_blockNumber := "1"; tx_timeStamp := "2";
           tx_from := "0xABCDEF0123456789abcdef0123456789ABCDEF01";
           tx_to := ""; tx_value := "0"; tx_gas := "3"; tx_gasPrice := "4";
           tx_gasUsed := "5"; tx_input := "0x"; tx_isError := "0";
           tx_txreceipt_status := "1";
           tx_contractAddress :=
             Some "0x0000000000000000000000000000000000000002";
           tx_confirmations := "6"; tx_nonce := "7" |} ] eq_refl)
    as (out & H & E & Hi & _).
  exists out. split; [exact H|]. split; [|split; [|exact Hi]].
  - rewrite E. reflexivity.
  - rewrite E. reflexivity.
Defined.

Lemma formatTokenTransfer_inv (t o : ExplorerTokenTransfer) :
  formatTokenTransfer t = Ok o ->
  accepted (tt_from t) = true /\ accepted (tt_to t) = true
  /\ accepted (tt_contractAddress t) = true
  /\ o = {| tt_hash := tt_hash t;
            tt_blockNumber := tt_blockNumber t;
            tt_timeStamp := tt_timeStamp t;
            tt_from := "xdc" ++ payloadOf (tt_from t);
            tt_to := "xdc" ++ payloadOf (tt_to t);
            tt_value := tt_value t;
            tt_tokenName := tt_tokenName t;
            tt_tokenSymbol := tt_tokenSymbol t;
            tt_tokenDecimal := tt_tokenDecimal t;
            tt_contractAddress := "xdc" ++ payloadOf (tt_contractAddress t);
            tt_gas := tt_gas t;
            tt_gasPrice := tt_gasPrice t;
            tt_gasUsed := tt_gasUsed t |}.
Proof.
  unfold formatTokenTransfer. intros H.
  destruct (accepted (tt_from t)) eqn:Hf;
    [rewrite (toXdcAddress_accepted _ Hf) in H
    |rewrite (toXdcAddress_rejected _ Hf) in H; discriminate].
  destruct (accepted (tt_to t)) eqn:Ht;
    [rewrite (toXdcAddress_accepted _ Ht) in H
    |rewrite (toXdcAddress_rejected _ Ht) in H; discriminate].
  destruct (accepted (tt_contractAddress t)) eqn:Hc;
    [rewrite (toXdcAddress_accepted _ Hc) in H
    |rewrite (toXdcAddress_rejected _ Hc) in H; discriminate].
  cbn [bind] in H. repeat split. congruence.
Qed.

(** X15: [formatTokenTransfers], unlike [formatTransactions], has no allowance
    for an empty address: when it returns, the sender, the recipient and
    the contract address of every transfer were accepted by the translation
    (so none was empty), each is rewritten to its lowercase [xdc] spelling,
    the other fields and the order are kept, and formatting the result
    again changes nothing. *)
Theorem formatTokenTransfers_strict (ts out : list ExplorerTokenTransfer) :
  formatTokenTransfers ts = Ok out ->
  Forall (fun t => accepted (tt_from t) = true /\ isFalsy (tt_from t) = false
                   /\ accepted (tt_to t) = true /\ isFalsy (tt_to t) = false
                   /\ accepted (tt_contractAddress t) = true
                   /\ isFalsy (tt_contractAddress t) = false) ts
  /\ Forall2 (fun t o =>
                tt_from o = ("xdc" ++ payloadOf (tt_from t))%string
                /\ tt_to o = ("xdc" ++ payloadOf (tt_to t))%string
                /\ tt_contractAddress o
                   = ("xdc" ++ payloadOf (tt_contractAddress t))%string
                /\ tt_hash o = tt_hash t /\ tt_value o = tt_value t
                /\ tt_blockNumber o = tt_blockNumber t
                /\ tt_timeStamp o = tt_timeStamp t
                /\ tt_tokenName o = tt_tokenName t
                /\ tt_tokenSymbol o = tt_tokenSymbol t
                /\ tt_tokenDecimal o = tt_tokenDecimal t
                /\ tt_gas o = tt_gas t /\ tt_gasPrice o = tt_gasPrice t
                /\ tt_gasUsed o = tt_gasUsed t) ts out
  /\ formatTokenTransfers out = Ok out.
Proof.
  intros H. unfold formatTokenTransfers in *.
  pose proof (mapM_Forall2 _ _ _ H) as HF. clear H.
  assert (Hnf : forall s, accepted s = true -> isFalsy s = false).
  { intros s. unfold accepted. now destruct (isFalsy s). }
  induction HF as [|t o ts out Hto _ (IH1 & IH2 & IH3)].
  - repeat split; constructor.
  - destruct (formatTokenTransfer_inv t o Hto) as (Hf & Ht & Hc & E).
    split; [constructor; [|exact IH1]; repeat split; auto|].
    split; [constructor; [|exact IH2]; rewrite E; repeat split|].
    cbn [mapM]. rewrite IH3.
    assert (Ho : formatTokenTransfer o = Ok o).
    { rewrite E at 1. unfold formatTokenTransfer.
      cbn [tt_hash tt_blockNumber tt_timeStamp tt_from tt_to tt_value
           tt_tokenName tt_tokenSymbol tt_tokenDecimal tt_contractAddress
           tt_gas tt_gasPrice tt_gasUsed].
      rewrite (toXdcAddress_fixed _ Hf), (toXdcAddress_fixed _ Ht),
        (toXdcAddress_fixed _ Hc).
      cbn [bind]. now rewrite E. }
    now rewrite Ho.
Qed.

Lemma formatTokenTransfers_strict_witness :
  formatTokenTransfers
    [ {| tt_hash := "0xaa"; tt_blockNumber := "1"; tt_timeStamp := "2";
         tt_from := "xdcabcdef0123456789abcdef0123456789abcdef01";
         tt_to := "xdc0000000000000000000000000000000000000003";
         tt_value := "9"; tt_tokenName := "Token"; tt_tokenSymbol := "TKN";
         tt_tokenDecimal := "18";
         tt_contractAddress := "xdc0000000000000000000000000000000000000002";
         tt_gas := "3"; tt_gasPrice := "4"; tt_gasUsed := "5" |} ]
  = Ok
    [ {| tt_hash := "0xaa"; tt_blockNumber := "1"; tt_timeStamp := "2";
         tt_from := "xdcabcdef0123456789abcdef0123456789abcdef01";
         tt_to := "xdc0000000000000000000000000000000000000003";
         tt_value := "9"; tt_tokenName := "Token"; tt_tokenSymbol := "TKN";
         tt_tokenDecimal := "18";
         tt_contractAddress := "xdc0000000000000000000000000000000000000002";
         tt_gas := "3"; tt_gasPrice := "4"; tt_gasUsed := "5" |} ].
Proof.
  exact (proj2 (proj2 (formatTokenTransfers_strict
    [ {| tt_hash := "0xaa"; tt_blockNumber := "1"; tt_timeStamp := "2";
         tt_from := "0xABCDEF0123456789abcdef0123456789ABCDEF01";
         tt_to := "0x0000000000000000000000000000000000000003";
         tt_value := "9"; tt_tokenName := "Token"; tt_tokenSymbol := "TKN";
         tt_tokenDecimal := "18";
         tt_contractAddress := "0x0000000000000000000000000000000000000002";
         tt_gas := "3"; tt_gasPrice := "4"; tt_gasUsed := "5" |} ]
    _ eq_refl))).
Defined.

(** * Further properties of the unit converter *)

(** X16: For each of the eight declared unit names, in any letter case, [toWei]
    and [fromWei] use the same number of decimals, one of 3, 6, 9, 12, 15
    and 18, never 0: the exponent 0 declared for [wei] is falsy, so [wei]
    is converted with 18 decimals, like [ether]. *)
Theorem declared_units_decimals
    (rt : Runtime) (formatUnits : Z -> Z -> string)
    (value unit : string) (weiValue k : Z) :
  lookup (toLowerCase unit) UNIT_DECIMALS = Some k ->
  let d := if k =? 0 then 18 else k in
  toWei rt value unit = parseUnits rt value d
  /\ (toLowerCase unit <> "xdc"%string ->
      fromWei rt formatUnits weiValue unit = Ok (formatUnits weiValue d))
  /\ In d [3; 6; 9; 12; 15; 18]
  /\ (toLowerCase unit = "wei"%string ->
      d = 18
      /\ toWei rt value unit = toWei rt value "ether"
      /\ fromWei rt formatUnits weiValue unit
         = fromWei rt formatUnits weiValue "ether").
Proof.
  intros Hk d.
  unfold toWei, fromWei, parseEther, decimalsOrDefault, unitEntry.
  rewrite Hk. fold d.
  assert (Hx : String.eqb (toLowerCase unit) "xdc" = true -> d = 18).
  { intros E. apply String.eqb_eq in E. rewrite E in Hk.
    vm_compute in Hk. unfold d. now injection Hk as <-. }
  split; [|split; [|split]].
  - destruct (String.eqb (toLowerCase unit) "xdc") eqn:E; [|reflexivity].
    now rewrite (Hx eq_refl).
  - intros Hne. apply String.eqb_neq in Hne. now rewrite Hne.
  - clear Hx. unfold d. revert Hk. unfold UNIT_DECIMALS. cbn [lookup].
    repeat (destruct (String.eqb (toLowerCase unit) _);
            [intros [= <-]; cbn; tauto|]).
    discriminate.
  - intros Hw. rewrite Hw in *. vm_compute in Hk.
    assert (k = 0) by congruence. subst k. repeat split.
Qed.

Lemma declared_units_decimals_witness :
  toWei modelRuntime "1" "WEI" = parseUnits modelRuntime "1" 18
  /\ toWei modelRuntime "1" "WEI" = Ok 1000000000000000000.
Proof.
  split.
  - exact (proj1 (declared_units_decimals modelRuntime
                    (fun w d => EthersModel.formatUnits w (Z.to_nat d))
                    "1" "WEI" 0 0 eq_refl)).
  - rewrite (proj1 (declared_units_decimals modelRuntime
                      (fun w d => EthersModel.formatUnits w (Z.to_nat d))
                      "1" "WEI" 0 0 eq_refl)).
    reflexivity.
Defined.

(** X17: [compareBigInt] is a three-way comparison: its value is -1, 0 or 1
    according to whether the first argument is smaller than, equal to or
    larger than the second; swapping the arguments negates it; and it is
    transitive, as a sort comparator must be. *)
Theorem compareBigInt_order (a b d : Z) :
  (compareBigInt a b = -1 <-> a < b)
  /\ (compareBigInt a b = 0 <-> a = b)
  /\ (compareBigInt a b = 1 <-> b < a)
  /\ compareBigInt b a = - compareBigInt a b
  /\ (compareBigInt a b <= 0 -> compareBigInt b d <= 0 ->
      compareBigInt a d <= 0)
  /\ compareBigInt a b = Z.sgn (a - b).
Proof.
  unfold compareBigInt.
  destruct (Z.ltb_spec a b); destruct (Z.ltb_spec b a);
    destruct (Z.ltb_spec b d); destruct (Z.ltb_spec d b);
    destruct (Z.ltb_spec a d); destruct (Z.ltb_spec d a);
    repeat split; intros; try lia.
Qed.

(** ** Percentages *)

(** A positive integer below [2 ^ 53] is a binary64, exactly. *)
Lemma ofZ_exact (q : Z) :
  0 < q < 2 ^ 53 ->
  normalFinite (-52) 0 (ofZ q) /\ scaledValue (ofZ q) = q * 2 ^ 1100.
Proof.
  intros Hq.
  assert (Hz : q <> 0) by lia. assert (Hlt : Z.abs q < 2 ^ 53) by lia.
  rewrite (ofZ_safe q Hz Hlt).
  destruct (Z.ltb_spec q 0); [lia|].
  destruct (mantissa_spec q Hz Hlt) as [HM HL].
  pose proof (exponent_safe q Hz Hlt) as HE.
  pose proof (log2_safe q Hz Hlt) as Hl.
  pose proof (Z.log2_spec (Zpos (mantissa q)) ltac:(lia)) as Hspec.
  rewrite HL in Hspec. change (Z.succ 52) with 53 in Hspec.
  split.
  - exists (mantissa q), (exponent q). repeat split; lia.
  - cbn [scaledValue]. rewrite HM. unfold exponent.
    rewrite (Z.abs_eq q) in * by lia. rewrite <- Z.mul_assoc. f_equal.
    rewrite <- pow2_split by lia. f_equal. lia.
Qed.

(** Rounding the quotient of an integer by 100 to two decimals gives the
    integer back: the division is off by less than half a hundredth. *)
Lemma toFixed_hundredths (q : Z) :
  0 <= q < 2 ^ 51 ->
  toFixedModel (div (ofZ q) (ofZ 100)) 2 = fixedDigits q 2.
Proof.
  intros Hq. destruct (Z.eq_dec q 0) as [->|Hne]; [reflexivity|].
  destruct (ofZ_exact q ltac:(lia)) as [Nq Sq].
  destruct (ofZ_exact 100 ltac:(lia)) as [Nc Sc].
  destruct (div_value _ _ _ _ _ _ Nq Nc) as [Nr Ar]; try lia.
  rewrite Sq, Sc in Ar.
  destruct Nr as (m & e & Hr & Hm & He). rewrite Hr in *.
  cbn [scaledValue] in Ar. unfold toFixedModel.
  change (10 ^ Z.of_nat 2) with 100.
  set (A := Zpos m * 2 ^ Z.max e 0).
  set (den := 2 ^ Z.max (- e) 0).
  set (W := 2 ^ 1100) in *.
  assert (HW : 0 < W) by (apply Z.pow_pos_nonneg; lia).
  assert (Hden : 0 < den) by (apply Z.pow_pos_nonneg; lia).
  assert (HA : A * W = Zpos m * 2 ^ (e + 1100) * den).
  { unfold A, den, W. rewrite <- !Z.mul_assoc. f_equal.
    rewrite <- !Z.pow_add_r by lia. f_equal. lia. }
  destruct Ar as [H1 H2]. rewrite !Z.pow_1_r in H1, H2.
  set (D := 2 ^ 52) in *. assert (HD : D = 4503599627370496) by reflexivity.
  set (S := Zpos m * 2 ^ (e + 1100)) in *.
  assert (HS : 0 <= S).
  { unfold S. pose proof (Z.pow_nonneg 2 (e + 1100)). nia. }
  (* both bounds, freed of the scale *)
  assert (B1 : A * 100 * D <= q * (D + 1) * den).
  { apply (Z.mul_le_mono_pos_r _ _ (W * W)); [nia|].
    replace (A * 100 * D * (W * W)) with (A * W * (100 * W) * D) by ring.
    rewrite HA.
    replace (S * den * (100 * W) * D) with (S * (100 * W) * D * den) by ring.
    replace (q * (D + 1) * den * (W * W)) with (q * W * W * (D + 1) * den)
      by ring.
    apply Z.mul_le_mono_nonneg_r; [lia|exact H1]. }
  assert (B2 : q * D * den <= A * 100 * (D + 1)).
  { apply (Z.mul_le_mono_pos_r _ _ (W * W)); [nia|].
    replace (A * 100 * (D + 1) * (W * W)) with (A * W * (100 * W) * (D + 1))
      by ring.
    rewrite HA.
    replace (S * den * (100 * W) * (D + 1))
      with (S * (100 * W) * (D + 1) * den) by ring.
    replace (q * D * den * (W * W)) with (q * W * W * D * den) by ring.
    apply Z.mul_le_mono_nonneg_r; [lia|exact H2]. }
  assert (HA0 : 0 <= A).
  { unfold A. pose proof (Z.pow_nonneg 2 (Z.max e 0)). nia. }
  assert (U : 2 * (A * 100) < (2 * q + 1) * den).
  { apply (Z.mul_lt_mono_pos_r D); [lia|].
    apply Z.le_lt_trans with (2 * (q * (D + 1) * den)); [lia|].
    replace (2 * (q * (D + 1) * den)) with ((2 * q * D + 2 * q) * den) by ring.
    replace ((2 * q + 1) * den * D) with ((2 * q * D + D) * den) by ring.
    apply Z.mul_lt_mono_pos_r; [exact Hden|]. lia. }
  assert (L : (2 * q - 1) * den <= 2 * (A * 100)).
  { destruct (Z.le_gt_cases ((2 * q - 1) * den) (2 * (A * 100))) as [G|G];
      [exact G|exfalso].
    assert (G' : 2 * (A * 100) * (D + 1) < (2 * q - 1) * den * (D + 1))
      by (apply Z.mul_lt_mono_pos_r; lia).
    assert (G2 : (2 * q - 1) * den * (D + 1) <= 2 * q * D * den).
    { replace ((2 * q - 1) * den * (D + 1))
        with ((2 * q * D + (2 * q - D - 1)) * den) by ring.
      replace (2 * q * D * den) with ((2 * q * D) * den) by ring.
      apply Z.mul_le_mono_nonneg_r; lia. }
    lia. }
  destruct (Z.leb_spec (10 ^ 21 * den) A) as [Hbig|_].
  { exfalso.
    assert (A * 200 < 2 ^ 52 * den).
    { apply Z.lt_le_trans with ((2 * q + 1) * den); [lia|].
      apply Z.mul_le_mono_nonneg_r; lia. }
    assert (10 ^ 21 * den * 200 <= A * 200) by lia.
    assert (2 ^ 52 * den <= 10 ^ 21 * den * 200).
    { replace (10 ^ 21 * den * 200) with (10 ^ 21 * 200 * den) by ring.
      apply Z.mul_le_mono_nonneg_r; [lia|]. vm_compute. discriminate. }
    lia. }
  cbn [String.append]. f_equal.
  symmetry. apply (Z.div_unique _ _ _ (2 * (A * 100) + den - q * (2 * den))).
  - left. lia.
  - ring.
Qed.

(** X18: [calculatePercentage] returns ["0"] for a zero total.  Otherwise, with
    the modelled [toFixed], for a non-negative value and a positive total
    it renders the truncated quotient [value * 10000 / total] with its last
    two digits after the point, exactly: a value of at most the total gives
    a percentage between 0.00 and 100.00. *)
Theorem calculatePercentage_exact (rt : Runtime) (value total : Z) :
  0 <= value -> 0 < total -> value * 10000 / total < 2 ^ 51 ->
  calculatePercentage rt value 0 = "0"%string
  /\ calculatePercentage rt value total
     = toFixed rt (div (ofZ (value * 10000 / total)) (ofZ 100)) 2
  /\ calculatePercentage modelRuntime value total
     = fixedDigits (value * 10000 / total) 2
  /\ (value <= total -> 0 <= value * 10000 / total <= 10000).
Proof.
  intros Hv Ht Hq.
  assert (Hq0 : 0 <= value * 10000 / total) by (apply Z.div_pos; lia).
  assert (E : Z.quot (value * 10000) total = value * 10000 / total)
    by (apply Z.quot_div_nonneg; lia).
  split; [reflexivity|].
  unfold calculatePercentage. destruct (Z.eqb_spec total 0); [lia|].
  rewrite E. split; [reflexivity|]. split.
  - cbn [toFixed modelRuntime]. apply toFixed_hundredths. lia.
  - intros Hle. split; [exact Hq0|].
    apply Z.div_le_upper_bound; lia.
Qed.

Lemma calculatePercentage_exact_witness :
  calculatePercentage modelRuntime 1 3 = "33.33"%string.
Proof.
  rewrite (proj1 (proj2 (proj2
    (calculatePercentage_exact modelRuntime 1 3
       ltac:(lia) ltac:(lia) ltac:(vm_compute; reflexivity))))).
  reflexivity.
Defined.

(** * Properties of the trade finance utilities *)

Lemma reaches_rank_up (a b : SupplyChainEvent) :
  eventRank a <= eventRank b -> reaches a b.
Proof.
  destruct a, b; cbn [eventRank]; intros H; try lia;
    repeat match goal with
    | |- reaches ?x ?x => apply reaches_here
    | |- reaches ORDER_PLACED _ =>
        apply (reaches_step _ PRODUCTION_STARTED); [reflexivity|]
    | |- reaches PRODUCTION_STARTED _ =>
        apply (reaches_step _ PRODUCTION_COMPLETED); [reflexivity|]
    | |- reaches PRODUCTION_COMPLETED _ =>
        apply (reaches_step _ QUALITY_INSPECTION); [reflexivity|]
    | |- reaches QUALITY_INSPECTION _ =>
        apply (reaches_step _ PACKED); [reflexivity|]
    | |- reaches PACKED _ =>
        apply (reaches_step _ SHIPPED); [reflexivity|]
    | |- reaches SHIPPED _ =>
        apply (reaches_step _ IN_TRANSIT); [reflexivity|]
    | |- reaches IN_TRANSIT _ =>
        apply (reaches_step _ CUSTOMS_CLEARANCE); [reflexivity|]
    | |- reaches CUSTOMS_CLEARANCE _ =>
        apply (reaches_step _ ARRIVED_AT_PORT); [reflexivity|]
    | |- reaches ARRIVED_AT_PORT _ =>
        apply (reaches_step _ DELIVERED); [reflexivity|]
    | |- reaches DELIVERED _ =>
        apply (reaches_step _ RECEIVED); [reflexivity|]
    end.
Qed.

(** X19: The transitions [isValidStatusTransition] allows: no event follows
    RECEIVED and none leads back to ORDER_PLACED or to itself; every event
    can be reached from ORDER_PLACED and can reach RECEIVED; and a
    transition moves one or two places forward in the order of the
    enumeration, except for the two ways back, from QUALITY_INSPECTION to
    PRODUCTION_STARTED and from CUSTOMS_CLEARANCE to IN_TRANSIT. *)
Theorem supplyChain_transitions (a b : SupplyChainEvent) :
  isValidStatusTransition RECEIVED b = false
  /\ isValidStatusTransition a ORDER_PLACED = false
  /\ isValidStatusTransition a a = false
  /\ reaches ORDER_PLACED a
  /\ reaches a RECEIVED
  /\ (reaches RECEIVED a -> a = RECEIVED)
  /\ (isValidStatusTransition a b = true ->
      eventRank a < eventRank b <= eventRank a + 2
      \/ (a = QUALITY_INSPECTION /\ b = PRODUCTION_STARTED)
      \/ (a = CUSTOMS_CLEARANCE /\ b = IN_TRANSIT)).
Proof.
  split; [reflexivity|].
  split; [now destruct a|].
  split; [now destruct a|].
  split; [apply reaches_rank_up; destruct a; cbn; lia|].
  split; [apply reaches_rank_up; destruct a; cbn; lia|].
  split.
  - intros H. inversion H as [|? ? ? Hv _]; [reflexivity|discriminate Hv].
  - destruct a, b; cbn; intros H; try discriminate H; auto; left; lia.
Qed.

(** X20: [parseISO20022MessageType] echoes the message type it is given, looks
    it up without regard to letter case, and reports the domain Unknown
    together with the description Unknown message type, never one without
    the other.  Of the thirteen declared message types it knows nine: four
    of them, trea.003, bgrt.001, bgrt.002 and pain.002, are reported as
    unknown. *)
Theorem parseISO20022MessageType_known (messageType : string) :
  msg_messageId (parseISO20022MessageType messageType) = messageType
  /\ msg_domain (parseISO20022MessageType (toLowerCase messageType))
     = msg_domain (parseISO20022MessageType messageType)
  /\ msg_description (parseISO20022MessageType (toLowerCase messageType))
     = msg_description (parseISO20022MessageType messageType)
  /\ (msg_domain (parseISO20022MessageType messageType) = "Unknown"%string
      <-> msg_description (parseISO20022MessageType messageType)
          = "Unknown message type"%string)
  /\ filter (fun t => String.eqb (msg_domain (parseISO20022MessageType t))
                        "Unknown")
       ISO20022MessageType
     = ["trea.003"; "bgrt.001"; "bgrt.002"; "pain.002"]%string.
Proof.
  unfold parseISO20022MessageType. cbn [msg_messageId msg_domain msg_description].
  rewrite toLowerCase_idempotent.
  split; [reflexivity|]. split; [reflexivity|]. split; [reflexivity|].
  split; [|vm_compute; reflexivity].
  unfold messageInfo. cbn [lookupInfo].
  repeat (destruct (String.eqb (toLowerCase messageType) _);
          [split; discriminate|]).
  split; reflexivity.
Qed.

(** ** Document hashes *)

Lemma lower_upperChar (c : ascii) : lowerChar (upperChar c) = lowerChar c.
Proof. destruct c as [[] [] [] [] [] [] [] []]; reflexivity. Qed.

Lemma toLowerCase_toUpperCase (s : string) :
  toLowerCase (toUpperCase s) = toLowerCase s.
Proof.
  induction s as [|c s IH]; cbn [toUpperCase toLowerCase]; [reflexivity|].
  now rewrite lower_upperChar, IH.
Qed.

(** X21: A hash produced by [generateDocumentHash] is verified by
    [verifyDocumentHash] for the same content and algorithm, and the
    comparison ignores the letter case of the hash presented: the
    lowercased and the uppercased spelling are verified alike. *)
Theorem verifyDocumentHash_roundtrip
    (keccak256 sha256 : string -> string) (content hash : string)
    (algorithm : HashAlgorithm) :
  verifyDocumentHash keccak256 sha256 content
    (generateDocumentHash keccak256 sha256 content algorithm) algorithm = true
  /\ verifyDocumentHash keccak256 sha256 content
       (toUpperCase (generateDocumentHash keccak256 sha256 content algorithm))
       algorithm = true
  /\ verifyDocumentHash keccak256 sha256 content (toLowerCase hash) algorithm
     = verifyDocumentHash keccak256 sha256 content hash algorithm
  /\ verifyDocumentHash keccak256 sha256 content (toUpperCase hash) algorithm
     = verifyDocumentHash keccak256 sha256 content hash algorithm
  /\ (verifyDocumentHash keccak256 sha256 content hash algorithm = true
      <-> toLowerCase hash
          = toLowerCase (generateDocumentHash keccak256 sha256 content
                           algorithm)).
Proof.
  unfold verifyDocumentHash.
  rewrite !toLowerCase_toUpperCase, toLowerCase_idempotent, String.eqb_refl.
  repeat split; try reflexivity.
  - intros H. apply String.eqb_eq in H. now symmetry.
  - intros H. apply String.eqb_eq. now symmetry.
Qed.

(** ** Letter of credit references *)

Lemma N_to_uint_nonnil (n : N) : N.to_uint n <> Nil.
Proof.
  destruct n as [|p]; [discriminate|]. apply DecimalPos.Unsigned.to_uint_nonnil.
Qed.

Lemma natOfDigits_numberToString (z : Z) :
  0 <= z -> EthersModel.natOfDigits (numberToString z) = z.
Proof.
  intros Hz. unfold numberToString, EthersModel.natOfDigits.
  destruct (Z.ltb_spec z 0); [lia|]. cbn [String.append].
  rewrite Z.abs_eq by exact Hz.
  pose proof (N_to_uint_nonnil (Z.to_N z)) as Hn.
  assert (E : NilZero.string_of_uint (N.to_uint (Z.to_N z))
              = NilEmpty.string_of_uint (N.to_uint (Z.to_N z)))
    by (destruct (N.to_uint (Z.to_N z)); [contradiction|reflexivity..]).
  rewrite E, NilEmpty.usu.
  unfold Z.of_uint. rewrite DecimalN.Unsigned.of_to. now apply Z2N.id.
Qed.

Lemma natOfDigits_leading_zeros (k : nat) (s : string) :
  EthersModel.natOfDigits (EthersModel.zeros k ++ s) = EthersModel.natOfDigits s.
Proof.
  induction k as [|k IH]; [reflexivity|].
  rewrite <- IH. unfold EthersModel.natOfDigits. cbn [EthersModel.zeros String.append].
  cbn [NilEmpty.uint_of_string].
  destruct (NilEmpty.uint_of_string (EthersModel.zeros k ++ s)); reflexivity.
Qed.

Lemma append_inj_l (p x y : string) : (p ++ x = p ++ y)%string -> x = y.
Proof.
  induction p as [|c p IH]; cbn [String.append]; [auto|].
  intros H. apply IH. now injection H.
Qed.

Lemma padStart0_length (n : nat) (s : string) :
  String.length (padStart0 n s) = Nat.max n (String.length s).
Proof.
  unfold padStart0. rewrite append_length.
  assert (Hz : forall k, String.length (EthersModel.zeros k) = k)
    by (induction k; cbn; congruence).
  rewrite Hz. lia.
Qed.

(** X22: For a year and non-negative sequence numbers that are safe integers
    (below [2 ^ 53]), the sequence number can be read back from a reference:
    the reference ends with the sequence number padded with zeros to at
    least six characters, so, for a given bank code and year, distinct
    sequence numbers give distinct references, also beyond six digits. *)
Theorem generateLCReference_sequence
    (bankCode : string) (year s1 s2 : Z) :
  Z.abs year < 2 ^ 53 -> 0 <= s1 < 2 ^ 53 -> 0 <= s2 < 2 ^ 53 ->
  (generateLCReference bankCode year s1 = generateLCReference bankCode year s2
   -> s1 = s2)
  /\ exists padded,
       generateLCReference bankCode year s1
       = (toUpperCase bankCode ++ "-LC-" ++ numberToString year ++ "-"
          ++ padded)%string
       /\ (6 <= String.length padded)%nat
       /\ EthersModel.natOfDigits padded = s1.
Proof.
  intros _ H1 H2.
  assert (Hv : forall z, 0 <= z ->
            EthersModel.natOfDigits (padStart0 6 (numberToString z)) = z).
  { intros z Hz. unfold padStart0.
    now rewrite natOfDigits_leading_zeros, natOfDigits_numberToString. }
  split.
  - unfold generateLCReference. intros E.
    do 4 apply append_inj_l in E.
    rewrite <- (Hv s1), <- (Hv s2) by lia. now rewrite E.
  - eexists. split; [reflexivity|]. split.
    + rewrite padStart0_length. lia.
    + apply Hv. lia.
Qed.

Lemma generateLCReference_sequence_witness :
  generateLCReference "hsbc" 2024 42 = "HSBC-LC-2024-000042"%string
  /\ (generateLCReference "hsbc" 2024 42 = generateLCReference "hsbc" 2024 1000042
      -> 42 = 1000042).
Proof.
  split; [reflexivity|].
  apply (proj1 (generateLCReference_sequence "hsbc" 2024 42 1000042
                  ltac:(lia) ltac:(lia) ltac:(lia))).
Defined.

(** ** The estimator on a zero stake *)

(** X23: With nothing staked and a positive total, [calculateEstimatedRewards]
    returns zero daily, monthly and yearly amounts, and its percentage is
    the rendering of NaN: the ratio of the zero reward to the zero stake is
    not a number. *)
Theorem rewards_zero_stake
    (rt : Runtime) (total bpy : Z) (blocksPerYear : number) :
  0 < total -> toBigInt blocksPerYear = Ok bpy -> 0 <= bpy < 2 ^ 53 ->
  calculateEstimatedRewards rt 0 total blocksPerYear
  = Ok {| daily := weiToXdc rt 0;
          monthly := weiToXdc rt 0;
          yearly := weiToXdc rt 0;
          apy := toFixed rt S754_nan 2 |}
  /\ toFixed modelRuntime S754_nan 2 = "NaN"%string.
Proof.
  intros Ht Hb Hbpy. split; [|reflexivity].
  unfold calculateEstimatedRewards.
  destruct (Z.eqb_spec total 0); [lia|]. rewrite Hb. cbn [bind].
  assert (Hr : div (ofZ 0) (ofZ total) = S754_zero false).
  { rewrite ofZ_0. destruct (ofZ_positive total Ht) as [H|H].
    - destruct (ofZ total) as [| | |[] m e]; try discriminate. reflexivity.
    - rewrite H. reflexivity. }
  rewrite Hr.
  assert (Hp : mul (ofZ (bpy * rewardPerBlock)) (S754_zero false)
               = S754_zero false).
  { destruct (Z.eq_dec bpy 0) as [->|Hne]; [reflexivity|].
    assert (Hy : 0 < bpy * rewardPerBlock < 2 ^ 111).
    { unfold rewardPerBlock. change (2 ^ 111) with (2 ^ 53 * 2 ^ 58). lia. }
    destruct (ofZ_posFinite _ 111 Hy ltac:(lia)) as (m & e & -> & _ & _).
    reflexivity. }
  rewrite Hp. reflexivity.
Qed.

Lemma rewards_zero_stake_witness :
  calculateEstimatedRewards modelRuntime 0 (10 ^ 27) defaultBlocksPerYear
  = Ok {| daily := "0.0"; monthly := "0.0"; yearly := "0.0"; apy := "NaN" |}.
Proof.
  rewrite (proj1 (rewards_zero_stake modelRuntime (10 ^ 27) 15768000
                    defaultBlocksPerYear ltac:(lia) eq_refl ltac:(lia))).
  reflexivity.
Defined.
